(** * Raster Vision pipeline engine: commands, batched prediction, bundling

    A shallow embedding of [RVPipeline] (rv_pipeline.py) and of the [predict]
    command-line entry point (cli.py).  Python methods that call external
    collaborators become computations in a small monad that threads a state,
    may raise, and records every call to a collaborator in a trace.

    Scenes, raster sources, label stores, the backend's [predict] and the
    hooks of task-specific pipelines are taken to return.  What may raise is
    [get_train_windows] and [get_train_labels], which [RVPipeline] leaves
    unimplemented, the file-system collaborators of [bundle], and the
    builtin [int] of the command line.  Logging is left out. *)

From Stdlib Require Import String Ascii List ZArith Bool Lia.
Import ListNotations.
Open Scope Z_scope.

(** ** Exceptions and outcomes *)

Inductive exn : Type :=
| NotImplementedError
| ValueError (literal : string)
| AttributeError
| IOError (what : string).

Inductive outcome (A : Type) : Type :=
| Returned (a : A)
| Raised (e : exn).
Arguments Returned {A} a.
Arguments Raised {A} e.

Definition returned {A} (r : outcome A) : bool :=
  match r with Returned _ => true | Raised _ => false end.

(** ** The effect monad: state [S], exceptions, and a trace of events [E] *)

Definition M (E S A : Type) : Type := S -> outcome A * S * list E.

Section Effects.
Context {E S : Type}.

Definition ret {A} (a : A) : M E S A := fun s => (Returned a, s, []).

Definition bind {A B} (m : M E S A) (k : A -> M E S B) : M E S B :=
  fun s =>
    match m s with
    | (Returned a, s1, t1) =>
        match k a s1 with (r, s2, t2) => (r, s2, t1 ++ t2) end
    | (Raised e, s1, t1) => (Raised e, s1, t1)
    end.

Definition raise {A} (e : exn) : M E S A := fun s => (Raised e, s, []).
Definition emit (e : E) : M E S unit := fun s => (Returned tt, s, [e]).
Definition get : M E S S := fun s => (Returned s, s, []).
Definition put (s : S) : M E S unit := fun _ => (Returned tt, s, []).
Definition modify (f : S -> S) : M E S unit := fun s => (Returned tt, f s, []).

(** A pure call that may raise. *)
Definition lift_outcome {A} (r : outcome A) : M E S A := fun s => (r, s, []).

(** [for x in xs: body x] *)
Fixpoint for_each {A} (xs : list A) (body : A -> M E S unit) : M E S unit :=
  match xs with
  | [] => ret tt
  | x :: xs' => bind (body x) (fun _ => for_each xs' body)
  end.

(** [with cm: body]: the exit handler runs on every exit path and the
    outcome of the body is the outcome of the statement. *)
Definition with_ {A} (enter exit_ : E) (body : M E S A) : M E S A :=
  fun s =>
    match body s with
    | (r, s1, t1) => (r, s1, enter :: t1 ++ [exit_])
    end.

(** A callee with its own local variables [S']: it starts from [init] and
    its frame is dropped on exit. *)
Definition call {S' A} (init : S') (m : M E S' A) : M E S A :=
  fun s => match m init with (r, _, t) => (r, s, t) end.
End Effects.

Notation "x <- m ;; k" := (bind m (fun x => k))
  (at level 61, m at next level, right associativity).
Notation "m ;; k" := (bind m (fun _ => k))
  (at level 61, right associativity).

Definition result_of {E S A} (r : outcome A * S * list E) : outcome A := fst (fst r).
Definition state_of {E S A} (r : outcome A * S * list E) : S := snd (fst r).
Definition trace_of {E S A} (r : outcome A * S * list E) : list E := snd r.

(** ** Strings printed by the predictor *)

Fixpoint dots (n : nat) : string :=
  match n with O => EmptyString | S n' => String "." (dots n') end.

Definition newline : string := String (ascii_of_nat 10) EmptyString.

(** ** Data model of the pipeline *)

Section Model.
(** [Box], a chip ([np.ndarray]) and [Labels] belong to collaborators. *)
Variables (Box Chip Labels : Type).
(** [Labels.__add__] / [__iadd__], the merge used by [labels += batch_labels]. *)
Variable labels_add : Labels -> Labels -> Labels.

Record RasterSource : Type := {
  get_extent : Box;
  get_chip : Box -> Chip
}.

Record LabelStore : Type := {
  empty_labels : Labels
}.

Record Scene : Type := {
  id : string;
  raster_source : RasterSource;
  prediction_label_store : LabelStore
}.

(** A backend object; [backend_id] is the identity of the Python object. *)
Record Backend : Type := {
  backend_id : nat;
  backend_predict : list Chip -> list Box -> Labels
}.

Record DataSample : Type := {
  sample_chip : Chip;
  sample_window : Box;
  sample_labels : Labels;
  sample_scene_id : string;
  is_train : bool
}.

Inductive split_name : Type := TRAIN | VALIDATION.

Definition split_eqb (a b : split_name) : bool :=
  match a, b with
  | TRAIN, TRAIN | VALIDATION, VALIDATION => true
  | _, _ => false
  end.

(** Calls to collaborators, in the order the pipeline makes them. *)
Inductive event : Type :=
| EvBuildBackend (built : Backend)
| EvLoadModel (backend : Backend)
| EvGetSampleWriter (backend : Backend)
| EvCloseSampleWriter (backend : Backend)
| EvWriteSample (sample : DataSample)
| EvActivate (scene : Scene)
| EvDeactivate (scene : Scene)
| EvPredictScene (scene : Scene) (backend : Backend)
| EvGetChip (w : Box)
| EvBackendPredict (backend : Backend) (chips : list Chip) (windows : list Box)
| EvPostProcessBatch (windows : list Box) (chips : list Chip) (raw : Labels)
| EvMerge (acc batch_labels : Labels)
| EvPostProcessPredictions (merged : Labels) (scene : Scene)
| EvSave (scene : Scene) (labels : Labels)
| EvPrint (text : string).

(** The methods a task-specific pipeline overrides. *)
Record Hooks : Type := {
  get_train_windows : Scene -> outcome (list Box);
  get_train_labels : Box -> Scene -> outcome Labels;
  post_process_sample : DataSample -> DataSample;
  post_process_batch : list Box -> list Chip -> Labels -> Labels;
  post_process_predictions : Labels -> Scene -> Labels;
  get_predict_windows : Box -> list Box
}.

(** [Box.get_windows(chip_sz, stride)], the window generator. *)
Variable get_windows : Box -> Z -> Z -> list Box.

(** The methods as [RVPipeline] itself defines them. *)
Definition base_hooks (predict_chip_sz : Z) : Hooks := {|
  get_train_windows := fun _ => Raised NotImplementedError;
  get_train_labels := fun _ _ => Raised NotImplementedError;
  post_process_sample := fun sample => sample;
  post_process_batch := fun _ _ labels => labels;
  post_process_predictions := fun labels _ => labels;
  get_predict_windows := fun extent =>
    let chip_sz := predict_chip_sz in
    let stride := predict_chip_sz in
    get_windows extent chip_sz stride
|}.

(** *** predict_scene *)

(** The local variables of [predict_scene] that its loop and the nested
    [predict_batch] update. *)
Record Frame : Type := {
  labels : Labels;
  batch_chips : list Chip;
  batch_windows : list Box
}.

Definition set_labels (l : Labels) (fr : Frame) : Frame :=
  {| labels := l; batch_chips := batch_chips fr; batch_windows := batch_windows fr |}.

Definition append_to_batch (c : Chip) (w : Box) (fr : Frame) : Frame :=
  {| labels := labels fr;
     batch_chips := batch_chips fr ++ [c];
     batch_windows := batch_windows fr ++ [w] |}.

Definition reset_batch (fr : Frame) : Frame :=
  {| labels := labels fr; batch_chips := []; batch_windows := [] |}.

Section PredictScene.
Variable self : Hooks.
Variable predict_batch_sz : Z.
Variable scene : Scene.
Variable backend : Backend.

(** [np.array(chips)] stacks the chips; the batch stays the same sequence. *)
Definition np_array (chips : list Chip) : list Chip := chips.

Definition predict_batch (chips : list Chip) (windows : list Box)
  : M event Frame unit :=
  let chips := np_array chips in
  emit (EvBackendPredict backend chips windows) ;;
  let batch_labels := backend_predict backend chips windows in
  emit (EvPostProcessBatch windows chips batch_labels) ;;
  let batch_labels := post_process_batch self windows chips batch_labels in
  fr <- get ;;
  emit (EvMerge (labels fr) batch_labels) ;;
  put (set_labels (labels_add (labels fr) batch_labels) fr) ;;
  emit (EvPrint (dots (length chips))).

Definition predict_window (w : Box) : M event Frame unit :=
  emit (EvGetChip w) ;;
  let chip := get_chip (raster_source scene) w in
  modify (append_to_batch chip w) ;;
  fr <- get ;;
  if Z.of_nat (length (batch_chips fr)) >=? predict_batch_sz
  then predict_batch (batch_chips fr) (batch_windows fr) ;;
       modify reset_batch
  else ret tt.

Definition predict_scene_body : M event Frame Labels :=
  emit (EvPredictScene scene backend) ;;
  let windows := get_predict_windows self (get_extent (raster_source scene)) in
  for_each windows predict_window ;;
  emit (EvPrint newline) ;;
  fr <- get ;;
  (if (0 <? length (batch_chips fr))%nat
   then predict_batch (batch_chips fr) (batch_windows fr)
   else ret tt) ;;
  fr <- get ;;
  emit (EvPostProcessPredictions (labels fr) scene) ;;
  ret (post_process_predictions self (labels fr) scene).

Definition predict_scene {S} : M event S Labels :=
  call {| labels := empty_labels (prediction_label_store scene);
          batch_chips := [];
          batch_windows := [] |}
       predict_scene_body.
End PredictScene.

(** *** Configuration *)

Variable ClassConfig : Type.

Record SceneConfig : Type := {
  build : ClassConfig -> string -> Scene
}.

Record DatasetConfig : Type := {
  class_config : ClassConfig;
  train_scenes : list SceneConfig;
  validation_scenes : list SceneConfig;
  test_scenes : list SceneConfig
}.

(** [DatasetConfig.get_split_config(split_ind, num_splits)]. *)
Variable get_split_config : DatasetConfig -> Z -> Z -> DatasetConfig.

(** [model] is what [predict] of a backend built from this configuration
    computes. *)
Record BackendConfig : Type := {
  model : list Chip -> list Box -> Labels;
  get_bundle_filenames : list string
}.

Record AnalyzerConfig : Type := {
  analyzer_bundle_filenames : list string
}.

Record RVPipelineConfig : Type := {
  dataset : DatasetConfig;
  backend : BackendConfig;
  analyzers : list AnalyzerConfig;
  predict_chip_sz : Z;
  predict_batch_sz : Z;
  train_uri : string;
  analyze_uri : string;
  get_config_uri : string;
  get_model_bundle_uri : string
}.

(** *** The pipeline object *)

(** [self.backend], and the number of backend objects built so far, which
    gives each new object its identity. *)
Record Runtime : Type := {
  self_backend : option Backend;
  objects : nat
}.

(** [RVPipeline.__init__]: [self.backend = None]. *)
Definition init (objects : nat) : Runtime :=
  {| self_backend := None; objects := objects |}.

Definition set_self_backend (b : option Backend) (rt : Runtime) : Runtime :=
  {| self_backend := b; objects := objects rt |}.

Section Commands.
Variable self : Hooks.
Variable config : RVPipelineConfig.
Variable tmp_dir : string.

(** [config.backend.build(config, tmp_dir)] *)
Definition backend_build : M event Runtime Backend :=
  rt <- get ;;
  let b := {| backend_id := objects rt;
              backend_predict := model (backend config) |} in
  put {| self_backend := self_backend rt; objects := S (objects rt) |} ;;
  emit (EvBuildBackend b) ;;
  ret b.

Definition load_model (b : Backend) : M event Runtime unit :=
  emit (EvLoadModel b).

(** The truth value of a list: [False] exactly when it is empty. *)
Definition truthy {A} (xs : list A) : bool :=
  match xs with [] => false | _ :: _ => true end.

(** **** chip *)

Definition chip_scene (scene : Scene) (split : split_name)
  : M event Runtime unit :=
  with_ (EvActivate scene) (EvDeactivate scene)
    (windows <- lift_outcome (get_train_windows self scene) ;;
     for_each windows (fun window =>
       emit (EvGetChip window) ;;
       let chip := get_chip (raster_source scene) window in
       labels <- lift_outcome (get_train_labels self window scene) ;;
       let sample := {| sample_chip := chip;
                        sample_window := window;
                        sample_labels := labels;
                        sample_scene_id := id scene;
                        is_train := split_eqb split TRAIN |} in
       let sample := post_process_sample self sample in
       emit (EvWriteSample sample))).

Definition chip (split_ind num_splits : Z) : M event Runtime unit :=
  let cfg := config in
  backend <- backend_build ;;
  let dataset := get_split_config (dataset cfg) split_ind num_splits in
  if negb (truthy (train_scenes dataset))
     && negb (truthy (validation_scenes dataset))
  then ret tt
  else
    let class_cfg := class_config dataset in
    with_ (EvGetSampleWriter backend) (EvCloseSampleWriter backend)
      (for_each (train_scenes dataset) (fun s =>
         chip_scene (build s class_cfg tmp_dir) TRAIN) ;;
       for_each (validation_scenes dataset) (fun s =>
         chip_scene (build s class_cfg tmp_dir) VALIDATION)).

(** **** predict *)

(** [self.backend] is read for every scene.  It is never [None] here, as
    [predict] sets it first; the [None] branch stands for the failure of the
    first use of a missing backend. *)
Definition _predict (scenes : list Scene) : M event Runtime unit :=
  for_each scenes (fun scene =>
    with_ (EvActivate scene) (EvDeactivate scene)
      (rt <- get ;;
       match self_backend rt with
       | None => raise AttributeError
       | Some backend =>
           labels <- predict_scene self (predict_batch_sz config) scene backend ;;
           emit (EvSave scene labels)
       end)).

Definition predict (split_ind num_splits : Z) : M event Runtime unit :=
  rt <- get ;;
  (match self_backend rt with
   | None =>
       b <- backend_build ;;
       modify (set_self_backend (Some b)) ;;
       load_model b
   | Some _ => ret tt
   end) ;;
  let class_config := class_config (dataset config) in
  let dataset := get_split_config (dataset config) split_ind num_splits in
  _predict (map (fun s => build s class_config tmp_dir)
                      (validation_scenes dataset)) ;;
  if truthy (test_scenes dataset)
  then _predict (map (fun s => build s class_config tmp_dir)
                     (test_scenes dataset))
  else ret tt.

End Commands.
End Model.

Arguments get_extent {Box Chip} _.
Arguments get_chip {Box Chip} _ _.
Arguments empty_labels {Labels} _.
Arguments id {Box Chip Labels} _.
Arguments raster_source {Box Chip Labels} _.
Arguments prediction_label_store {Box Chip Labels} _.
Arguments backend_id {Box Chip Labels} _.
Arguments backend_predict {Box Chip Labels} _ _ _.
Arguments sample_chip {Box Chip Labels} _.
Arguments sample_window {Box Chip Labels} _.
Arguments sample_labels {Box Chip Labels} _.
Arguments sample_scene_id {Box Chip Labels} _.
Arguments is_train {Box Chip Labels} _.
Arguments EvBuildBackend {Box Chip Labels} _.
Arguments EvLoadModel {Box Chip Labels} _.
Arguments EvGetSampleWriter {Box Chip Labels} _.
Arguments EvCloseSampleWriter {Box Chip Labels} _.
Arguments EvWriteSample {Box Chip Labels} _.
Arguments EvActivate {Box Chip Labels} _.
Arguments EvDeactivate {Box Chip Labels} _.
Arguments EvPredictScene {Box Chip Labels} _ _.
Arguments EvGetChip {Box Chip Labels} _.
Arguments EvBackendPredict {Box Chip Labels} _ _ _.
Arguments EvPostProcessBatch {Box Chip Labels} _ _ _.
Arguments EvMerge {Box Chip Labels} _ _.
Arguments EvPostProcessPredictions {Box Chip Labels} _ _.
Arguments EvSave {Box Chip Labels} _ _.
Arguments EvPrint {Box Chip Labels} _.
Arguments get_train_windows {Box Chip Labels} _ _.
Arguments get_train_labels {Box Chip Labels} _ _ _.
Arguments post_process_sample {Box Chip Labels} _ _.
Arguments post_process_batch {Box Chip Labels} _ _ _ _.
Arguments post_process_predictions {Box Chip Labels} _ _ _.
Arguments get_predict_windows {Box Chip Labels} _ _.
Arguments base_hooks {Box Chip Labels} _ _.
Arguments labels {Box Chip Labels} _.
Arguments batch_chips {Box Chip Labels} _.
Arguments batch_windows {Box Chip Labels} _.
Arguments set_labels {Box Chip Labels} _ _.
Arguments append_to_batch {Box Chip Labels} _ _ _.
Arguments reset_batch {Box Chip Labels} _.
Arguments np_array {Chip} _.
Arguments predict_batch {Box Chip Labels} _ _ _ _ _.
Arguments predict_window {Box Chip Labels} _ _ _ _ _ _.
Arguments predict_scene_body {Box Chip Labels} _ _ _ _ _.
Arguments predict_scene {Box Chip Labels} _ _ _ _ _ {S}.
Arguments build {Box Chip Labels ClassConfig} _ _ _.
Arguments class_config {Box Chip Labels ClassConfig} _.
Arguments train_scenes {Box Chip Labels ClassConfig} _.
Arguments validation_scenes {Box Chip Labels ClassConfig} _.
Arguments test_scenes {Box Chip Labels ClassConfig} _.
Arguments model {Box Chip Labels} _ _ _.
Arguments get_bundle_filenames {Box Chip Labels} _.
Arguments dataset {Box Chip Labels ClassConfig} _.
Arguments backend {Box Chip Labels ClassConfig} _.
Arguments analyzers {Box Chip Labels ClassConfig} _.
Arguments predict_chip_sz {Box Chip Labels ClassConfig} _.
Arguments predict_batch_sz {Box Chip Labels ClassConfig} _.
Arguments train_uri {Box Chip Labels ClassConfig} _.
Arguments analyze_uri {Box Chip Labels ClassConfig} _.
Arguments get_config_uri {Box Chip Labels ClassConfig} _.
Arguments get_model_bundle_uri {Box Chip Labels ClassConfig} _.
Arguments self_backend {Box Chip Labels} _.
Arguments objects {Box Chip Labels} _.
Arguments init {Box Chip Labels} _.
Arguments set_self_backend {Box Chip Labels} _ _.
Arguments backend_build {Box Chip Labels ClassConfig} _.
Arguments load_model {Box Chip Labels} _.
Arguments chip_scene {Box Chip Labels} _ _ _.
Arguments chip {Box Chip Labels ClassConfig} _ _ _ _ _ _.
Arguments _predict {Box Chip Labels} _ {ClassConfig} _ _ _.
Arguments predict {Box Chip Labels} _ {ClassConfig} _ _ _ _ _ _.

(** ** What a trace shows *)

Section Views.
Context {Box Chip Labels : Type}.
Variable labels_add : Labels -> Labels -> Labels.

(** The batches handed to [backend.predict], in call order. *)
Definition backend_calls (t : list (event Box Chip Labels))
  : list (Backend Box Chip Labels * list Chip * list Box) :=
  flat_map (fun e => match e with
                     | EvBackendPredict b chips windows => [(b, chips, windows)]
                     | _ => []
                     end) t.

Definition call_windows (c : Backend Box Chip Labels * list Chip * list Box)
  : list Box := snd c.

(** The windows whose chip was read, in order. *)
Definition chip_reads (t : list (event Box Chip Labels)) : list Box :=
  flat_map (fun e => match e with EvGetChip w => [w] | _ => [] end) t.

Definition is_chip_read (e : event Box Chip Labels) : bool :=
  match e with EvGetChip _ => true | _ => false end.

(** A trace with the chip reads left out. *)
Definition without_chip_reads (t : list (event Box Chip Labels))
  : list (event Box Chip Labels) :=
  filter (fun e => negb (is_chip_read e)) t.

(** The calls of [predict_scene], with the backend each was given. *)
Definition scene_calls (t : list (event Box Chip Labels))
  : list (Scene Box Chip Labels * Backend Box Chip Labels) :=
  flat_map (fun e => match e with EvPredictScene s b => [(s, b)] | _ => [] end) t.

Definition builds (t : list (event Box Chip Labels))
  : list (Backend Box Chip Labels) :=
  flat_map (fun e => match e with EvBuildBackend b => [b] | _ => [] end) t.

Definition loads (t : list (event Box Chip Labels))
  : list (Backend Box Chip Labels) :=
  flat_map (fun e => match e with EvLoadModel b => [b] | _ => [] end) t.

Definition is_setup (e : event Box Chip Labels) : bool :=
  match e with EvBuildBackend _ | EvLoadModel _ => true | _ => false end.

Definition is_sample_writing (e : event Box Chip Labels) : bool :=
  match e with
  | EvGetSampleWriter _ | EvCloseSampleWriter _ | EvWriteSample _ => true
  | _ => false
  end.

(** The part of a trace that concerns the backend, the two prediction hooks
    and the accumulator. *)
Definition is_labels_event (e : event Box Chip Labels) : bool :=
  match e with
  | EvBackendPredict _ _ _ | EvPostProcessBatch _ _ _ | EvMerge _ _
  | EvPostProcessPredictions _ _ => true
  | _ => false
  end.

Definition labels_view (t : list (event Box Chip Labels))
  : list (event Box Chip Labels) := filter is_labels_event t.

(** The calls of [post_process_predictions]. *)
Definition final_hook_calls (t : list (event Box Chip Labels))
  : list (Labels * Scene Box Chip Labels) :=
  flat_map (fun e => match e with
                     | EvPostProcessPredictions l s => [(l, s)]
                     | _ => []
                     end) t.

Section Batches.
Variable self : Hooks Box Chip Labels.
Variable scene : Scene Box Chip Labels.
Variable backend : Backend Box Chip Labels.

Definition chips_of (windows : list Box) : list Chip :=
  map (get_chip (raster_source scene)) windows.

(** The accumulator after one batch of windows. *)
Definition batch_step (acc : Labels) (windows : list Box) : Labels :=
  let chips := chips_of windows in
  labels_add acc
    (post_process_batch self windows chips
       (backend_predict backend chips windows)).

(** What one call of [predict_batch] leaves in the trace. *)
Definition batch_events (acc : Labels) (windows : list Box)
  : list (event Box Chip Labels) :=
  let chips := chips_of windows in
  let raw := backend_predict backend chips windows in
  [EvBackendPredict backend chips windows;
   EvPostProcessBatch windows chips raw;
   EvMerge acc (post_process_batch self windows chips raw);
   EvPrint (dots (length chips))].

Fixpoint batches_trace (acc : Labels) (batches : list (list Box))
  : list (event Box Chip Labels) :=
  match batches with
  | [] => []
  | b :: rest => batch_events acc b ++ batches_trace (batch_step acc b) rest
  end.

(** The backend call, the batch hook on its raw labels, and the merge of
    the hook's result, for each batch in turn. *)
Fixpoint hooks_trace (acc : Labels) (batches : list (list Box))
  : list (event Box Chip Labels) :=
  match batches with
  | [] => []
  | windows :: rest =>
      let chips := chips_of windows in
      let raw := backend_predict backend chips windows in
      EvBackendPredict backend chips windows
      :: EvPostProcessBatch windows chips raw
      :: EvMerge acc (post_process_batch self windows chips raw)
      :: hooks_trace (batch_step acc windows) rest
  end.

(** The batch left in the buffer when the loop ends, if any. *)
Definition flushed (r : list Box) : list (list Box) :=
  match r with [] => [] | _ :: _ => [r] end.

(** "Invoking the backend once on a single batch containing all windows". *)
Definition single_batch_labels : Labels :=
  let windows := get_predict_windows self (get_extent (raster_source scene)) in
  post_process_predictions self
    (batch_step (empty_labels (prediction_label_store scene)) windows) scene.

(** What [_predict] leaves in the trace for one scene: the scene is
    activated, [predict_scene] runs, the labels it returned are saved to the
    scene's prediction label store, and the scene is deactivated. *)
Definition scene_events (predict_batch_sz : Z) : list (event Box Chip Labels) :=
  let run := predict_scene labels_add self predict_batch_sz scene backend tt in
  EvActivate scene :: trace_of run ++
  match result_of run with
  | Returned labels => [EvSave scene labels]
  | Raised _ => []
  end ++ [EvDeactivate scene].
End Batches.

(** Events from inside [predict_scene], after its entry. *)
Definition is_scene_internal (e : event Box Chip Labels) : bool :=
  match e with
  | EvGetChip _ | EvBackendPredict _ _ _ | EvPostProcessBatch _ _ _
  | EvMerge _ _ | EvPostProcessPredictions _ _ | EvPrint _ => true
  | _ => false
  end.
End Views.

(** ** Bundle assembly *)

(** [os.path.join] for two components (POSIX). *)
Fixpoint endswith_sep (s : string) : bool :=
  match s with
  | EmptyString => false
  | String c EmptyString => Ascii.eqb c "/"
  | String _ s' => endswith_sep s'
  end.

Definition startswith_sep (s : string) : bool :=
  match s with
  | String c _ => Ascii.eqb c "/"
  | EmptyString => false
  end.

Definition join (a b : string) : string :=
  if startswith_sep b then b
  else if (String.eqb a "" || endswith_sep a)%bool then (a ++ b)%string
  else (a ++ "/" ++ b)%string.

(** Calls to the file-system collaborators. *)
Inductive fs_event : Type :=
| FsTemporaryDirectory (dir : string)
| FsCleanup (dir : string)
| FsMakeDir (path : string)
| FsDownload (uri download_dir : string)
| FsCopy (src dst : string)
| FsZipdir (dir zip_path : string)
| FsUpload (src_path dst_uri : string).

(** The calls that create or upload the archive. *)
Definition is_archive (e : fs_event) : bool :=
  match e with FsZipdir _ _ | FsUpload _ _ => true | _ => false end.

Definition archive_events (t : list fs_event) : list fs_event :=
  filter is_archive t.

(** Where files were copied to, in order. *)
Definition copy_destinations (t : list fs_event) : list string :=
  flat_map (fun e => match e with FsCopy _ dst => [dst] | _ => [] end) t.

Section Bundle.
Variables (Box Chip Labels ClassConfig : Type).

(** The state of the local and remote stores, and the collaborators acting
    on it ([rastervision.pipeline.file_system.utils], [shutil], [tempfile]);
    each may raise. *)
Variable FS : Type.
Variable download_if_needed : string -> string -> FS -> outcome string * FS.
Variable shutil_copy : string -> string -> FS -> outcome unit * FS.
Variable make_dir : string -> FS -> outcome unit * FS.
Variable zipdir : string -> string -> FS -> outcome unit * FS.
Variable upload_or_copy : string -> string -> FS -> outcome unit * FS.
Variable get_local_path : string -> string -> string.
(** The name [tempfile.TemporaryDirectory(dir=...)] picks. *)
Variable mkdtemp : string -> string.

Definition syscall {A} (ev : fs_event) (op : FS -> outcome A * FS)
  : M fs_event FS A :=
  fun fs => match op fs with (r, fs') => (r, fs', [ev]) end.

Variable config : RVPipelineConfig Box Chip Labels ClassConfig.
Variable self_tmp_dir : string.

(** [path = download_if_needed(uri, tmp_dir); shutil.copy(path, dst)], the
    two statements [bundle] runs for every file it stages. *)
Definition fetch (uri tmp_dir dst : string) : M fs_event FS unit :=
  path <- syscall (FsDownload uri tmp_dir) (download_if_needed uri tmp_dir) ;;
  syscall (FsCopy path dst) (shutil_copy path dst).

Definition bundle : M fs_event FS unit :=
  let tmp_dir := mkdtemp self_tmp_dir in
  with_ (FsTemporaryDirectory tmp_dir) (FsCleanup tmp_dir)
    (let bundle_dir := join tmp_dir "bundle" in
     syscall (FsMakeDir bundle_dir) (make_dir bundle_dir) ;;
     for_each (get_bundle_filenames (backend config)) (fun fn =>
       fetch (join (train_uri config) fn) tmp_dir (join bundle_dir fn)) ;;
     for_each (analyzers config) (fun a =>
       for_each (analyzer_bundle_filenames a) (fun fn =>
         fetch (join (analyze_uri config) fn) tmp_dir
               (join bundle_dir fn))) ;;
     fetch (get_config_uri config) tmp_dir
           (join bundle_dir "pipeline-config.json") ;;
     let model_bundle_uri := get_model_bundle_uri config in
     let model_bundle_path := get_local_path model_bundle_uri self_tmp_dir in
     syscall (FsZipdir bundle_dir model_bundle_path)
             (zipdir bundle_dir model_bundle_path) ;;
     syscall (FsUpload model_bundle_path model_bundle_uri)
             (upload_or_copy model_bundle_path model_bundle_uri)).

(** The staging directory once every declared file and the configuration
    have been copied. *)
Definition staged_files : list string :=
  let bundle_dir := join (mkdtemp self_tmp_dir) "bundle" in
  map (join bundle_dir) (get_bundle_filenames (backend config))
  ++ flat_map (fun a => map (join bundle_dir) (analyzer_bundle_filenames a))
              (analyzers config)
  ++ [join bundle_dir "pipeline-config.json"].

End Bundle.

Arguments syscall {FS A} _ _.
Arguments fetch {FS} _ _ _ _ _.
Arguments bundle {Box Chip Labels ClassConfig FS} _ _ _ _ _ _ _ _ _.
Arguments staged_files {Box Chip Labels ClassConfig} _ _ _.

(** ** What the collaborators did in a run of bundle *)

(** The steps of [bundle], as its text has them: the staging directory made,
    a file downloaded and then copied, the archive written, the archive
    uploaded. *)
Inductive bundle_call : Type :=
| CallMakeDir (dir : string)
| CallFetch (uri download_dir dst : string)
| CallZipdir (dir zip_path : string)
| CallUpload (src_path dst_uri : string).

Definition is_archive_call (c : bundle_call) : bool :=
  match c with CallZipdir _ _ | CallUpload _ _ => true | _ => false end.

(** Where a step copies to. *)
Definition call_destinations (cs : list bundle_call) : list string :=
  flat_map (fun c => match c with CallFetch _ _ dst => [dst] | _ => [] end) cs.

Section Outcomes.
Context {FS : Type}.
Variable download_if_needed : string -> string -> FS -> outcome string * FS.
Variable shutil_copy : string -> string -> FS -> outcome unit * FS.
Variable make_dir : string -> FS -> outcome unit * FS.
Variable zipdir : string -> string -> FS -> outcome unit * FS.
Variable upload_or_copy : string -> string -> FS -> outcome unit * FS.

(** [call_returns c fs fs' t]: started with the stores in [fs], every
    collaborator called in step [c] returned; the stores are then in [fs']
    and [t] are the calls made.  A file is fetched when its download
    returned a path and the copy of that path returned.  This is stated on
    the collaborators, not on the pipeline's code. *)
Inductive call_returns : bundle_call -> FS -> FS -> list fs_event -> Prop :=
| make_dir_returns dir fs fs' :
    make_dir dir fs = (Returned tt, fs') ->
    call_returns (CallMakeDir dir) fs fs' [FsMakeDir dir]
| fetch_returns uri dir dst fs path fs1 fs2 :
    download_if_needed uri dir fs = (Returned path, fs1) ->
    shutil_copy path dst fs1 = (Returned tt, fs2) ->
    call_returns (CallFetch uri dir dst) fs fs2
                 [FsDownload uri dir; FsCopy path dst]
| zipdir_returns dir zip_path fs fs' :
    zipdir dir zip_path fs = (Returned tt, fs') ->
    call_returns (CallZipdir dir zip_path) fs fs' [FsZipdir dir zip_path]
| upload_returns src dst fs fs' :
    upload_or_copy src dst fs = (Returned tt, fs') ->
    call_returns (CallUpload src dst) fs fs' [FsUpload src dst].

(** [call_raises c fs e fs' t]: started in [fs], a collaborator called in
    step [c] raised [e]; for a file, either its download raised, and then
    no copy was tried, or its download returned and the copy raised. *)
Inductive call_raises : bundle_call -> FS -> exn -> FS -> list fs_event -> Prop :=
| make_dir_raises dir fs e fs' :
    make_dir dir fs = (Raised e, fs') ->
    call_raises (CallMakeDir dir) fs e fs' [FsMakeDir dir]
| download_raises uri dir dst fs e fs' :
    download_if_needed uri dir fs = (Raised e, fs') ->
    call_raises (CallFetch uri dir dst) fs e fs' [FsDownload uri dir]
| copy_raises uri dir dst fs path fs1 e fs2 :
    download_if_needed uri dir fs = (Returned path, fs1) ->
    shutil_copy path dst fs1 = (Raised e, fs2) ->
    call_raises (CallFetch uri dir dst) fs e fs2
                [FsDownload uri dir; FsCopy path dst]
| zipdir_raises dir zip_path fs e fs' :
    zipdir dir zip_path fs = (Raised e, fs') ->
    call_raises (CallZipdir dir zip_path) fs e fs' [FsZipdir dir zip_path]
| upload_raises src dst fs e fs' :
    upload_or_copy src dst fs = (Raised e, fs') ->
    call_raises (CallUpload src dst) fs e fs' [FsUpload src dst].

(** The steps [cs] were made one after the other, each on the stores the
    one before left, and all of them returned. *)
Inductive calls_return : list bundle_call -> FS -> FS -> list fs_event -> Prop :=
| no_call fs : calls_return [] fs fs []
| next_call c cs fs fs1 fs2 t1 t2 :
    call_returns c fs fs1 t1 ->
    calls_return cs fs1 fs2 t2 ->
    calls_return (c :: cs) fs fs2 (t1 ++ t2).

(** A property of the stores that making a directory, downloading and
    copying never undo, whatever their arguments and outcome: for instance
    that a given remote location holds no file. *)
Definition kept_by_staging (P : FS -> Prop) : Prop :=
  (forall dir fs, P fs -> P (snd (make_dir dir fs)))
  /\ (forall uri dir fs, P fs -> P (snd (download_if_needed uri dir fs)))
  /\ (forall src dst fs, P fs -> P (snd (shutil_copy src dst fs))).

(** As long as [P] holds of the stores, the file at [uri] cannot be brought
    to [dst]: its download raises, or the copy of what was downloaded
    does. *)
Definition unretrievable (P : FS -> Prop) (uri download_dir dst : string)
  : Prop :=
  forall fs, P fs ->
    forall path fs1,
      download_if_needed uri download_dir fs = (Returned path, fs1) ->
      returned (fst (shutil_copy path dst fs1)) = false.

(** Copying a file onto itself is refused. *)
Definition refuses_self_copy : Prop :=
  forall path fs, returned (fst (shutil_copy path path fs)) = false.

(** A file named by an absolute local path is used where it is. *)
Definition downloads_in_place : Prop :=
  forall uri dir fs path fs1,
    startswith_sep uri = true ->
    download_if_needed uri dir fs = (Returned path, fs1) ->
    path = uri.
End Outcomes.

Section BundleCalls.
Context {Box Chip Labels ClassConfig : Type}.
Variable get_local_path : string -> string -> string.
Variable mkdtemp : string -> string.
Variable config : RVPipelineConfig Box Chip Labels ClassConfig.
Variable self_tmp_dir : string.

(** One step for each of [filenames], found under [base]. *)
Definition fetch_calls (base tmp_dir bundle_dir : string)
           (filenames : list string) : list bundle_call :=
  map (fun fn => CallFetch (join base fn) tmp_dir (join bundle_dir fn))
      filenames.

(** The steps that fill the staging directory. *)
Definition staging_calls : list bundle_call :=
  let tmp_dir := mkdtemp self_tmp_dir in
  let bundle_dir := join tmp_dir "bundle" in
  [CallMakeDir bundle_dir]
  ++ fetch_calls (train_uri config) tmp_dir bundle_dir
                 (get_bundle_filenames (backend config))
  ++ flat_map (fun a => fetch_calls (analyze_uri config) tmp_dir bundle_dir
                                    (analyzer_bundle_filenames a))
              (analyzers config)
  ++ [CallFetch (get_config_uri config) tmp_dir
                (join bundle_dir "pipeline-config.json")].

(** The steps that write and upload the archive. *)
Definition archive_calls : list bundle_call :=
  let bundle_dir := join (mkdtemp self_tmp_dir) "bundle" in
  let model_bundle_uri := get_model_bundle_uri config in
  let model_bundle_path := get_local_path model_bundle_uri self_tmp_dir in
  [CallZipdir bundle_dir model_bundle_path;
   CallUpload model_bundle_path model_bundle_uri].

Definition bundle_calls : list bundle_call := staging_calls ++ archive_calls.
End BundleCalls.

(** ** Command line: the [predict] entry point *)

Module Cli.

(** [str.split(' ')]: one cut at every single space. *)
Fixpoint split (sep : ascii) (s : string) : list string :=
  match s with
  | EmptyString => [EmptyString]
  | String c s' =>
      if Ascii.eqb c sep then EmptyString :: split sep s'
      else match split sep s' with
           | tok :: rest => String c tok :: rest
           | [] => [String c EmptyString]
           end
  end.

Fixpoint contains (c : ascii) (s : string) : bool :=
  match s with
  | EmptyString => false
  | String c' s' => Ascii.eqb c' c || contains c s'
  end.

(** [[f(x) for x in xs]] where [f] may raise: the first failure wins. *)
Fixpoint comprehension {A B} (f : A -> outcome B) (xs : list A)
  : outcome (list B) :=
  match xs with
  | [] => Returned []
  | x :: xs' =>
      match f x with
      | Raised e => Raised e
      | Returned y =>
          match comprehension f xs' with
          | Raised e => Raised e
          | Returned ys => Returned (y :: ys)
          end
      end
  end.

Inductive event : Type :=
| GetTmpDir (dir : string)
| CleanupTmpDir (dir : string)
| NewPredictor (model_bundle tmp_dir : string) (channel_order : option (list Z))
| PredictorPredict (image_uris : list string) (output_uri : string).

Section Predict.
(** The builtin [int] on a [str]. *)
Variable int : string -> outcome Z.
(** The directory [_rv_config.get_tmp_dir()] hands out. *)
Variable get_tmp_dir : string.

Definition predict (model_bundle image_uri output_uri : string)
                   (channel_order : option string) : M event unit unit :=
  channel_order <-
    match channel_order with
    | Some text =>
        ints <- lift_outcome (comprehension int (split " " text)) ;;
        ret (Some ints)
    | None => ret None
    end ;;
  let tmp_dir := get_tmp_dir in
  with_ (GetTmpDir tmp_dir) (CleanupTmpDir tmp_dir)
    (emit (NewPredictor model_bundle tmp_dir channel_order) ;;
     emit (PredictorPredict [image_uri] output_uri)).
End Predict.

(** [int] on ASCII text: surrounding white space is dropped, one sign is
    allowed, and single underscores may separate digits. *)
Definition is_space (c : ascii) : bool :=
  let n := nat_of_ascii c in
  ((9 <=? n) && (n <=? 13) || (28 <=? n) && (n <=? 32))%nat.

Definition is_digit (c : ascii) : bool :=
  let n := nat_of_ascii c in ((48 <=? n) && (n <=? 57))%nat.

Definition digit_value (c : ascii) : Z := Z.of_nat (nat_of_ascii c - 48).

Fixpoint lstrip (cs : list ascii) : list ascii :=
  match cs with
  | c :: cs' => if is_space c then lstrip cs' else cs
  | [] => []
  end.

Definition strip (cs : list ascii) : list ascii :=
  rev (lstrip (rev (lstrip cs))).

Fixpoint digits (acc : Z) (after_digit : bool) (cs : list ascii) : option Z :=
  match cs with
  | [] => if after_digit then Some acc else None
  | c :: cs' =>
      if is_digit c then digits (10 * acc + digit_value c) true cs'
      else if Ascii.eqb c "_"
           then if after_digit then digits acc false cs' else None
           else None
  end.

Definition int_ascii (text : string) : outcome Z :=
  let parsed :=
    match strip (list_ascii_of_string text) with
    | "+"%char :: cs => digits 0 false cs
    | "-"%char :: cs => option_map Z.opp (digits 0 false cs)
    | cs => digits 0 false cs
    end in
  match parsed with
  | Some z => Returned z
  | None => Raised (ValueError text)
  end.

End Cli.

(** ** A small concrete pipeline

    Windows and chips are numbers, a scene of extent [n] has the windows
    [0 .. n-1], and [Labels] is the list of windows a detection was made in. *)

Module Demo.

Definition get_windows (extent chip_sz stride : Z) : list Z :=
  map Z.of_nat (seq 0 (Z.to_nat extent)).

Definition hooks : Hooks Z Z (list Z) := base_hooks get_windows 256.

Definition scene_of (name : string) (extent : Z) : Scene Z Z (list Z) :=
  {| id := name;
     raster_source := {| get_extent := extent; get_chip := fun w => 10 * w |};
     prediction_label_store := {| empty_labels := [] |} |}.

Definition detector (chips : list Z) (windows : list Z) : list Z := windows.

Definition the_backend : Backend Z Z (list Z) :=
  {| backend_id := 0; backend_predict := detector |}.

Definition scene_config (name : string) (extent : Z)
  : SceneConfig Z Z (list Z) unit :=
  {| build := fun _ _ => scene_of name extent |}.

Definition the_dataset : DatasetConfig Z Z (list Z) unit :=
  {| class_config := tt;
     train_scenes := [scene_config "t0" 3];
     validation_scenes := [scene_config "v0" 5; scene_config "v1" 0];
     test_scenes := [scene_config "x0" 1] |}.

(** A stand-in for [get_split_config]: scenes are dealt to the shards in
    turn. *)
Fixpoint deal {A} (k : nat) (num_splits : nat) (ind : nat) (xs : list A) : list A :=
  match xs with
  | [] => []
  | x :: xs' =>
      if Nat.eqb (k mod num_splits) ind
      then x :: deal (S k) num_splits ind xs'
      else deal (S k) num_splits ind xs'
  end.

Definition get_split_config (d : DatasetConfig Z Z (list Z) unit)
                            (split_ind num_splits : Z)
  : DatasetConfig Z Z (list Z) unit :=
  let pick := fun A : Type => @deal A 0 (Z.to_nat num_splits) (Z.to_nat split_ind) in
  {| class_config := class_config d;
     train_scenes := pick _ (train_scenes d);
     validation_scenes := pick _ (validation_scenes d);
     test_scenes := pick _ (test_scenes d) |}.

Definition the_config : RVPipelineConfig Z Z (list Z) unit :=
  {| dataset := the_dataset;
     backend := {| model := detector;
                   get_bundle_filenames := ["model.pth"; "labels.json"]%string |};
     analyzers := [ {| analyzer_bundle_filenames := ["stats.json"%string] |} ];
     predict_chip_sz := 256;
     predict_batch_sz := 2;
     train_uri := "s3://out/train";
     analyze_uri := "/opt/out/analyze/";
     get_config_uri := "s3://out/pipeline-config.json";
     get_model_bundle_uri := "s3://out/bundle/model-bundle.zip" |}.

(** A backend that reports one detection per call, with [Labels] a count. *)
Definition counting_backend : Backend Z Z nat :=
  {| backend_id := 0; backend_predict := fun _ _ => 1%nat |}.

Definition counting_hooks : Hooks Z Z nat := base_hooks get_windows 256.

Definition counting_scene (extent : Z) : Scene Z Z nat :=
  {| id := "c";
     raster_source := {| get_extent := extent; get_chip := fun w => w |};
     prediction_label_store := {| empty_labels := 0%nat |} |}.

(** A store that records what was written. *)
Definition store_copy (src dst : string) (fs : list string)
  : outcome unit * list string := (Returned tt, dst :: fs).

Definition store_write (dst : string) (fs : list string)
  : outcome unit * list string := (Returned tt, dst :: fs).

End Demo.

(** ** Computations that leave the state alone *)

(** [m] neither reads nor changes the state: its outcome and trace are the
    same from every state. *)
Definition stateless {E S A} (m : M E S A) : Prop :=
  exists r t, forall s, m s = (r, s, t).

(** ** More of what a trace shows *)

Section MoreViews.
Context {Box Chip Labels : Type}.

(** The samples handed to [writer.write_sample], in order. *)
Definition samples_written (t : list (event Box Chip Labels))
  : list (DataSample Box Chip Labels) :=
  flat_map (fun e => match e with EvWriteSample s => [s] | _ => [] end) t.

Definition is_scope (e : event Box Chip Labels) : bool :=
  match e with EvActivate _ | EvDeactivate _ => true | _ => false end.

(** Entering and leaving [scene.activate()]. *)
Definition scopes (t : list (event Box Chip Labels))
  : list (event Box Chip Labels) := filter is_scope t.

(** Events that belong to chipping one scene. *)
Definition is_chipping (e : event Box Chip Labels) : bool :=
  match e with
  | EvActivate _ | EvDeactivate _ | EvGetChip _ | EvWriteSample _ => true
  | _ => false
  end.

(** What was printed, piece by piece and as one text. *)
Definition prints (t : list (event Box Chip Labels)) : list string :=
  flat_map (fun e => match e with EvPrint text => [text] | _ => [] end) t.

Definition printed (t : list (event Box Chip Labels)) : string :=
  fold_right String.append EmptyString (prints t).

Section ChipJobs.
Context {ClassConfig : Type}.
Variable get_split_config :
  DatasetConfig Box Chip Labels ClassConfig -> Z -> Z ->
  DatasetConfig Box Chip Labels ClassConfig.
Variable self : Hooks Box Chip Labels.
Variable config : RVPipelineConfig Box Chip Labels ClassConfig.
Variable tmp_dir : string.

(** The scenes [chip] goes through, each with the split it is chipped for:
    the training scenes of the shard, then its validation scenes. *)
Definition chip_jobs (split_ind num_splits : Z)
  : list (Scene Box Chip Labels * split_name) :=
  let ds := get_split_config (dataset config) split_ind num_splits in
  map (fun s => (build s (class_config ds) tmp_dir, TRAIN)) (train_scenes ds)
  ++ map (fun s => (build s (class_config ds) tmp_dir, VALIDATION))
         (validation_scenes ds).

(** The sample [chip_scene] writes for one window, given its labels. *)
Definition sample_of (scene : Scene Box Chip Labels) (split : split_name)
           (window : Box) (labels : Labels) : DataSample Box Chip Labels :=
  post_process_sample self
    {| sample_chip := get_chip (raster_source scene) window;
       sample_window := window;
       sample_labels := labels;
       sample_scene_id := id scene;
       is_train := split_eqb split TRAIN |}.
End ChipJobs.
End MoreViews.

(** ** The calls of a bundle run *)

(** A call with the local path of a download left out: that path is what
    [download_if_needed] returned and depends on the stores. *)
Definition forget_path (e : fs_event) : fs_event :=
  match e with
  | FsCopy _ dst => FsCopy EmptyString dst
  | _ => e
  end.

Definition is_upload (e : fs_event) : bool :=
  match e with FsUpload _ _ => true | _ => false end.

(** Where files were downloaded from, in order. *)
Definition download_sources (t : list fs_event) : list string :=
  flat_map (fun e => match e with FsDownload uri _ => [uri] | _ => [] end) t.

Section BundleScript.
Context {Box Chip Labels ClassConfig : Type}.
Variable get_local_path : string -> string -> string.
Variable mkdtemp : string -> string.
Variable config : RVPipelineConfig Box Chip Labels ClassConfig.
Variable self_tmp_dir : string.

Definition fetch_script (uri tmp_dir dst : string) : list fs_event :=
  [FsDownload uri tmp_dir; FsCopy EmptyString dst].

(** The calls [bundle] makes between taking the temporary directory and
    cleaning it up, when none of them raises. *)
Definition bundle_script : list fs_event :=
  let tmp_dir := mkdtemp self_tmp_dir in
  let bundle_dir := join tmp_dir "bundle" in
  let model_bundle_uri := get_model_bundle_uri config in
  let model_bundle_path := get_local_path model_bundle_uri self_tmp_dir in
  [FsMakeDir bundle_dir]
  ++ flat_map (fun fn => fetch_script (join (train_uri config) fn) tmp_dir
                                      (join bundle_dir fn))
              (get_bundle_filenames (backend config))
  ++ flat_map (fun a =>
                 flat_map (fun fn => fetch_script (join (analyze_uri config) fn)
                                                  tmp_dir (join bundle_dir fn))
                          (analyzer_bundle_filenames a))
              (analyzers config)
  ++ fetch_script (get_config_uri config) tmp_dir
                  (join bundle_dir "pipeline-config.json")
  ++ [FsZipdir bundle_dir model_bundle_path]
  ++ [FsUpload model_bundle_path model_bundle_uri].

(** Every file name the backend and the analyzers declare. *)
Definition declared_filenames : list string :=
  get_bundle_filenames (backend config)
  ++ flat_map analyzer_bundle_filenames (analyzers config).
End BundleScript.

(** ** Command line: the option that eats all remaining arguments *)

Module OptionEatAll.

(** The state of click's option parser while it walks the command line:
    [rargs] are the arguments not yet consumed. *)
Record ParsingState (R : Type) : Type := {
  rargs : list string;
  others : R
}.
Arguments rargs {R} _.
Arguments others {R} _.

(** [while state.rargs: value = '{} {}'.format(value, state.rargs.pop(0))] *)
Fixpoint eat (value : string) (rargs : list string) : string :=
  match rargs with
  | [] => value
  | arg :: rest => eat (value ++ " " ++ arg) rest
  end.

(** [parser_process], the replacement installed by [add_to_parser];
    [previous] is the option's original [process]. *)
Definition parser_process {R X} (previous : string -> ParsingState R -> X)
           (value : string) (state : ParsingState R) : X :=
  let value := value (* str(value) *) in
  let value := eat value (rargs state) in
  previous value {| rargs := []; others := others state |}.

End OptionEatAll.

(** ** More of the small concrete pipeline *)

Module DemoTask.

(** A task whose training windows are the windows of the scene and whose
    labels for a window are that window. *)
Definition hooks : Hooks Z Z (list Z) :=
  {| get_train_windows := fun scene =>
       Returned (Demo.get_windows (get_extent (raster_source scene)) 0 0);
     get_train_labels := fun window _ => Returned [window];
     post_process_sample := fun sample => sample;
     post_process_batch := fun _ _ labels => labels;
     post_process_predictions := fun labels _ => labels;
     get_predict_windows := fun extent => Demo.get_windows extent 256 256 |}.

(** Stores in which every location can be read. *)
Definition open_download (uri dir : string) (fs : list string)
  : outcome string * list string := (Returned (join dir uri), fs).

Definition run_bundle_with
           (download : string -> string -> list string -> outcome string * list string)
           (zipdir : string -> string -> list string -> outcome unit * list string)
           (config : RVPipelineConfig Z Z (list Z) unit)
  : outcome unit * list string * list fs_event :=
  bundle download Demo.store_copy Demo.store_write zipdir
         (fun _ dst => Demo.store_write dst)
         (fun uri dir => join dir "model-bundle.zip")
         (fun dir => join dir "tmp0")
         config "/tmp" [].

(** A configuration whose backend declares a file by an absolute name. *)
Definition absolute_config : RVPipelineConfig Z Z (list Z) unit :=
  {| dataset := Demo.the_dataset;
     backend := {| model := Demo.detector;
                   get_bundle_filenames := ["/etc/model.pth"]%string |};
     analyzers := [];
     predict_chip_sz := 256;
     predict_batch_sz := 2;
     train_uri := "s3://out/train";
     analyze_uri := "s3://out/analyze";
     get_config_uri := "s3://out/pipeline-config.json";
     get_model_bundle_uri := "s3://out/bundle/model-bundle.zip" |}.

End DemoTask.

(** ** Stores whose answers depend on their content *)

Module DemoStore.

(** The remote locations that hold a file, the local paths that exist, and
    the local paths that cannot be written. *)
Record t : Type := {
  remote : list string;
  local : list string;
  read_only : list string
}.

Definition holds (paths : list string) (path : string) : bool :=
  existsb (String.eqb path) paths.

Definition with_local (paths : list string) (fs : t) : t :=
  {| remote := remote fs; local := paths; read_only := read_only fs |}.

(** A local file is used where it is; a remote one is written below
    [dir]. *)
Definition download_if_needed (uri dir : string) (fs : t) : outcome string * t :=
  let found := if startswith_sep uri then holds (local fs) uri
               else holds (remote fs) uri in
  let path := if startswith_sep uri then uri else join dir uri in
  (if found then Returned path else Raised (IOError uri),
   with_local (if found then path :: local fs else local fs) fs).

(** A file is not copied onto itself, nor from a path that does not exist,
    nor to one that cannot be written. *)
Definition shutil_copy (src dst : string) (fs : t) : outcome unit * t :=
  let ok := (negb (String.eqb src dst) && holds (local fs) src
             && negb (holds (read_only fs) dst))%bool in
  (if ok then Returned tt else Raised (IOError dst),
   with_local (if ok then dst :: local fs else local fs) fs).

Definition make_dir (dir : string) (fs : t) : outcome unit * t :=
  (Returned tt, with_local (dir :: local fs) fs).

Definition zipdir (dir zip_path : string) (fs : t) : outcome unit * t :=
  let ok := (holds (local fs) dir && negb (holds (read_only fs) zip_path))%bool in
  (if ok then Returned tt else Raised (IOError zip_path),
   with_local (if ok then zip_path :: local fs else local fs) fs).

Definition upload_or_copy (src dst : string) (fs : t) : outcome unit * t :=
  let ok := holds (local fs) src in
  (if ok then Returned tt else Raised (IOError src),
   {| remote := if ok then dst :: remote fs else remote fs;
      local := local fs;
      read_only := read_only fs |}).

Definition get_local_path (uri dir : string) : string :=
  join dir "model-bundle.zip".

Definition mkdtemp (dir : string) : string := join dir "tmp0".

Definition run_bundle (config : RVPipelineConfig Z Z (list Z) unit) (fs : t)
  : outcome unit * t * list fs_event :=
  bundle download_if_needed shutil_copy make_dir zipdir upload_or_copy
         get_local_path mkdtemp config "/tmp" fs.

(** Everything [Demo.the_config] needs is there. *)
Definition complete : t :=
  {| remote := ["s3://out/train/model.pth"; "s3://out/train/labels.json";
                "s3://out/pipeline-config.json"]%string;
     local := ["/opt/out/analyze/stats.json"%string];
     read_only := [] |}.

(** The backend's [labels.json] was never written. *)
Definition without_labels : t :=
  {| remote := ["s3://out/train/model.pth";
                "s3://out/pipeline-config.json"]%string;
     local := ["/opt/out/analyze/stats.json"%string];
     read_only := [] |}.

(** The configuration was never written. *)
Definition without_config : t :=
  {| remote := ["s3://out/train/model.pth";
                "s3://out/train/labels.json"]%string;
     local := ["/opt/out/analyze/stats.json"%string];
     read_only := [] |}.

(** The archive cannot be written where it is to go. *)
Definition locked_archive : t :=
  {| remote := remote complete;
     local := local complete;
     read_only := ["/tmp/model-bundle.zip"%string] |}.

End DemoStore.

(** * Properties *)

(** ** Running monadic code *)

Section EffectLaws.
Context {E S : Type}.

Lemma result_of_run {A} (r : outcome A) (s : S) (t : list E) :
  result_of (r, s, t) = r.
Proof. reflexivity. Qed.

Lemma state_of_run {A} (r : outcome A) (s : S) (t : list E) :
  state_of (r, s, t) = s.
Proof. reflexivity. Qed.

Lemma trace_of_run {A} (r : outcome A) (s : S) (t : list E) :
  trace_of (r, s, t) = t.
Proof. reflexivity. Qed.

Lemma bind_run {A B} (m : M E S A) (k : A -> M E S B) s a s1 t1 r s2 t2 :
  m s = (Returned a, s1, t1) ->
  k a s1 = (r, s2, t2) ->
  bind m k s = (r, s2, t1 ++ t2).
Proof. unfold bind. intros -> ->. reflexivity. Qed.

Lemma bind_raise {A B} (m : M E S A) (k : A -> M E S B) s e s1 t1 :
  m s = (Raised e, s1, t1) ->
  bind m k s = (Raised e, s1, t1).
Proof. unfold bind. intros ->. reflexivity. Qed.

Lemma for_each_app {A} (xs ys : list A) (body : A -> M E S unit) s s1 t1 :
  for_each xs body s = (Returned tt, s1, t1) ->
  for_each (xs ++ ys) body s =
  (result_of (for_each ys body s1), state_of (for_each ys body s1),
   t1 ++ trace_of (for_each ys body s1)).
Proof.
  revert s s1 t1. induction xs as [|x xs IH]; intros s s1 t1 H; simpl in *.
  - unfold ret in H. inversion H; subst. simpl.
    destruct (for_each ys body s1) as [[r s2] t2]. reflexivity.
  - unfold bind in *. destruct (body x s) as [[[u|e] s'] t'].
    + destruct (for_each xs body s') as [[r2 s2] t2] eqn:Hxs.
      inversion H; subst. rewrite (IH _ _ _ Hxs).
      now rewrite app_assoc.
    + discriminate.
Qed.
Lemma bind_assoc {A B C} (m : M E S A) (k : A -> M E S B) (h : B -> M E S C) s :
  bind (bind m k) h s = bind m (fun a => bind (k a) h) s.
Proof.
  unfold bind. destruct (m s) as [[[a|e] s1] t1]; [|reflexivity].
  destruct (k a s1) as [[[b|e] s2] t2]; [|reflexivity].
  destruct (h b s2) as [[r s3] t3]. now rewrite app_assoc.
Qed.

Lemma bind_cong {A B} (m : M E S A) (k k' : A -> M E S B) s :
  (forall a s1, k a s1 = k' a s1) -> bind m k s = bind m k' s.
Proof.
  intros Hk. unfold bind.
  destruct (m s) as [[[a|e] s1] t1]; [now rewrite Hk | reflexivity].
Qed.
End EffectLaws.

(** ** predict_scene *)

Section PredictSceneTheory.
Context {Box Chip Labels : Type}.
Variable labels_add : Labels -> Labels -> Labels.
Variable self : Hooks Box Chip Labels.
Variable b : Z.
Variable scene : Scene Box Chip Labels.
Variable bk : Backend Box Chip Labels.

Let frame (acc : Labels) (buf : list Box) : Frame Box Chip Labels :=
  {| labels := acc; batch_chips := chips_of scene buf; batch_windows := buf |}.

Lemma chips_of_length (ws : list Box) : length (chips_of scene ws) = length ws.
Proof. apply length_map. Qed.

Lemma predict_batch_run acc buf :
  predict_batch labels_add self bk (chips_of scene buf) buf (frame acc buf) =
  (Returned tt, frame (batch_step labels_add self scene bk acc buf) buf,
   batch_events self scene bk acc buf).
Proof. reflexivity. Qed.

Lemma predict_window_run w acc buf :
  predict_window labels_add self b scene bk w (frame acc buf) =
  if Z.of_nat (length (buf ++ [w])) >=? b
  then (Returned tt,
        frame (batch_step labels_add self scene bk acc (buf ++ [w])) [],
        EvGetChip w :: batch_events self scene bk acc (buf ++ [w]))
  else (Returned tt, frame acc (buf ++ [w]), [EvGetChip w]).
Proof.
  assert (Hf : append_to_batch (get_chip (raster_source scene) w) w
                 (frame acc buf) = frame acc (buf ++ [w])).
  { unfold append_to_batch, frame, chips_of. simpl. now rewrite map_app. }
  unfold predict_window, bind, emit, modify, get. rewrite Hf.
  cbn [batch_chips batch_windows frame]. rewrite chips_of_length.
  destruct (Z.of_nat (length (buf ++ [w])) >=? b); reflexivity.
Qed.

Lemma chip_reads_app (t1 t2 : list (event Box Chip Labels)) :
  chip_reads (t1 ++ t2) = chip_reads t1 ++ chip_reads t2.
Proof. apply flat_map_app. Qed.

Lemma without_chip_reads_app (t1 t2 : list (event Box Chip Labels)) :
  without_chip_reads (t1 ++ t2) = without_chip_reads t1 ++ without_chip_reads t2.
Proof. apply filter_app. Qed.

Lemma backend_calls_app (t1 t2 : list (event Box Chip Labels)) :
  backend_calls (t1 ++ t2) = backend_calls t1 ++ backend_calls t2.
Proof. apply flat_map_app. Qed.

Lemma labels_view_app (t1 t2 : list (event Box Chip Labels)) :
  labels_view (t1 ++ t2) = labels_view t1 ++ labels_view t2.
Proof. apply filter_app. Qed.

(** The loop over the windows, started with [buf] in the buffer: it cuts
    [buf ++ ws] into the batches [bs] it predicts on and the rest [r] it
    leaves in the buffer. *)
Lemma predict_loop_run (ws : list Box) : forall acc buf,
  exists bs r t,
    for_each ws (predict_window labels_add self b scene bk) (frame acc buf) =
      (Returned tt,
       frame (fold_left (batch_step labels_add self scene bk) bs acc) r, t)
    /\ concat bs ++ r = buf ++ ws
    /\ Forall (fun blk => blk <> []) bs
    /\ chip_reads t = ws
    /\ without_chip_reads t = batches_trace labels_add self scene bk acc bs
    /\ (Z.of_nat (length buf) < b ->
        Forall (fun blk => Z.of_nat (length blk) = b) bs
        /\ Z.of_nat (length r) < b).
Proof.
  induction ws as [|w ws IH]; intros acc buf.
  - exists [], buf, []. simpl. rewrite app_nil_r.
    repeat split; auto.
  - pose proof (predict_window_run w acc buf) as Hw.
    destruct (Z.of_nat (length (buf ++ [w])) >=? b) eqn:Hfull.
    + destruct (IH (batch_step labels_add self scene bk acc (buf ++ [w])) [])
        as (bs & r & t & Hrun & Hcat & Hne & Hreads & Hview & Hsz).
      exists ((buf ++ [w]) :: bs), r,
        ((EvGetChip w :: batch_events self scene bk acc (buf ++ [w])) ++ t).
      split; [|split; [|split; [|split; [|split]]]].
      * simpl for_each. exact (bind_run _ _ _ _ _ _ _ _ _ Hw Hrun).
      * simpl. rewrite <- !app_assoc. simpl. simpl in Hcat. now rewrite Hcat.
      * constructor; [destruct buf; discriminate | exact Hne].
      * rewrite chip_reads_app, Hreads. reflexivity.
      * rewrite without_chip_reads_app, Hview. reflexivity.
      * intros Hbuf. rewrite Z.geb_leb in Hfull. apply Z.leb_le in Hfull.
        rewrite length_app in Hfull. simpl in Hfull.
        destruct Hsz as [Hall Hr]; [simpl; lia|].
        split; [constructor; [rewrite length_app; simpl; lia | exact Hall]
               | exact Hr].
    + destruct (IH acc (buf ++ [w]))
        as (bs & r & t & Hrun & Hcat & Hne & Hreads & Hview & Hsz).
      exists bs, r, ([EvGetChip w] ++ t).
      split; [|split; [|split; [|split; [|split]]]].
      * simpl for_each. exact (bind_run _ _ _ _ _ _ _ _ _ Hw Hrun).
      * rewrite Hcat. now rewrite <- app_assoc.
      * exact Hne.
      * rewrite chip_reads_app, Hreads. reflexivity.
      * rewrite without_chip_reads_app, Hview. reflexivity.
      * intros _. apply Hsz. rewrite Z.geb_leb in Hfull.
        apply Z.leb_gt in Hfull. exact Hfull.
Qed.

(** The whole of [predict_scene]: the batches [bs] predicted on inside the
    loop, the rest [r] flushed after it, and the trace. *)
Lemma predict_scene_run :
  let ws := get_predict_windows self (get_extent (raster_source scene)) in
  let empty := empty_labels (prediction_label_store scene) in
  exists bs r t_loop,
    let acc := fold_left (batch_step labels_add self scene bk) bs empty in
    let final := match r with
                 | [] => acc
                 | _ :: _ => batch_step labels_add self scene bk acc r
                 end in
    (forall S (st : S),
       predict_scene labels_add self b scene bk st =
         (Returned (post_process_predictions self final scene), st,
          EvPredictScene scene bk :: t_loop ++
          EvPrint newline ::
          match r with
          | [] => []
          | _ :: _ => batch_events self scene bk acc r
          end ++ [EvPostProcessPredictions final scene]))
    /\ concat bs ++ r = ws
    /\ Forall (fun blk => blk <> []) bs
    /\ chip_reads t_loop = ws
    /\ without_chip_reads t_loop = batches_trace labels_add self scene bk empty bs
    /\ (1 <= b ->
        Forall (fun blk => Z.of_nat (length blk) = b) bs
        /\ Z.of_nat (length r) < b).
Proof.
  intros ws empty.
  destruct (predict_loop_run ws empty [])
    as (bs & r & t & Hrun & Hcat & Hne & Hreads & Hview & Hsz).
  exists bs, r, t.
  split; [|split; [|split; [|split; [|split]]]]; auto.
  - intros S st. unfold predict_scene, call, predict_scene_body.
    unfold bind at 1. unfold emit at 1.
    unfold bind at 1. fold ws.
    change {| labels := empty_labels (prediction_label_store scene);
              batch_chips := []; batch_windows := [] |}
      with (frame empty []).
    rewrite Hrun.
    destruct r as [|w r]; reflexivity.
  - intros Hb. apply Hsz. simpl. lia.
Qed.

Lemma backend_calls_without_chip_reads (t : list (event Box Chip Labels)) :
  backend_calls (without_chip_reads t) = backend_calls t.
Proof.
  induction t as [|e t IH]; [reflexivity|].
  destruct e; simpl; rewrite ?IH; reflexivity.
Qed.

Lemma labels_view_without_chip_reads (t : list (event Box Chip Labels)) :
  labels_view (without_chip_reads t) = labels_view t.
Proof.
  induction t as [|e t IH]; [reflexivity|].
  destruct e; simpl; rewrite ?IH; try reflexivity;
    unfold labels_view in *; simpl; now rewrite IH.
Qed.

Lemma backend_calls_batches acc (bs : list (list Box)) :
  backend_calls (batches_trace labels_add self scene bk acc bs) =
  map (fun ws => (bk, chips_of scene ws, ws)) bs.
Proof.
  revert acc. induction bs as [|blk bs IH]; intros acc; [reflexivity|].
  simpl. now rewrite IH.
Qed.

Lemma labels_view_batches acc (bs : list (list Box)) :
  labels_view (batches_trace labels_add self scene bk acc bs) =
  hooks_trace labels_add self scene bk acc bs.
Proof.
  revert acc. induction bs as [|blk bs IH]; intros acc; [reflexivity|].
  simpl. unfold labels_view in *. simpl. now rewrite IH.
Qed.

Lemma chip_reads_batches acc (bs : list (list Box)) :
  chip_reads (batches_trace labels_add self scene bk acc bs) = [].
Proof.
  revert acc. induction bs as [|blk bs IH]; intros acc; [reflexivity|].
  simpl. now rewrite IH.
Qed.

Lemma hooks_trace_app acc (bs bs' : list (list Box)) :
  hooks_trace labels_add self scene bk acc (bs ++ bs') =
  hooks_trace labels_add self scene bk acc bs ++
  hooks_trace labels_add self scene bk
    (fold_left (batch_step labels_add self scene bk) bs acc) bs'.
Proof.
  revert acc. induction bs as [|blk bs IH]; intros acc; [reflexivity|].
  simpl. now rewrite IH.
Qed.

Lemma final_hook_calls_labels_view (t : list (event Box Chip Labels)) :
  final_hook_calls (labels_view t) = final_hook_calls t.
Proof.
  induction t as [|e t IH]; [reflexivity|].
  destruct e; simpl; rewrite ?IH; try reflexivity;
    unfold labels_view in *; simpl; now rewrite IH.
Qed.

Lemma final_hook_calls_hooks_trace acc (bs : list (list Box)) :
  final_hook_calls (hooks_trace labels_add self scene bk acc bs) = [].
Proof.
  revert acc. induction bs as [|blk bs IH]; intros acc; [reflexivity|].
  simpl. apply IH.
Qed.

(** [predict_scene] in terms of the batches it predicts on: [bs] inside the
    loop, then the flushed rest of the buffer. *)
Lemma predict_scene_summary :
  let ws := get_predict_windows self (get_extent (raster_source scene)) in
  let empty := empty_labels (prediction_label_store scene) in
  exists bs r t_loop t_flush,
    let merged :=
      fold_left (batch_step labels_add self scene bk) (bs ++ flushed r) empty in
    (forall S (st : S),
       predict_scene labels_add self b scene bk st =
         (Returned (post_process_predictions self merged scene), st,
          EvPredictScene scene bk :: t_loop ++ EvPrint newline :: t_flush ++
          [EvPostProcessPredictions merged scene]))
    /\ concat (bs ++ flushed r) = ws
    /\ Forall (fun blk => blk <> []) (bs ++ flushed r)
    /\ (chip_reads t_loop = ws /\ chip_reads t_flush = [])
    /\ (backend_calls t_loop = map (fun ws => (bk, chips_of scene ws, ws)) bs
        /\ backend_calls t_flush =
           map (fun ws => (bk, chips_of scene ws, ws)) (flushed r))
    /\ (labels_view t_loop = hooks_trace labels_add self scene bk empty bs
        /\ labels_view t_flush =
           hooks_trace labels_add self scene bk
             (fold_left (batch_step labels_add self scene bk) bs empty)
             (flushed r))
    /\ (1 <= b ->
        Forall (fun blk => Z.of_nat (length blk) = b) bs
        /\ Z.of_nat (length r) < b).
Proof.
  intros ws empty.
  destruct predict_scene_run
    as (bs & r & t_loop & Hrun & Hcat & Hne & Hreads & Hview & Hsz).
  fold ws in Hcat, Hreads. fold empty in Hrun, Hview.
  exists bs, r, t_loop,
    (batches_trace labels_add self scene bk
       (fold_left (batch_step labels_add self scene bk) bs empty) (flushed r)).
  split; [|split; [|split; [|split; [|split; [|split]]]]].
  - intros S st. rewrite (Hrun S st). rewrite fold_left_app.
    destruct r; simpl; rewrite ?app_nil_r; reflexivity.
  - rewrite concat_app, <- Hcat. destruct r; simpl; now rewrite ?app_nil_r.
  - apply Forall_app. split; [exact Hne|].
    destruct r; simpl; constructor; [discriminate | constructor].
  - split; [exact Hreads | apply chip_reads_batches].
  - split; [|apply backend_calls_batches].
    now rewrite <- backend_calls_without_chip_reads, Hview, backend_calls_batches.
  - split; [|apply labels_view_batches].
    now rewrite <- labels_view_without_chip_reads, Hview, labels_view_batches.
  - exact Hsz.
Qed.

Lemma batches_trace_internal acc (bs : list (list Box)) :
  Forall (fun e => is_scene_internal e = true)
         (batches_trace labels_add self scene bk acc bs).
Proof.
  revert acc. induction bs as [|blk bs IH]; intros acc; simpl.
  - constructor.
  - repeat constructor. apply IH.
Qed.

(** [predict_scene] always returns, leaves the caller's state alone, and its
    trace is its entry followed by internal events only. *)
Lemma predict_scene_shape :
  exists l t,
    (forall S (st : S),
       predict_scene labels_add self b scene bk st =
       (Returned l, st, EvPredictScene scene bk :: t))
    /\ Forall (fun e => is_scene_internal e = true) t.
Proof.
  destruct predict_scene_run
    as (bs & r & t_loop & Hrun & _ & _ & _ & Hview & _).
  eexists. eexists. split; [exact Hrun|].
  apply Forall_app. split.
  - apply Forall_forall. intros e Hin.
    destruct (is_chip_read e) eqn:He.
    + destruct e; try discriminate. reflexivity.
    + assert (Hin' : In e (without_chip_reads t_loop)).
      { apply filter_In. split; [exact Hin | now rewrite He]. }
      rewrite Hview in Hin'.
      exact (proj1 (Forall_forall _ _) (batches_trace_internal _ _) e Hin').
  - constructor; [reflexivity|]. apply Forall_app. split.
    + destruct r; [constructor|]. repeat constructor.
    + repeat constructor.
Qed.

End PredictSceneTheory.

Section PredictSceneClaims.
Context {Box Chip Labels : Type}.
Variable labels_add : Labels -> Labels -> Labels.
Variable self : Hooks Box Chip Labels.
Variable scene : Scene Box Chip Labels.
Variable bk : Backend Box Chip Labels.

Let windows := get_predict_windows self (get_extent (raster_source scene)).
Let empty := empty_labels (prediction_label_store scene).

(** C9. With no prediction window, [predict_scene] makes no call of the
    backend's [predict] and returns [post_process_predictions] of the empty
    labels of the scene's prediction label store. *)
Theorem predict_scene_no_windows (b : Z) (S : Type) (st : S) :
  windows = [] ->
  let run := predict_scene labels_add self b scene bk st in
  backend_calls (trace_of run) = []
  /\ result_of run = Returned (post_process_predictions self empty scene).
Proof.
  intros Hw run. subst run.
  destruct (predict_scene_summary labels_add self b scene bk)
    as (bs & r & t_loop & t_flush & Hrun & Hcat & Hne & _ & [Hc1 Hc2] & _).
  fold windows in Hcat. rewrite Hw in Hcat.
  assert (Hnil : bs ++ flushed r = []).
  { destruct (bs ++ flushed r) as [|blk rest]; [reflexivity|].
    inversion Hne as [|? ? Hblk _]; subst. simpl in Hcat.
    destruct blk; [now elim Hblk | discriminate]. }
  apply app_eq_nil in Hnil. destruct Hnil as [-> Hr].
  rewrite (Hrun S st). unfold trace_of, result_of. simpl.
  rewrite !backend_calls_app. simpl. rewrite !backend_calls_app.
  rewrite Hc1, Hc2, Hr. simpl. split; reflexivity.
Qed.

(** C3. The batches [predict_scene] calls the backend on are non-empty
    blocks that, put end to end, are the scene's prediction windows: every
    window is predicted on, once, in order.  In the trace, each of these
    calls of the backend is followed by [post_process_batch] on the raw
    labels it returned, and what is merged into the accumulator is the
    result of that hook; [post_process_predictions] is called exactly once,
    after all of that, on the labels merged from the empty labels of the
    scene's store over every batch, and its result is what [predict_scene]
    returns. *)
Theorem predict_scene_hooks (b : Z) (S : Type) (st : S) :
  let run := predict_scene labels_add self b scene bk st in
  let batches := map call_windows (backend_calls (trace_of run)) in
  let merged := fold_left (batch_step labels_add self scene bk) batches empty in
  concat batches = windows
  /\ Forall (fun blk => blk <> []) batches
  /\ labels_view (trace_of run) =
    hooks_trace labels_add self scene bk empty batches ++
    [EvPostProcessPredictions merged scene]
  /\ final_hook_calls (trace_of run) = [(merged, scene)]
  /\ result_of run = Returned (post_process_predictions self merged scene).
Proof.
  intros run batches merged. subst merged batches run.
  destruct (predict_scene_summary labels_add self b scene bk)
    as (bs & r & t_loop & t_flush & Hrun & Hcat & Hne & _ & [Hc1 Hc2]
        & [Hv1 Hv2] & _).
  rewrite (Hrun S st). rewrite !trace_of_run, result_of_run.
  set (merged := fold_left (batch_step labels_add self scene bk)
                   (bs ++ flushed r)
                   (empty_labels (prediction_label_store scene))).
  set (t := EvPredictScene scene bk :: t_loop ++ EvPrint newline :: t_flush ++
            [EvPostProcessPredictions merged scene]).
  assert (Ht : t = [EvPredictScene scene bk] ++ t_loop ++
                   [EvPrint newline] ++ t_flush ++
                   [EvPostProcessPredictions merged scene]) by reflexivity.
  assert (Hcalls : map call_windows (backend_calls t) = bs ++ flushed r).
  { rewrite Ht, !backend_calls_app, Hc1, Hc2. simpl.
    rewrite app_nil_r, map_app, !map_map. simpl. now rewrite !map_id. }
  assert (Hview : labels_view t =
                  hooks_trace labels_add self scene bk empty (bs ++ flushed r)
                  ++ [EvPostProcessPredictions merged scene]).
  { rewrite Ht, !labels_view_app, Hv1, Hv2, hooks_trace_app. simpl.
    now rewrite <- app_assoc. }
  rewrite Hcalls. fold merged.
  split; [exact Hcat|]. split; [exact Hne|].
  split; [exact Hview|]. split; [|reflexivity].
  rewrite <- final_hook_calls_labels_view, Hview.
  unfold final_hook_calls at 1. rewrite flat_map_app.
  fold (final_hook_calls
          (hooks_trace labels_add self scene bk empty (bs ++ flushed r))).
  now rewrite final_hook_calls_hooks_trace.
Qed.

Lemma concat_length_uniform (b : Z) (bs : list (list Box)) :
  Forall (fun blk => Z.of_nat (length blk) = b) bs ->
  Z.of_nat (length (concat bs)) = Z.of_nat (length bs) * b.
Proof.
  induction 1 as [|blk bs Hblk _ IH]; [reflexivity|].
  cbn [concat length]. rewrite length_app, Nat2Z.inj_add, Nat2Z.inj_succ. lia.
Qed.

Lemma ceil_div (b k m : Z) :
  1 <= b -> 0 <= m < b ->
  (k * b + m + b - 1) / b = k + (if m =? 0 then 0 else 1).
Proof.
  intros Hb Hm. destruct (Z.eqb_spec m 0) as [->|Hm0].
  - symmetry. apply Z.div_unique_pos with (r := b - 1); lia.
  - symmetry. apply Z.div_unique_pos with (r := m - 1); lia.
Qed.

(** C2. With batch size [b >= 1] and [n] windows, the backend's [predict] is
    called [ceil(n/b)] times; the batches are consecutive blocks of the
    window sequence, in order, so that every window is in exactly one batch,
    each with the chips of its windows; the loop makes [n / b] calls of
    size [b], and after the last window has been read one more call is made
    on the [n mod b] remaining windows exactly when that number is not zero.
    With [n = 5] and [b = 2] the sizes are 2, 2, 1. *)
Theorem predict_scene_batches (b : Z) (S : Type) (st : S) :
  1 <= b ->
  let n := Z.of_nat (length windows) in
  let t := trace_of (predict_scene labels_add self b scene bk st) in
  let calls := backend_calls t in
  Z.of_nat (length calls) = (n + b - 1) / b
  /\ concat (map call_windows calls) = windows
  /\ Forall (fun c => c = (bk, chips_of scene (call_windows c), call_windows c))
            calls
  /\ (exists t_loop t_flush,
        t = EvPredictScene scene bk :: t_loop ++ EvPrint newline :: t_flush
        /\ chip_reads t_loop = windows
        /\ chip_reads t_flush = []
        /\ backend_calls t_loop ++ backend_calls t_flush = calls
        /\ Z.of_nat (length (backend_calls t_loop)) = n / b
        /\ Forall (fun c => Z.of_nat (length (call_windows c)) = b)
                  (backend_calls t_loop)
        /\ map (fun c => Z.of_nat (length (call_windows c)))
               (backend_calls t_flush) =
           (if n mod b =? 0 then [] else [n mod b]))
  /\ (n = 5 -> b = 2 ->
      map (fun c => length (call_windows c)) calls = [2; 2; 1]%nat).
Proof.
  intros Hb n t calls.
  destruct (predict_scene_summary labels_add self b scene bk)
    as (bs & r & t_loop & t_flush & Hrun & Hcat & _ & [Hr1 Hr2] & [Hc1 Hc2]
        & _ & Hsz).
  destruct (Hsz Hb) as [Hall Hr]. clear Hsz.
  fold windows in Hcat, Hr1.
  set (call_of := fun ws : list Box => (bk, chips_of scene ws, ws)) in *.
  set (merged := fold_left (batch_step labels_add self scene bk)
                   (bs ++ flushed r)
                   (empty_labels (prediction_label_store scene))) in *.
  assert (Ht : t = [EvPredictScene scene bk] ++ t_loop ++
                   [EvPrint newline] ++ t_flush ++
                   [EvPostProcessPredictions merged scene]).
  { subst t. rewrite (Hrun S st). reflexivity. }
  assert (Hcalls : calls = map call_of (bs ++ flushed r)).
  { subst calls. rewrite Ht, !backend_calls_app, Hc1, Hc2. simpl.
    now rewrite app_nil_r, map_app. }
  assert (Hwin : map call_windows calls = bs ++ flushed r).
  { rewrite Hcalls, map_map. apply map_id. }
  assert (Hn : n = Z.of_nat (length bs) * b + Z.of_nat (length r)).
  { subst n. rewrite <- Hcat, concat_app, length_app, Nat2Z.inj_add.
    rewrite (concat_length_uniform b bs Hall).
    destruct r; simpl; rewrite ?app_nil_r; lia. }
  assert (Hdiv : n / b = Z.of_nat (length bs)).
  { symmetry. apply Z.div_unique_pos with (r := Z.of_nat (length r)); lia. }
  assert (Hmod : n mod b = Z.of_nat (length r)).
  { symmetry. apply Z.mod_unique_pos with (q := Z.of_nat (length bs)); lia. }
  assert (Hflush : map (fun c => Z.of_nat (length (call_windows c)))
                       (map call_of (flushed r)) =
                   (if n mod b =? 0 then [] else [n mod b])).
  { rewrite Hmod. destruct r; [reflexivity|]. simpl length.
    destruct (Z.eqb_spec (Z.of_nat (Datatypes.S (length r))) 0); [lia|].
    reflexivity. }
  split; [|split; [|split; [|split]]].
  - rewrite Hcalls, length_map, length_app, Nat2Z.inj_add.
    replace (n + b - 1) with (Z.of_nat (length bs) * b + Z.of_nat (length r) + b - 1)
      by lia.
    rewrite ceil_div by lia.
    destruct r; simpl; [lia|].
    destruct (Z.eqb_spec (Z.pos (Pos.of_succ_nat (length r))) 0); lia.
  - now rewrite Hwin.
  - rewrite Hcalls. apply Forall_forall. intros c Hin.
    apply in_map_iff in Hin. destruct Hin as (ws & <- & _). reflexivity.
  - exists t_loop, (t_flush ++ [EvPostProcessPredictions merged scene]).
    split; [exact Ht|]. split; [exact Hr1|].
    split; [rewrite chip_reads_app, Hr2; reflexivity|].
    rewrite backend_calls_app, Hc1, Hc2. simpl. rewrite app_nil_r.
    split; [now rewrite Hcalls, map_app|].
    split; [now rewrite length_map, Hdiv|].
    split; [|exact Hflush].
    apply Forall_forall. intros c Hin. apply in_map_iff in Hin.
    destruct Hin as (ws & <- & Hin). simpl.
    rewrite Forall_forall in Hall. now apply Hall.
  - intros Hn5 Hb2. rewrite Hcalls, map_map. simpl.
    rewrite Hn5, Hb2 in Hdiv, Hmod. change (5 / 2) with 2 in Hdiv.
    change (5 mod 2) with 1 in Hmod. rewrite map_app.
    destruct bs as [|b1 [|b2 [|b3 bs]]]; simpl in Hdiv; try lia.
    inversion Hall as [|? ? H1 Hall']; subst.
    inversion Hall' as [|? ? H2 _]; subst.
    destruct r as [|w [|w' r]]; simpl in Hmod; try lia.
    simpl. f_equal; [lia|]. f_equal. lia.
Qed.

Section Additive.
Hypothesis labels_add_assoc :
  forall x y z, labels_add (labels_add x y) z = labels_add x (labels_add y z).
Hypothesis post_process_batch_id :
  forall ws cs l, post_process_batch self ws cs l = l.
(** The backend treats the windows of a batch independently of the batch
    they arrive in. *)
Hypothesis backend_additive :
  forall ws1 ws2, ws1 <> [] -> ws2 <> [] ->
    backend_predict bk (chips_of scene (ws1 ++ ws2)) (ws1 ++ ws2) =
    labels_add (backend_predict bk (chips_of scene ws1) ws1)
               (backend_predict bk (chips_of scene ws2) ws2).

Lemma fold_batches_additive (bs : list (list Box)) : forall blk acc,
  Forall (fun blk => blk <> []) (blk :: bs) ->
  fold_left (batch_step labels_add self scene bk) (blk :: bs) acc =
  labels_add acc
    (backend_predict bk (chips_of scene (concat (blk :: bs)))
                     (concat (blk :: bs))).
Proof.
  induction bs as [|blk2 rest IH]; intros blk acc Hne.
  - simpl. unfold batch_step. rewrite post_process_batch_id.
    now rewrite app_nil_r.
  - inversion Hne as [|? ? Hblk Hrest]; subst.
    change (fold_left (batch_step labels_add self scene bk)
              (blk :: blk2 :: rest) acc)
      with (fold_left (batch_step labels_add self scene bk) (blk2 :: rest)
              (batch_step labels_add self scene bk acc blk)).
    rewrite (IH blk2 _ Hrest). unfold batch_step at 1.
    rewrite post_process_batch_id, labels_add_assoc.
    change (concat (blk :: blk2 :: rest)) with (blk ++ concat (blk2 :: rest)).
    rewrite backend_additive; [reflexivity | exact Hblk |].
    inversion Hrest; subst. simpl. destruct blk2; [contradiction | discriminate].
Qed.

Lemma predict_scene_merged (b : Z) (S : Type) (st : S) :
  result_of (predict_scene labels_add self b scene bk st) =
  Returned
    (post_process_predictions self
       match windows with
       | [] => empty
       | _ :: _ =>
           labels_add empty (backend_predict bk (chips_of scene windows) windows)
       end scene).
Proof.
  destruct (predict_scene_summary labels_add self b scene bk)
    as (bs & r & t_loop & t_flush & Hrun & Hcat & Hne & _).
  fold windows in Hcat. rewrite (Hrun S st). unfold result_of. simpl fst.
  destruct (bs ++ flushed r) as [|blk rest] eqn:Hall.
  - simpl in Hcat. rewrite <- Hcat. reflexivity.
  - rewrite (fold_batches_additive rest blk _ Hne), Hcat.
    destruct windows as [|w ws] eqn:Hw; [|reflexivity].
    inversion Hne as [|? ? Hblk _]; subst. simpl in Hcat.
    destruct blk; [contradiction | discriminate].
Qed.
End Additive.

(** C1, amended.  Let the merge be associative, [post_process_batch] the
    identity, and the backend's prediction for two batches put end to end
    the merge of its predictions for each.  Then for every batch size
    [b >= 1]: when there is at least one window, [predict_scene] returns the
    labels of one backend call on a single batch of all windows; and for
    every window sequence it returns the same labels as with any other batch
    size [b' >= 1]. *)
Theorem batch_size_unobservable (b : Z) (S : Type) (st : S) :
  (forall x y z, labels_add (labels_add x y) z = labels_add x (labels_add y z)) ->
  (forall ws cs l, post_process_batch self ws cs l = l) ->
  (forall ws1 ws2, ws1 <> [] -> ws2 <> [] ->
     backend_predict bk (chips_of scene (ws1 ++ ws2)) (ws1 ++ ws2) =
     labels_add (backend_predict bk (chips_of scene ws1) ws1)
                (backend_predict bk (chips_of scene ws2) ws2)) ->
  1 <= b ->
  (windows <> [] ->
   result_of (predict_scene labels_add self b scene bk st) =
   Returned (single_batch_labels labels_add self scene bk))
  /\ (forall b', 1 <= b' ->
      result_of (predict_scene labels_add self b' scene bk st) =
      result_of (predict_scene labels_add self b scene bk st)).
Proof.
  intros Hassoc Hid Hadd Hb. split.
  - intros Hne. rewrite (predict_scene_merged Hassoc Hid Hadd b S st).
    unfold single_batch_labels, batch_step. fold windows. rewrite Hid.
    destruct windows; [contradiction | reflexivity].
  - intros b' _.
    now rewrite !(predict_scene_merged Hassoc Hid Hadd).
Qed.

End PredictSceneClaims.

(** ** The predict and chip commands *)

Section CommandTheory.
Context {Box Chip Labels ClassConfig : Type}.
Variable labels_add : Labels -> Labels -> Labels.
Variable get_split_config :
  DatasetConfig Box Chip Labels ClassConfig -> Z -> Z ->
  DatasetConfig Box Chip Labels ClassConfig.
Variable self : Hooks Box Chip Labels.
Variable config : RVPipelineConfig Box Chip Labels ClassConfig.
Variable tmp_dir : string.

Let b := predict_batch_sz config.
Let built (s : SceneConfig Box Chip Labels ClassConfig) : Scene Box Chip Labels :=
  build s (class_config (dataset config)) tmp_dir.
Let segment (bk : Backend Box Chip Labels) (scene : Scene Box Chip Labels) :=
  scene_events labels_add self scene bk b.

Lemma _predict_run (bk : Backend Box Chip Labels) (scenes : list (Scene Box Chip Labels))
      (rt : Runtime Box Chip Labels) :
  self_backend rt = Some bk ->
  _predict labels_add self config scenes rt =
  (Returned tt, rt, flat_map (segment bk) scenes).
Proof.
  intros Hbk. induction scenes as [|scene scenes IH]; [reflexivity|].
  change (flat_map (segment bk) (scene :: scenes))
    with (segment bk scene ++ flat_map (segment bk) scenes).
  unfold _predict in *. cbn [for_each].
  apply bind_run with (a := tt) (s1 := rt); [|exact IH].
  destruct (predict_scene_shape labels_add self b scene bk) as (l & t & Hrun & _).
  unfold with_, bind, get. rewrite Hbk. fold b.
  unfold segment, scene_events. rewrite (Hrun _ rt), (Hrun _ tt).
  unfold trace_of, result_of. simpl. now rewrite <- app_assoc.
Qed.

Lemma segment_returns bk scene :
  exists l, result_of (predict_scene labels_add self b scene bk tt) = Returned l.
Proof.
  destruct (predict_scene_shape labels_add self b scene bk) as (l & t & Hrun & _).
  exists l. now rewrite (Hrun _ tt).
Qed.

Lemma segment_views bk scene :
  builds (segment bk scene) = []
  /\ loads (segment bk scene) = []
  /\ scene_calls (segment bk scene) = [(scene, bk)]
  /\ forallb (fun e => negb (is_setup e)) (segment bk scene) = true.
Proof.
  destruct (predict_scene_shape labels_add self b scene bk)
    as (l & t & Hrun & Hint).
  unfold segment, scene_events. rewrite (Hrun _ tt).
  unfold trace_of, result_of. simpl fst. simpl snd.
  assert (Hb : builds t = [] /\ loads t = [] /\ scene_calls t = []
               /\ forallb (fun e => negb (is_setup e)) t = true).
  { clear Hrun. induction Hint as [|e t He _ IH]; [now repeat split|].
    destruct IH as (H1 & H2 & H3 & H4).
    destruct e; try discriminate; simpl; now rewrite ?H1, ?H2, ?H3, ?H4. }
  destruct Hb as (H1 & H2 & H3 & H4).
  unfold builds, loads, scene_calls in *. simpl.
  rewrite !flat_map_app, forallb_app; simpl.
  now rewrite H1, H2, H3, H4.
Qed.

Lemma segments_views bk scenes :
  builds (flat_map (segment bk) scenes) = []
  /\ loads (flat_map (segment bk) scenes) = []
  /\ scene_calls (flat_map (segment bk) scenes) = map (fun s => (s, bk)) scenes
  /\ forallb (fun e => negb (is_setup e)) (flat_map (segment bk) scenes) = true.
Proof.
  induction scenes as [|scene scenes (H1 & H2 & H3 & H4)]; [now repeat split|].
  destruct (segment_views bk scene) as (G1 & G2 & G3 & G4).
  change (flat_map (segment bk) (scene :: scenes))
    with (segment bk scene ++ flat_map (segment bk) scenes).
  unfold builds, loads, scene_calls in *.
  rewrite !flat_map_app, forallb_app.
  now rewrite H1, H2, H3, H4, G1, G2, G3, G4.
Qed.

(** The backend object [config.backend.build] returns in state [rt]. *)
Let fresh (rt : Runtime Box Chip Labels) : Backend Box Chip Labels :=
  {| backend_id := objects rt; backend_predict := model (backend config) |}.

(** [predict] in full, for either state of [self.backend]. *)
Lemma predict_run (split_ind num_splits : Z) (rt : Runtime Box Chip Labels) :
  let ds := get_split_config (dataset config) split_ind num_splits in
  let vals := map built (validation_scenes ds) in
  let tests := map built (test_scenes ds) in
  predict labels_add get_split_config self config tmp_dir split_ind num_splits rt =
  match self_backend rt with
  | Some bk =>
      (Returned tt, rt,
       flat_map (segment bk) vals ++ flat_map (segment bk) tests)
  | None =>
      (Returned tt,
       {| self_backend := Some (fresh rt); objects := S (objects rt) |},
       [EvBuildBackend (fresh rt); EvLoadModel (fresh rt)] ++
       flat_map (segment (fresh rt)) vals ++
       flat_map (segment (fresh rt)) tests)
  end.
Proof.
  intros ds vals tests. unfold predict. fold ds. fold built. fold vals. fold tests.
  assert (Htests : forall bk rt',
    self_backend rt' = Some bk ->
    (if truthy (test_scenes ds) then _predict labels_add self config tests
     else ret tt) rt' =
    (Returned tt, rt', flat_map (segment bk) tests)).
  { intros bk rt' Hbk. subst tests.
    destruct (test_scenes ds) eqn:Hts; [reflexivity|].
    simpl truthy. cbv iota. now apply _predict_run. }
  assert (Hscenes : forall bk rt',
    self_backend rt' = Some bk ->
    (_predict labels_add self config vals ;;
     if truthy (test_scenes ds) then _predict labels_add self config tests
     else ret tt) rt' =
    (Returned tt, rt',
     flat_map (segment bk) vals ++ flat_map (segment bk) tests)).
  { intros bk rt' Hbk.
    eapply bind_run; [now apply _predict_run | now apply Htests]. }
  unfold bind at 1. unfold get at 1. cbv beta iota.
  destruct (self_backend rt) as [bk|] eqn:Hbk.
  - unfold bind at 1. unfold ret at 1. cbv beta iota.
    now rewrite (Hscenes bk rt Hbk).
  - unfold bind at 1.
    change ((b0 <- backend_build config ;;
             modify (set_self_backend (Some b0)) ;; load_model b0) rt)
      with (Returned tt,
            {| self_backend := Some (fresh rt); objects := S (objects rt) |},
            [EvBuildBackend (fresh rt); EvLoadModel (fresh rt)]).
    cbv beta iota.
    now rewrite (Hscenes (fresh rt)
                   {| self_backend := Some (fresh rt); objects := S (objects rt) |}
                   eq_refl).
Qed.

(** [predict] summarized: the backend [bk] in [self.backend] afterwards, the
    [setup] events and the events [rest] of the scenes. *)
Lemma predict_summary (split_ind num_splits : Z) (rt : Runtime Box Chip Labels) :
  let ds := get_split_config (dataset config) split_ind num_splits in
  let vals := map built (validation_scenes ds) in
  let tests := map built (test_scenes ds) in
  exists bk rt' setup rest,
    predict labels_add get_split_config self config tmp_dir
            split_ind num_splits rt = (Returned tt, rt', setup ++ rest)
    /\ self_backend rt' = Some bk
    /\ (self_backend rt = Some bk /\ setup = []
        \/ self_backend rt = None
           /\ setup = [EvBuildBackend bk; EvLoadModel bk])
    /\ rest = flat_map (segment bk) vals ++ flat_map (segment bk) tests
    /\ builds rest = []
    /\ loads rest = []
    /\ scene_calls rest = map (fun scene => (scene, bk)) (vals ++ tests)
    /\ forallb (fun e => negb (is_setup e)) rest = true.
Proof.
  intros ds vals tests.
  rewrite (predict_run split_ind num_splits rt). fold ds vals tests.
  assert (Hviews : forall bk,
    let rest := flat_map (segment bk) vals ++ flat_map (segment bk) tests in
    builds rest = [] /\ loads rest = []
    /\ scene_calls rest = map (fun scene => (scene, bk)) (vals ++ tests)
    /\ forallb (fun e => negb (is_setup e)) rest = true).
  { intros bk rest. subst rest.
    destruct (segments_views bk vals) as (H1 & H2 & H3 & H4).
    destruct (segments_views bk tests) as (G1 & G2 & G3 & G4).
    unfold builds, loads, scene_calls in *.
    rewrite !flat_map_app, forallb_app, map_app.
    now rewrite H1, H2, H3, H4, G1, G2, G3, G4. }
  destruct (self_backend rt) as [bk|] eqn:Hbk.
  - destruct (Hviews bk) as (H1 & H2 & H3 & H4).
    exists bk, rt, [],
      (flat_map (segment bk) vals ++ flat_map (segment bk) tests).
    repeat split; auto.
  - destruct (Hviews (fresh rt)) as (H1 & H2 & H3 & H4).
    exists (fresh rt),
      {| self_backend := Some (fresh rt); objects := S (objects rt) |},
      [EvBuildBackend (fresh rt); EvLoadModel (fresh rt)],
      (flat_map (segment (fresh rt)) vals ++ flat_map (segment (fresh rt)) tests).
    repeat split; auto.
Qed.

Lemma builds_app (t1 t2 : list (event Box Chip Labels)) :
  builds (t1 ++ t2) = builds t1 ++ builds t2.
Proof. apply flat_map_app. Qed.

Lemma loads_app (t1 t2 : list (event Box Chip Labels)) :
  loads (t1 ++ t2) = loads t1 ++ loads t2.
Proof. apply flat_map_app. Qed.

Lemma scene_calls_app (t1 t2 : list (event Box Chip Labels)) :
  scene_calls (t1 ++ t2) = scene_calls t1 ++ scene_calls t2.
Proof. apply flat_map_app. Qed.

(** C4. The trace of [predict] is: setting up the backend, if needed; then
    for every validation scene of the shard's subset, in order, activation,
    [predict_scene], saving the labels [predict_scene] returned to that
    scene's prediction label store, deactivation; then the same for every
    test scene of the subset, in order (nothing when there is none). *)
Theorem predict_processes_scenes (split_ind num_splits : Z)
        (rt : Runtime Box Chip Labels) :
  let ds := get_split_config (dataset config) split_ind num_splits in
  let vals := map built (validation_scenes ds) in
  let tests := map built (test_scenes ds) in
  let run := predict labels_add get_split_config self config tmp_dir
                     split_ind num_splits rt in
  exists bk setup,
    self_backend (state_of run) = Some bk
    /\ result_of run = Returned tt
    /\ forallb is_setup setup = true
    /\ trace_of run =
         setup
         ++ flat_map (fun scene => scene_events labels_add self scene bk b) vals
         ++ flat_map (fun scene => scene_events labels_add self scene bk b) tests
    /\ Forall (fun scene =>
                 exists l,
                   result_of (predict_scene labels_add self b scene bk tt) =
                   Returned l) (vals ++ tests).
Proof.
  intros ds vals tests run. subst run.
  destruct (predict_summary split_ind num_splits rt)
    as (bk & rt' & setup & rest & Hrun & Hst & Hsetup & Hrest & _).
  fold ds vals tests in Hrest. rewrite Hrun.
  exists bk, setup. unfold state_of, result_of, trace_of. simpl fst. simpl snd.
  split; [exact Hst|]. split; [reflexivity|]. split.
  - destruct Hsetup as [[_ ->]|[_ ->]]; reflexivity.
  - split; [now rewrite Hrest|].
    apply Forall_forall. intros scene _. apply segment_returns.
Qed.

(** C5. In one run of [predict], a backend is built at most once and
    [load_model] is called at most once, both before anything is done with a
    scene, and every call of [predict_scene], one per validation scene and
    then one per test scene, is given the backend held in [self.backend]. *)
Theorem predict_backend_once (split_ind num_splits : Z)
        (rt : Runtime Box Chip Labels) :
  let ds := get_split_config (dataset config) split_ind num_splits in
  let vals := map built (validation_scenes ds) in
  let tests := map built (test_scenes ds) in
  let run := predict labels_add get_split_config self config tmp_dir
                     split_ind num_splits rt in
  exists bk,
    self_backend (state_of run) = Some bk
    /\ (length (builds (trace_of run)) <= 1)%nat
    /\ (length (loads (trace_of run)) <= 1)%nat
    /\ (exists setup rest,
          trace_of run = setup ++ rest
          /\ forallb is_setup setup = true
          /\ forallb (fun e => negb (is_setup e)) rest = true)
    /\ scene_calls (trace_of run) = map (fun scene => (scene, bk)) (vals ++ tests).
Proof.
  intros ds vals tests run. subst run.
  destruct (predict_summary split_ind num_splits rt)
    as (bk & rt' & setup & rest & Hrun & Hst & Hsetup & _ & Hb & Hl & Hc & Hns).
  fold ds vals tests in Hc. rewrite Hrun.
  exists bk. unfold state_of, trace_of. simpl fst. simpl snd.
  rewrite builds_app, loads_app, scene_calls_app, Hb, Hl, Hc.
  split; [exact Hst|].
  destruct Hsetup as [[_ ->]|[_ ->]]; simpl;
    (split; [lia|]); (split; [lia|]); (split; [|reflexivity]).
  - exists [], rest. now repeat split.
  - exists [EvBuildBackend bk; EvLoadModel bk], rest. now repeat split.
Qed.

(** C10. In two successive runs of [predict] on one pipeline object, the
    second builds no backend and loads no model: it is given, for every
    scene, the backend the first run left in [self.backend]; and when the
    object came fresh from [__init__], the first run built and loaded
    exactly that backend. *)
Theorem predict_backend_cached (split_ind1 num_splits1 split_ind2 num_splits2 : Z)
        (rt : Runtime Box Chip Labels) :
  let run1 := predict labels_add get_split_config self config tmp_dir
                      split_ind1 num_splits1 rt in
  let run2 := predict labels_add get_split_config self config tmp_dir
                      split_ind2 num_splits2 (state_of run1) in
  exists bk,
    self_backend (state_of run1) = Some bk
    /\ self_backend (state_of run2) = Some bk
    /\ builds (trace_of run2) = []
    /\ loads (trace_of run2) = []
    /\ Forall (fun c => snd c = bk)
              (scene_calls (trace_of run1) ++ scene_calls (trace_of run2))
    /\ (self_backend rt = None ->
        builds (trace_of run1) = [bk] /\ loads (trace_of run1) = [bk]).
Proof.
  intros run1 run2. subst run2 run1.
  destruct (predict_summary split_ind1 num_splits1 rt)
    as (bk & rt1 & setup1 & rest1 & Hrun1 & Hst1 & Hsetup1 & _
        & Hb1 & Hl1 & Hc1 & _).
  rewrite Hrun1.
  change (state_of (Returned tt, rt1, setup1 ++ rest1)) with rt1.
  destruct (predict_summary split_ind2 num_splits2 rt1)
    as (bk2 & rt2 & setup2 & rest2 & Hrun2 & Hst2 & Hsetup2 & _
        & Hb2 & Hl2 & Hc2 & _).
  rewrite Hrun2. unfold state_of, trace_of. simpl fst. simpl snd.
  destruct Hsetup2 as [[Hsame ->]|[Hnone _]]; [|congruence].
  assert (bk2 = bk) by congruence. subst bk2.
  exists bk. simpl app.
  rewrite builds_app, loads_app, scene_calls_app, Hb1, Hl1, Hc1, Hb2, Hl2, Hc2.
  split; [exact Hst1|]. split; [exact Hst2|].
  split; [reflexivity|]. split; [reflexivity|]. split.
  - assert (Hsetup_calls : scene_calls setup1 = []).
    { destruct Hsetup1 as [[_ ->]|[_ ->]]; reflexivity. }
    rewrite Hsetup_calls. apply Forall_app. split;
      apply Forall_forall; intros c Hin; apply in_map_iff in Hin;
      destruct Hin as (scene & <- & _); reflexivity.
  - intros Hnone. destruct Hsetup1 as [[Hsome _]|[_ ->]]; [congruence|].
    split; reflexivity.
Qed.

(** C6. When the shard's subset has no training scene and no validation
    scene, [chip] returns normally; the only call it has made is building
    the backend: no sample writer was acquired and no sample written. *)
Theorem chip_empty_shard (split_ind num_splits : Z)
        (rt : Runtime Box Chip Labels) :
  let ds := get_split_config (dataset config) split_ind num_splits in
  let run := chip get_split_config self config tmp_dir split_ind num_splits rt in
  train_scenes ds = [] ->
  validation_scenes ds = [] ->
  result_of run = Returned tt
  /\ trace_of run = [EvBuildBackend (fresh rt)]
  /\ filter is_sample_writing (trace_of run) = []
  /\ self_backend (state_of run) = self_backend rt.
Proof.
  intros ds run Htrain Hval. subst run. unfold chip.
  fold ds. rewrite Htrain, Hval. repeat split; reflexivity.
Qed.

End CommandTheory.

(** ** bundle *)

Section Paths.

Lemma append_assoc (a b c : string) :
  ((a ++ b) ++ c)%string = (a ++ (b ++ c))%string.
Proof. induction a as [|ch a IH]; simpl; [reflexivity | now rewrite IH]. Qed.

Lemma append_nil_r (a : string) : (a ++ "")%string = a.
Proof. induction a as [|ch a IH]; simpl; [reflexivity | now rewrite IH]. Qed.

Lemma endswith_sep_app (a b : string) :
  b <> EmptyString -> endswith_sep (a ++ b) = endswith_sep b.
Proof.
  intros Hb. induction a as [|c a IH]; [reflexivity|].
  simpl. rewrite <- IH.
  destruct (a ++ b)%string eqn:Hab; [|reflexivity].
  destruct a; simpl in Hab; [contradiction | discriminate].
Qed.

Lemma prefix_append (a b : string) : String.prefix a (a ++ b) = true.
Proof.
  induction a as [|c a IH]; simpl; [now destruct b|].
  destruct (ascii_dec c c); [exact IH | contradiction].
Qed.

Lemma join_absolute (a fn : string) : startswith_sep fn = true -> join a fn = fn.
Proof. intros H. unfold join. now rewrite H. Qed.

(** A relative name joined to the staging directory is below it. *)
Lemma join_staging (tmp fn : string) :
  startswith_sep fn = false ->
  join (join tmp "bundle") fn = (join tmp "bundle" ++ "/" ++ fn)%string.
Proof.
  intros Hfn. unfold join at 1. rewrite Hfn.
  assert (Hdir : exists a, join tmp "bundle" = (a ++ "bundle")%string).
  { unfold join. simpl startswith_sep. cbv iota.
    destruct (String.eqb tmp "" || endswith_sep tmp)%bool.
    - now exists tmp.
    - exists (tmp ++ "/")%string. now rewrite append_assoc. }
  destruct Hdir as (a & Ha).
  assert (Hne : String.eqb (join tmp "bundle") "" = false).
  { rewrite Ha. apply String.eqb_neq. destruct a; discriminate. }
  assert (Hend : endswith_sep (join tmp "bundle") = false).
  { rewrite Ha, endswith_sep_app by discriminate. reflexivity. }
  now rewrite Hne, Hend.
Qed.

Lemma staging_prefix (tmp fn : string) :
  startswith_sep fn = false ->
  String.prefix (join tmp "bundle" ++ "/") (join (join tmp "bundle") fn) = true.
Proof.
  intros Hfn. rewrite (join_staging tmp fn Hfn).
  rewrite <- append_assoc. apply prefix_append.
Qed.

End Paths.

Section BundleTheory.
Context {Box Chip Labels ClassConfig FS : Type}.
Variable download_if_needed : string -> string -> FS -> outcome string * FS.
Variable shutil_copy : string -> string -> FS -> outcome unit * FS.
Variable make_dir : string -> FS -> outcome unit * FS.
Variable zipdir : string -> string -> FS -> outcome unit * FS.
Variable upload_or_copy : string -> string -> FS -> outcome unit * FS.
Variable get_local_path : string -> string -> string.
Variable mkdtemp : string -> string.
Variable config : RVPipelineConfig Box Chip Labels ClassConfig.
Variable self_tmp_dir : string.

Let fetch_ := fetch download_if_needed shutil_copy.
Let returns_ :=
  call_returns download_if_needed shutil_copy make_dir zipdir upload_or_copy.
Let raises_ :=
  call_raises download_if_needed shutil_copy make_dir zipdir upload_or_copy.
Let all_return :=
  calls_return download_if_needed shutil_copy make_dir zipdir upload_or_copy.

Lemma archive_events_app (t1 t2 : list fs_event) :
  archive_events (t1 ++ t2) = archive_events t1 ++ archive_events t2.
Proof. apply filter_app. Qed.

Lemma copy_destinations_app (t1 t2 : list fs_event) :
  copy_destinations (t1 ++ t2) = copy_destinations t1 ++ copy_destinations t2.
Proof. apply flat_map_app. Qed.

Lemma no_archive_no_upload (t : list fs_event) :
  archive_events t = [] -> filter is_upload t = [].
Proof.
  induction t as [|e t IH]; [reflexivity|].
  destruct e; simpl; try exact IH; discriminate.
Qed.

(** *** Sequences of steps that return *)

Lemma calls_return_app cs1 cs2 fs fs1 fs2 t1 t2 :
  all_return cs1 fs fs1 t1 -> all_return cs2 fs1 fs2 t2 ->
  all_return (cs1 ++ cs2) fs fs2 (t1 ++ t2).
Proof.
  intros H1 H2. induction H1 as [|c cs fs fa fb ta tb Hc Hcs IH]; [exact H2|].
  simpl. rewrite <- app_assoc. econstructor; [exact Hc | now apply IH].
Qed.

Lemma calls_return_one c fs fs1 t :
  returns_ c fs fs1 t -> all_return [c] fs fs1 t.
Proof.
  intros H. rewrite <- (app_nil_r t). econstructor; [exact H | constructor].
Qed.

Lemma calls_return_each cs fs fs1 t c :
  all_return cs fs fs1 t -> In c cs ->
  exists s s1 t1, returns_ c s s1 t1.
Proof.
  intros H. induction H as [|c' cs fs fa fb ta tb Hc Hcs IH]; [contradiction|].
  intros [->|Hin]; [now exists fs, fa, ta | now apply IH].
Qed.

Lemma staging_call_keeps (P : FS -> Prop) c fs fs1 t :
  kept_by_staging download_if_needed shutil_copy make_dir P ->
  is_archive_call c = false ->
  returns_ c fs fs1 t -> P fs -> P fs1.
Proof.
  intros (Hmk & Hdl & Hcp) Hc H Hfs.
  destruct H as [dir fs fa H | uri dir dst fs path fa fb Hd Hc' | |];
    try discriminate.
  - specialize (Hmk dir fs Hfs). now rewrite H in Hmk.
  - specialize (Hdl uri dir fs Hfs). rewrite Hd in Hdl.
    specialize (Hcp path dst fa Hdl). now rewrite Hc' in Hcp.
Qed.

(** While the steps are staging steps, a property they keep holds before
    each of them, and after the last. *)
Lemma calls_return_keep (P : FS -> Prop) cs fs fs1 t :
  kept_by_staging download_if_needed shutil_copy make_dir P ->
  Forall (fun c => is_archive_call c = false) cs ->
  all_return cs fs fs1 t -> P fs ->
  P fs1 /\ forall c, In c cs -> exists s s1 t1, P s /\ returns_ c s s1 t1.
Proof.
  intros Hkept Hcs H. induction H as [|c cs fs fa fb ta tb Hc Hrest IH].
  - intros Hfs. split; [exact Hfs | contradiction].
  - intros Hfs. inversion Hcs as [|? ? Hq Hqs]; subst.
    pose proof (staging_call_keeps P c fs fa ta Hkept Hq Hc Hfs) as Hfa.
    destruct (IH Hqs Hfa) as [Hfb Heach]. split; [exact Hfb|].
    intros c' [<-|Hin]; [now exists fs, fa, ta | now apply Heach].
Qed.

Lemma returns_quiet c fs fs1 t :
  is_archive_call c = false -> returns_ c fs fs1 t -> archive_events t = [].
Proof. intros Hc H. destruct H; try discriminate; reflexivity. Qed.

Lemma raises_quiet c fs e fs1 t :
  is_archive_call c = false -> raises_ c fs e fs1 t -> archive_events t = [].
Proof. intros Hc H. destruct H; try discriminate; reflexivity. Qed.

Lemma calls_return_quiet cs fs fs1 t :
  Forall (fun c => is_archive_call c = false) cs ->
  all_return cs fs fs1 t -> archive_events t = [].
Proof.
  intros Hcs H. induction H as [|c cs fs fa fb ta tb Hc Hrest IH];
    [reflexivity|].
  inversion Hcs as [|? ? Hq Hqs]; subst.
  now rewrite archive_events_app, (returns_quiet _ _ _ _ Hq Hc), (IH Hqs).
Qed.

Lemma calls_return_copies cs fs fs1 t :
  all_return cs fs fs1 t -> copy_destinations t = call_destinations cs.
Proof.
  intros H. induction H as [|c cs fs fa fb ta tb Hc Hrest IH]; [reflexivity|].
  rewrite copy_destinations_app, IH. unfold call_destinations at 2.
  cbn [flat_map]. fold (call_destinations cs). f_equal.
  destruct Hc; reflexivity.
Qed.

(** *** The code makes the steps in order and stops at the first that raises *)

(** [m] makes the steps [cs]: either all of them return and so does [m], or
    one of them raises after those before it returned, no later one is
    tried, and [m] raises what it raised. *)
Let runs (m : M fs_event FS unit) (cs : list bundle_call) : Prop :=
  forall fs,
    (exists fs1 t, all_return cs fs fs1 t /\ m fs = (Returned tt, fs1, t))
    \/ (exists done c rest fs1 t1 e fs2 t2,
          cs = done ++ c :: rest
          /\ all_return done fs fs1 t1
          /\ raises_ c fs1 e fs2 t2
          /\ m fs = (Raised e, fs2, t1 ++ t2)).

Lemma runs_bind (m k : M fs_event FS unit) cs1 cs2 :
  runs m cs1 -> runs k cs2 -> runs (m ;; k) (cs1 ++ cs2).
Proof.
  intros Hm Hk fs.
  destruct (Hm fs) as [(fs1 & t1 & Hc1 & Hrun1)
                      |(done & c & rest & fs1 & t1 & e & fs2 & t2
                        & Hcs & Hdone & Hraise & Hrun1)].
  - destruct (Hk fs1) as [(fs2 & t2 & Hc2 & Hrun2)
                         |(done & c & rest & fs2 & t2 & e & fs3 & t3
                           & Hcs & Hdone & Hraise & Hrun2)].
    + left. exists fs2, (t1 ++ t2).
      split; [now apply calls_return_app with (fs1 := fs1)|].
      exact (bind_run _ _ _ _ _ _ _ _ _ Hrun1 Hrun2).
    + right. exists (cs1 ++ done), c, rest, fs2, (t1 ++ t2), e, fs3, t3.
      split; [now rewrite Hcs, app_assoc|].
      split; [now apply calls_return_app with (fs1 := fs1)|].
      split; [exact Hraise|].
      rewrite <- app_assoc. exact (bind_run _ _ _ _ _ _ _ _ _ Hrun1 Hrun2).
  - right. exists done, c, (rest ++ cs2), fs1, t1, e, fs2, t2.
    split; [now rewrite Hcs, <- app_assoc|].
    split; [exact Hdone|]. split; [exact Hraise|].
    exact (bind_raise _ _ _ _ _ _ Hrun1).
Qed.

Lemma runs_nil : runs (ret tt) [].
Proof. intros fs. left. exists fs, []. split; [constructor | reflexivity]. Qed.

Lemma runs_for_each {A} (xs : list A) (body : A -> M fs_event FS unit)
      (cs : A -> list bundle_call) :
  (forall x, runs (body x) (cs x)) ->
  runs (for_each xs body) (flat_map cs xs).
Proof.
  intros Hbody. induction xs as [|x xs IH]; [exact runs_nil|].
  simpl. apply runs_bind; [apply Hbody | exact IH].
Qed.

Lemma runs_step (m : M fs_event FS unit) c :
  (forall fs,
     (exists fs1 t, returns_ c fs fs1 t /\ m fs = (Returned tt, fs1, t))
     \/ (exists e fs1 t, raises_ c fs e fs1 t /\ m fs = (Raised e, fs1, t))) ->
  runs m [c].
Proof.
  intros H fs. destruct (H fs) as [(fs1 & t & Hc & Hrun)|(e & fs1 & t & Hc & Hrun)].
  - left. exists fs1, t. split; [now apply calls_return_one | exact Hrun].
  - right. exists [], c, [], fs, [], e, fs1, t.
    split; [reflexivity|]. split; [constructor|]. split; [exact Hc | exact Hrun].
Qed.

Lemma runs_make_dir dir :
  runs (syscall (FsMakeDir dir) (make_dir dir)) [CallMakeDir dir].
Proof.
  apply runs_step. intros fs. unfold syscall.
  destruct (make_dir dir fs) as [[[]|e] fs1] eqn:H.
  - left. exists fs1, [FsMakeDir dir]. split; [now constructor | reflexivity].
  - right. exists e, fs1, [FsMakeDir dir]. split; [now constructor | reflexivity].
Qed.

Lemma runs_zipdir dir zip_path :
  runs (syscall (FsZipdir dir zip_path) (zipdir dir zip_path))
       [CallZipdir dir zip_path].
Proof.
  apply runs_step. intros fs. unfold syscall.
  destruct (zipdir dir zip_path fs) as [[[]|e] fs1] eqn:H.
  - left. exists fs1, [FsZipdir dir zip_path].
    split; [now constructor | reflexivity].
  - right. exists e, fs1, [FsZipdir dir zip_path].
    split; [now constructor | reflexivity].
Qed.

Lemma runs_upload src dst :
  runs (syscall (FsUpload src dst) (upload_or_copy src dst)) [CallUpload src dst].
Proof.
  apply runs_step. intros fs. unfold syscall.
  destruct (upload_or_copy src dst fs) as [[[]|e] fs1] eqn:H.
  - left. exists fs1, [FsUpload src dst]. split; [now constructor | reflexivity].
  - right. exists e, fs1, [FsUpload src dst].
    split; [now constructor | reflexivity].
Qed.

Lemma runs_fetch uri dir dst :
  runs (fetch_ uri dir dst) [CallFetch uri dir dst].
Proof.
  apply runs_step. intros fs. unfold fetch_, fetch, bind, syscall.
  destruct (download_if_needed uri dir fs) as [[path|e] fs1] eqn:Hd.
  - destruct (shutil_copy path dst fs1) as [[[]|e] fs2] eqn:Hc.
    + left. exists fs2, [FsDownload uri dir; FsCopy path dst].
      split; [now apply fetch_returns with (fs1 := fs1) | reflexivity].
    + right. exists e, fs2, [FsDownload uri dir; FsCopy path dst].
      split; [now apply copy_raises with (fs1 := fs1) | reflexivity].
  - right. exists e, fs1, [FsDownload uri dir].
    split; [now apply download_raises | reflexivity].
Qed.

Lemma flat_map_singleton {A B} (f : A -> B) (xs : list A) :
  flat_map (fun x => [f x]) xs = map f xs.
Proof. induction xs as [|x xs IH]; simpl; [reflexivity | now rewrite IH]. Qed.

Lemma runs_fetch_calls base dir bundle_dir (filenames : list string) :
  runs (for_each filenames (fun fn =>
          fetch_ (join base fn) dir (join bundle_dir fn)))
       (fetch_calls base dir bundle_dir filenames).
Proof.
  unfold fetch_calls. rewrite <- flat_map_singleton.
  apply runs_for_each. intros fn. apply runs_fetch.
Qed.

Let tmp := mkdtemp self_tmp_dir.
Let bundle_dir := join tmp "bundle".
Let zip_path := get_local_path (get_model_bundle_uri config) self_tmp_dir.
Let the_staging_calls := staging_calls mkdtemp config self_tmp_dir.
Let the_archive_calls := archive_calls get_local_path mkdtemp config self_tmp_dir.

(** The statements of [bundle] that fill the staging directory, and those
    that write and upload the archive. *)
Let staging_body : M fs_event FS unit :=
  syscall (FsMakeDir bundle_dir) (make_dir bundle_dir) ;;
  for_each (get_bundle_filenames (backend config)) (fun fn =>
    fetch_ (join (train_uri config) fn) tmp (join bundle_dir fn)) ;;
  for_each (analyzers config) (fun a =>
    for_each (analyzer_bundle_filenames a) (fun fn =>
      fetch_ (join (analyze_uri config) fn) tmp (join bundle_dir fn))) ;;
  fetch_ (get_config_uri config) tmp (join bundle_dir "pipeline-config.json").

Let archive_body : M fs_event FS unit :=
  syscall (FsZipdir bundle_dir zip_path) (zipdir bundle_dir zip_path) ;;
  syscall (FsUpload zip_path (get_model_bundle_uri config))
          (upload_or_copy zip_path (get_model_bundle_uri config)).

Let run (fs : FS) :=
  bundle download_if_needed shutil_copy make_dir zipdir upload_or_copy
         get_local_path mkdtemp config self_tmp_dir fs.

Lemma bundle_unfold fs :
  run fs =
  (result_of ((staging_body ;; archive_body) fs),
   state_of ((staging_body ;; archive_body) fs),
   FsTemporaryDirectory tmp :: trace_of ((staging_body ;; archive_body) fs)
   ++ [FsCleanup tmp]).
Proof.
  assert (Hbody :
    (syscall (FsMakeDir bundle_dir) (make_dir bundle_dir) ;;
     for_each (get_bundle_filenames (backend config)) (fun fn =>
       fetch_ (join (train_uri config) fn) tmp (join bundle_dir fn)) ;;
     for_each (analyzers config) (fun a =>
       for_each (analyzer_bundle_filenames a) (fun fn =>
         fetch_ (join (analyze_uri config) fn) tmp (join bundle_dir fn))) ;;
     fetch_ (get_config_uri config) tmp (join bundle_dir "pipeline-config.json") ;;
     archive_body) fs = (staging_body ;; archive_body) fs).
  { unfold staging_body. rewrite bind_assoc. apply bind_cong. intros _ s1.
    rewrite bind_assoc. apply bind_cong. intros _ s2.
    rewrite bind_assoc. reflexivity. }
  rewrite <- Hbody. unfold run, bundle, with_.
  fold tmp bundle_dir zip_path fetch_. fold archive_body.
  match goal with |- context [match ?b fs with _ => _ end] =>
    destruct (b fs) as [[r s1] t1] end.
  reflexivity.
Qed.

Lemma staging_runs : runs staging_body the_staging_calls.
Proof.
  unfold staging_body, the_staging_calls, staging_calls. fold tmp bundle_dir.
  apply runs_bind; [apply runs_make_dir|].
  apply runs_bind; [apply runs_fetch_calls|].
  apply runs_bind; [|apply runs_fetch].
  apply runs_for_each. intros a. apply runs_fetch_calls.
Qed.

Lemma archive_runs : runs archive_body the_archive_calls.
Proof.
  unfold archive_body, the_archive_calls, archive_calls.
  fold tmp bundle_dir zip_path.
  change [CallZipdir bundle_dir zip_path;
          CallUpload zip_path (get_model_bundle_uri config)]
    with ([CallZipdir bundle_dir zip_path] ++
          [CallUpload zip_path (get_model_bundle_uri config)]).
  apply runs_bind; [apply runs_zipdir | apply runs_upload].
Qed.

(** Every run of [bundle]: between taking the temporary directory and
    cleaning it up, the steps are made in order until one raises. *)
Lemma bundle_run_cases fs :
  let calls := bundle_calls get_local_path mkdtemp config self_tmp_dir in
  (exists fs1 t,
     all_return calls fs fs1 t
     /\ run fs = (Returned tt, fs1,
                  FsTemporaryDirectory tmp :: t ++ [FsCleanup tmp]))
  \/ (exists done c rest fs1 t1 e fs2 t2,
        calls = done ++ c :: rest
        /\ all_return done fs fs1 t1
        /\ raises_ c fs1 e fs2 t2
        /\ run fs = (Raised e, fs2,
                     FsTemporaryDirectory tmp :: (t1 ++ t2) ++ [FsCleanup tmp])).
Proof.
  intros calls. rewrite bundle_unfold.
  destruct (runs_bind _ _ _ _ staging_runs archive_runs fs)
    as [(fs1 & t & Hc & Hrun)
       |(done & c & rest & fs1 & t1 & e & fs2 & t2 & Hcs & Hdone & Hraise & Hrun)];
    rewrite Hrun, result_of_run, state_of_run, trace_of_run.
  - left. now exists fs1, t.
  - right. now exists done, c, rest, fs1, t1, e, fs2, t2.
Qed.

(** The same, up to the archive: the staging steps all return and the
    archive statements run on the stores they leave, or a staging step
    raises and that is the end. *)
Lemma bundle_staging_cases fs :
  (exists fs1 t,
     all_return the_staging_calls fs fs1 t
     /\ run fs = (result_of (archive_body fs1), state_of (archive_body fs1),
                  FsTemporaryDirectory tmp ::
                  (t ++ trace_of (archive_body fs1)) ++ [FsCleanup tmp]))
  \/ (exists done c rest fs1 t1 e fs2 t2,
        the_staging_calls = done ++ c :: rest
        /\ all_return done fs fs1 t1
        /\ raises_ c fs1 e fs2 t2
        /\ run fs = (Raised e, fs2,
                     FsTemporaryDirectory tmp :: (t1 ++ t2) ++ [FsCleanup tmp])).
Proof.
  rewrite bundle_unfold.
  destruct (staging_runs fs)
    as [(fs1 & t & Hc & Hrun)
       |(done & c & rest & fs1 & t1 & e & fs2 & t2 & Hcs & Hdone & Hraise & Hrun)].
  - left. exists fs1, t. split; [exact Hc|].
    unfold bind. rewrite Hrun.
    destruct (archive_body fs1) as [[r s2] t2]. reflexivity.
  - right. exists done, c, rest, fs1, t1, e, fs2, t2.
    split; [exact Hcs|]. split; [exact Hdone|]. split; [exact Hraise|].
    now rewrite (bind_raise _ _ _ _ _ _ Hrun).
Qed.

Lemma staging_calls_quiet :
  Forall (fun c => is_archive_call c = false) the_staging_calls.
Proof.
  unfold the_staging_calls, staging_calls, fetch_calls.
  apply Forall_app. split; [now repeat constructor|].
  apply Forall_app. split.
  { apply Forall_forall. intros c Hin. apply in_map_iff in Hin.
    now destruct Hin as (fn & <- & _). }
  apply Forall_app. split; [|now repeat constructor].
  apply Forall_forall. intros c Hin. apply in_flat_map in Hin.
  destruct Hin as (a & _ & Hin). apply in_map_iff in Hin.
  now destruct Hin as (fn & <- & _).
Qed.

Lemma staging_calls_destinations :
  call_destinations the_staging_calls = staged_files mkdtemp config self_tmp_dir.
Proof.
  unfold the_staging_calls, staging_calls, staged_files, call_destinations,
    fetch_calls.
  fold tmp bundle_dir. rewrite !flat_map_app. simpl.
  assert (Hfiles : forall base (fns : list string),
    flat_map (fun c => match c with CallFetch _ _ dst => [dst] | _ => [] end)
      (map (fun fn => CallFetch (join base fn) tmp (join bundle_dir fn)) fns) =
    map (join bundle_dir) fns).
  { intros base fns. induction fns as [|fn fns IH]; [reflexivity|].
    simpl. now rewrite IH. }
  rewrite Hfiles. f_equal.
  f_equal. induction (analyzers config) as [|a l IH]; [reflexivity|].
  simpl. now rewrite flat_map_app, Hfiles, IH.
Qed.

Lemma wrap_archive_events (t : list fs_event) :
  archive_events (FsTemporaryDirectory tmp :: t ++ [FsCleanup tmp]) =
  archive_events t.
Proof.
  change (FsTemporaryDirectory tmp :: t ++ [FsCleanup tmp])
    with ([FsTemporaryDirectory tmp] ++ t ++ [FsCleanup tmp]).
  rewrite !archive_events_app. simpl. now rewrite app_nil_r.
Qed.

Lemma prefix_quiet cs done c rest :
  Forall (fun c => is_archive_call c = false) cs ->
  cs = done ++ c :: rest ->
  Forall (fun c => is_archive_call c = false) done /\ is_archive_call c = false.
Proof.
  intros H ->. apply Forall_app in H. destruct H as [Hd Hc].
  split; [exact Hd | now inversion Hc].
Qed.

(** A staging step that cannot return while [P] holds: [bundle] raises and
    has made no archive call. *)
Lemma staging_step_fails (P : FS -> Prop) c0 fs :
  P fs ->
  kept_by_staging download_if_needed shutil_copy make_dir P ->
  In c0 the_staging_calls ->
  (forall s s1 t, P s -> ~ returns_ c0 s s1 t) ->
  returned (result_of (run fs)) = false
  /\ archive_events (trace_of (run fs)) = [].
Proof.
  intros Hfs Hkept Hin Hfail.
  destruct (bundle_staging_cases fs)
    as [(fs1 & t & Hc & Hrun)
       |(done & c & rest & fs1 & t1 & e & fs2 & t2 & Hcs & Hdone & Hraise & Hrun)].
  - destruct (calls_return_keep P _ _ _ _ Hkept staging_calls_quiet Hc Hfs)
      as [_ Heach].
    destruct (Heach c0 Hin) as (s & s1 & t1 & Hs & Hret).
    now elim (Hfail s s1 t1 Hs).
  - rewrite Hrun, result_of_run, trace_of_run. split; [reflexivity|].
    destruct (prefix_quiet _ _ _ _ staging_calls_quiet Hcs) as [Hd Hq].
    rewrite wrap_archive_events, archive_events_app.
    now rewrite (calls_return_quiet _ _ _ _ Hd Hdone),
                (raises_quiet _ _ _ _ _ Hq Hraise).
Qed.

Lemma unretrievable_fails (P : FS -> Prop) uri dir dst :
  unretrievable download_if_needed shutil_copy P uri dir dst ->
  forall s s1 t, P s -> ~ returns_ (CallFetch uri dir dst) s s1 t.
Proof.
  intros Hun s s1 t Hs H. inversion H as [|? ? ? ? path fa fb Hd Hc| |]; subst.
  specialize (Hun s Hs path fa Hd). now rewrite Hc in Hun.
Qed.

(** [zipdir] raising while [P] holds: [bundle] raises and uploads nothing. *)
Lemma zipdir_fails (P : FS -> Prop) fs :
  P fs ->
  kept_by_staging download_if_needed shutil_copy make_dir P ->
  (forall s, P s -> returned (fst (zipdir bundle_dir zip_path s)) = false) ->
  returned (result_of (run fs)) = false
  /\ filter is_upload (trace_of (run fs)) = [].
Proof.
  intros Hfs Hkept Hzip.
  destruct (bundle_staging_cases fs)
    as [(fs1 & t & Hc & Hrun)
       |(done & c & rest & fs1 & t1 & e & fs2 & t2 & Hcs & Hdone & Hraise & Hrun)];
    rewrite Hrun, result_of_run, trace_of_run.
  - destruct (calls_return_keep P _ _ _ _ Hkept staging_calls_quiet Hc Hfs)
      as [Hfs1 _].
    specialize (Hzip fs1 Hfs1).
    pose proof (calls_return_quiet _ _ _ _ staging_calls_quiet Hc) as Hq.
    unfold archive_body, bind, syscall.
    destruct (zipdir bundle_dir zip_path fs1) as [[u|e] fs2]; [discriminate|].
    rewrite result_of_run, trace_of_run. split; [reflexivity|].
    simpl. rewrite !filter_app. simpl.
    now rewrite (no_archive_no_upload _ Hq).
  - split; [reflexivity|]. apply no_archive_no_upload.
    destruct (prefix_quiet _ _ _ _ staging_calls_quiet Hcs) as [Hd Hq].
    rewrite wrap_archive_events, archive_events_app.
    now rewrite (calls_return_quiet _ _ _ _ Hd Hdone),
                (raises_quiet _ _ _ _ _ Hq Hraise).
Qed.

(** When [zipdir] is called, every staging step has returned. *)
Lemma bundle_reaches_zipdir fs :
  archive_events (trace_of (run fs)) <> [] ->
  exists fs1 staging rest,
    all_return the_staging_calls fs fs1 staging
    /\ trace_of (run fs) =
       FsTemporaryDirectory tmp :: staging ++
       FsZipdir bundle_dir zip_path :: rest.
Proof.
  intros Harch.
  destruct (bundle_staging_cases fs)
    as [(fs1 & t & Hc & Hrun)
       |(done & c & rest & fs1 & t1 & e & fs2 & t2 & Hcs & Hdone & Hraise & Hrun)];
    rewrite Hrun, trace_of_run in *.
  - exists fs1, t. unfold archive_body, bind, syscall.
    destruct (zipdir bundle_dir zip_path fs1) as [[u|e] fs2].
    + destruct (upload_or_copy zip_path (get_model_bundle_uri config) fs2)
        as [r fs3].
      rewrite trace_of_run. eexists. split; [exact Hc|].
      rewrite <- app_assoc. reflexivity.
    + rewrite trace_of_run. eexists. split; [exact Hc|].
      rewrite <- app_assoc. reflexivity.
  - exfalso. apply Harch.
    destruct (prefix_quiet _ _ _ _ staging_calls_quiet Hcs) as [Hd Hq].
    rewrite wrap_archive_events, archive_events_app.
    now rewrite (calls_return_quiet _ _ _ _ Hd Hdone),
                (raises_quiet _ _ _ _ _ Hq Hraise).
Qed.

(** Where the staged files go: below the staging directory, unless the name
    a file is declared under is absolute. *)
Lemma staged_files_places :
  Forall (fun dst =>
            String.prefix (bundle_dir ++ "/") dst = true
            \/ (In dst (declared_filenames config)
                /\ startswith_sep dst = true))
         (staged_files mkdtemp config self_tmp_dir).
Proof.
  assert (Hone : forall fn, In fn (declared_filenames config) ->
            String.prefix (bundle_dir ++ "/") (join bundle_dir fn) = true
            \/ (In (join bundle_dir fn) (declared_filenames config)
                /\ startswith_sep (join bundle_dir fn) = true)).
  { intros fn Hin. destruct (startswith_sep fn) eqn:Hfn.
    - right. rewrite (join_absolute bundle_dir fn Hfn). now split.
    - left. now apply staging_prefix. }
  unfold staged_files, declared_filenames in *. fold tmp bundle_dir.
  apply Forall_app. split.
  { apply Forall_forall. intros dst Hin. apply in_map_iff in Hin.
    destruct Hin as (fn & <- & Hin). apply Hone, in_or_app. now left. }
  apply Forall_app. split.
  { apply Forall_forall. intros dst Hin. apply in_flat_map in Hin.
    destruct Hin as (a & Ha & Hin). apply in_map_iff in Hin.
    destruct Hin as (fn & <- & Hin). apply Hone, in_or_app. right.
    apply in_flat_map. now exists a. }
  constructor; [|constructor]. left. now apply staging_prefix.
Qed.

(** A file declared under an absolute name is fetched from that name and
    copied onto it. *)
Lemma absolute_name_call fn :
  In fn (declared_filenames config) -> startswith_sep fn = true ->
  In (CallFetch fn tmp fn) the_staging_calls.
Proof.
  intros Hin Habs. unfold the_staging_calls, staging_calls, fetch_calls.
  fold tmp bundle_dir. unfold declared_filenames in Hin.
  apply in_or_app. right. apply in_app_or in Hin. destruct Hin as [Hin|Hin].
  - apply in_or_app. left. apply in_map_iff. exists fn.
    now rewrite !(join_absolute _ fn Habs).
  - apply in_or_app. right. apply in_or_app. left.
    apply in_flat_map in Hin. destruct Hin as (a & Ha & Hin).
    apply in_flat_map. exists a. split; [exact Ha|].
    apply in_map_iff. exists fn. now rewrite !(join_absolute _ fn Habs).
Qed.


End BundleTheory.

(** ** The command line *)

Section CliTheory.
Variable int : string -> outcome Z.
Variable get_tmp_dir : string.

Lemma split_not_nil (sep : ascii) (s : string) : Cli.split sep s <> [].
Proof.
  destruct s as [|c s]; simpl; [discriminate|].
  destruct (Ascii.eqb c sep); [discriminate|].
  destruct (Cli.split sep s); discriminate.
Qed.

Lemma concat_split (sep : ascii) (s : string) :
  String.concat (String sep EmptyString) (Cli.split sep s) = s.
Proof.
  induction s as [|c s IH]; [reflexivity|]. simpl Cli.split.
  destruct (Ascii.eqb_spec c sep) as [->|Hc].
  - destruct (Cli.split sep s) as [|tok rest] eqn:Hs;
      [now elim (split_not_nil sep s)|].
    simpl in *. now rewrite IH.
  - destruct (Cli.split sep s) as [|tok rest] eqn:Hs;
      [now elim (split_not_nil sep s)|].
    destruct rest; simpl in *; now rewrite IH.
Qed.

Lemma split_tokens (sep : ascii) (s : string) :
  Forall (fun tok => Cli.contains sep tok = false) (Cli.split sep s).
Proof.
  induction s as [|c s IH]; simpl; [repeat constructor|].
  destruct (Ascii.eqb_spec c sep) as [->|Hc].
  - constructor; [reflexivity | exact IH].
  - destruct (Cli.split sep s) as [|tok rest]; simpl.
    + repeat constructor. simpl.
      destruct (Ascii.eqb_spec c sep); [congruence | reflexivity].
    + inversion IH; subst. constructor; [|assumption].
      simpl. destruct (Ascii.eqb_spec c sep); [congruence | assumption].
Qed.

Lemma comprehension_all {A B} (f : A -> outcome B) xs ys :
  Forall2 (fun x y => f x = Returned y) xs ys ->
  Cli.comprehension f xs = Returned ys.
Proof.
  induction 1 as [|x y xs ys Hx _ IH]; simpl; [reflexivity|].
  now rewrite Hx, IH.
Qed.

Lemma comprehension_raises {A B} (f : A -> outcome B) xs x :
  In x xs -> returned (f x) = false ->
  returned (Cli.comprehension f xs) = false.
Proof.
  induction xs as [|y xs IH]; [contradiction|].
  intros [->|Hin] Hx; simpl.
  - destruct (f x); [discriminate | reflexivity].
  - destruct (f y); [|reflexivity].
    specialize (IH Hin Hx).
    destruct (Cli.comprehension f xs); [discriminate | reflexivity].
Qed.

(** C8. Without a channel order the predictor is constructed with none.
    With one, the text is cut at every single space (the pieces, joined by
    single spaces, give the text back, and no piece holds a space); when
    [int] accepts every piece the predictor is constructed with the list of
    their values; when [int] rejects some piece the command raises at once:
    no temporary directory is taken and no predictor is constructed. *)
Theorem cli_predict_channel_order (model_bundle image_uri output_uri : string) :
  let launched := fun channel_order =>
    [Cli.GetTmpDir get_tmp_dir;
     Cli.NewPredictor model_bundle get_tmp_dir channel_order;
     Cli.PredictorPredict [image_uri] output_uri;
     Cli.CleanupTmpDir get_tmp_dir] in
  let run := fun channel_order =>
    Cli.predict int get_tmp_dir model_bundle image_uri output_uri
                channel_order tt in
  run None = (Returned tt, tt, launched None)
  /\ (forall text,
        String.concat " " (Cli.split " " text) = text
        /\ Forall (fun tok => Cli.contains " " tok = false) (Cli.split " " text))
  /\ (forall text ints,
        Forall2 (fun tok z => int tok = Returned z) (Cli.split " " text) ints ->
        run (Some text) = (Returned tt, tt, launched (Some ints)))
  /\ (forall text tok,
        In tok (Cli.split " " text) ->
        returned (int tok) = false ->
        returned (result_of (run (Some text))) = false
        /\ trace_of (run (Some text)) = []).
Proof.
  intros launched run. split; [reflexivity|]. split; [|split].
  - intros text. split; [apply concat_split | apply split_tokens].
  - intros text ints Hall. subst run launched. unfold Cli.predict.
    unfold bind at 1. unfold bind at 1. unfold lift_outcome.
    now rewrite (comprehension_all int _ _ Hall).
  - intros text tok Hin Htok. subst run. unfold Cli.predict.
    unfold bind at 1. unfold bind at 1. unfold lift_outcome.
    pose proof (comprehension_raises int _ _ Hin Htok) as Hraise.
    destruct (Cli.comprehension int (Cli.split " " text)); [discriminate|].
    split; reflexivity.
Qed.

End CliTheory.

(** ** The properties at concrete inputs *)

(** C1 as first stated fails for a backend that reports per call: with two
    windows and batch size 1 the count is 2, on a single batch it is 1; and with no
    window at all the backend is never called, while a single batch of all
    windows is still one call. *)
Lemma batch_size_observable_counting :
  (forall x y z : nat, Nat.add (Nat.add x y) z = Nat.add x (Nat.add y z))
  /\ (forall ws cs l, post_process_batch Demo.counting_hooks ws cs l = l)
  /\ 1 <= 1
  /\ result_of (predict_scene Nat.add Demo.counting_hooks 1
                  (Demo.counting_scene 2) Demo.counting_backend tt)
     = Returned 2%nat
  /\ single_batch_labels Nat.add Demo.counting_hooks (Demo.counting_scene 2)
       Demo.counting_backend = 1%nat
  /\ result_of (predict_scene Nat.add Demo.counting_hooks 1
                  (Demo.counting_scene 2) Demo.counting_backend tt)
     <> Returned (single_batch_labels Nat.add Demo.counting_hooks
                    (Demo.counting_scene 2) Demo.counting_backend)
  /\ result_of (predict_scene Nat.add Demo.counting_hooks 1
                  (Demo.counting_scene 0) Demo.counting_backend tt)
     <> Returned (single_batch_labels Nat.add Demo.counting_hooks
                    (Demo.counting_scene 0) Demo.counting_backend).
Proof.
  split; [intros; symmetry; apply Nat.add_assoc|].
  split; [reflexivity|]. split; [lia|].
  split; [reflexivity|]. split; [reflexivity|].
  split; vm_compute; discriminate.
Qed.

Lemma batch_size_unobservable_witness :
  1 <= 2
  /\ result_of (predict_scene (@app Z) Demo.hooks 2 (Demo.scene_of "v" 5)
                  Demo.the_backend tt)
     = Returned (single_batch_labels (@app Z) Demo.hooks (Demo.scene_of "v" 5)
                   Demo.the_backend)
  /\ result_of (predict_scene (@app Z) Demo.hooks 5 (Demo.scene_of "v" 5)
                  Demo.the_backend tt)
     = result_of (predict_scene (@app Z) Demo.hooks 2 (Demo.scene_of "v" 5)
                    Demo.the_backend tt).
Proof.
  assert (Hb : 1 <= 2) by lia.
  destruct (batch_size_unobservable (@app Z) Demo.hooks (Demo.scene_of "v" 5)
              Demo.the_backend 2 unit tt
              (fun x y z => eq_sym (app_assoc x y z))
              (fun _ _ _ => eq_refl)
              (fun _ _ _ _ => eq_refl) Hb) as [Hsingle Hany].
  split; [exact Hb|]. split.
  - apply Hsingle. vm_compute. discriminate.
  - apply Hany. lia.
Defined.

Lemma predict_scene_batches_witness :
  1 <= 2
  /\ map (fun c => length (call_windows c))
         (backend_calls
            (trace_of (predict_scene (@app Z) Demo.hooks 2 (Demo.scene_of "v" 5)
                         Demo.the_backend tt)))
     = [2; 2; 1]%nat.
Proof.
  assert (Hb : 1 <= 2) by lia.
  split; [exact Hb|].
  exact (proj2 (proj2 (proj2 (proj2
           (predict_scene_batches (@app Z) Demo.hooks (Demo.scene_of "v" 5)
              Demo.the_backend 2 unit tt Hb)))) eq_refl eq_refl).
Defined.

Lemma predict_scene_no_windows_witness :
  get_predict_windows Demo.hooks
    (get_extent (raster_source (Demo.scene_of "v1" 0))) = []
  /\ backend_calls
       (trace_of (predict_scene (@app Z) Demo.hooks 2 (Demo.scene_of "v1" 0)
                    Demo.the_backend tt)) = []
  /\ result_of (predict_scene (@app Z) Demo.hooks 2 (Demo.scene_of "v1" 0)
                  Demo.the_backend tt) = Returned [].
Proof.
  split; [reflexivity|].
  exact (predict_scene_no_windows (@app Z) Demo.hooks (Demo.scene_of "v1" 0)
           Demo.the_backend 2 unit tt eq_refl).
Defined.

Lemma chip_empty_shard_witness :
  train_scenes (Demo.get_split_config (dataset Demo.the_config) 3 4) = []
  /\ validation_scenes (Demo.get_split_config (dataset Demo.the_config) 3 4) = []
  /\ result_of (chip Demo.get_split_config Demo.hooks Demo.the_config "/tmp"
                     3 4 (init 0)) = Returned tt
  /\ filter is_sample_writing
       (trace_of (chip Demo.get_split_config Demo.hooks Demo.the_config "/tmp"
                       3 4 (init 0))) = [].
Proof.
  split; [reflexivity|]. split; [reflexivity|].
  destruct (chip_empty_shard Demo.get_split_config Demo.hooks Demo.the_config
              "/tmp" 3 4 (init 0) eq_refl eq_refl) as (Hr & _ & Hw & _).
  split; [exact Hr | exact Hw].
Defined.

Lemma predict_backend_cached_witness :
  self_backend (@init Z Z (list Z) 0) = None
  /\ exists bk,
       builds (trace_of (predict (@app Z) Demo.get_split_config Demo.hooks
                                 Demo.the_config "/tmp" 0 1 (init 0))) = [bk]
       /\ loads (trace_of (predict (@app Z) Demo.get_split_config Demo.hooks
                                   Demo.the_config "/tmp" 0 1 (init 0))) = [bk].
Proof.
  split; [reflexivity|].
  destruct (predict_backend_cached (@app Z) Demo.get_split_config Demo.hooks
              Demo.the_config "/tmp" 0 1 0 1 (init 0))
    as (bk & _ & _ & _ & _ & _ & Hfresh).
  exists bk. apply Hfresh. reflexivity.
Defined.


Lemma cli_predict_channel_order_witness :
  Forall2 (fun tok z => Cli.int_ascii tok = Returned z)
          (Cli.split " " "2 1 0") [2; 1; 0]
  /\ Cli.predict Cli.int_ascii "/tmp/x" "bundle.zip" "image.tif" "out"
                 (Some "2 1 0"%string) tt =
     (Returned tt, tt,
      [Cli.GetTmpDir "/tmp/x";
       Cli.NewPredictor "bundle.zip" "/tmp/x" (Some [2; 1; 0]);
       Cli.PredictorPredict ["image.tif"%string] "out";
       Cli.CleanupTmpDir "/tmp/x"])
  /\ In "x"%string (Cli.split " " "2 x 0")
  /\ returned (Cli.int_ascii "x") = false
  /\ returned (result_of (Cli.predict Cli.int_ascii "/tmp/x" "bundle.zip"
                            "image.tif" "out" (Some "2 x 0"%string) tt)) = false
  /\ trace_of (Cli.predict Cli.int_ascii "/tmp/x" "bundle.zip" "image.tif" "out"
                 (Some "2 x 0"%string) tt) = [].
Proof.
  assert (Hall : Forall2 (fun tok z => Cli.int_ascii tok = Returned z)
                         (Cli.split " " "2 1 0") [2; 1; 0])
    by (repeat constructor).
  assert (Hin : In "x"%string (Cli.split " " "2 x 0")) by (simpl; auto).
  destruct (cli_predict_channel_order Cli.int_ascii "/tmp/x" "bundle.zip"
              "image.tif" "out") as (_ & _ & Hok & Hbad).
  split; [exact Hall|]. split; [exact (Hok _ _ Hall)|].
  split; [exact Hin|]. split; [reflexivity|].
  exact (Hbad "2 x 0"%string "x"%string Hin eq_refl).
Defined.

(** * Further properties *)

(** ** Stateless computations *)

Section StatelessLaws.
Context {E S : Type}.

Lemma stateless_ret {A} (a : A) : stateless (@ret E S A a).
Proof. exists (Returned a), []. reflexivity. Qed.

Lemma stateless_emit (e : E) : stateless (@emit E S e).
Proof. exists (Returned tt), [e]. reflexivity. Qed.

Lemma stateless_lift_outcome {A} (r : outcome A) : stateless (@lift_outcome E S A r).
Proof. exists r, []. reflexivity. Qed.

Lemma stateless_bind {A B} (m : M E S A) (k : A -> M E S B) :
  stateless m -> (forall a, stateless (k a)) -> stateless (bind m k).
Proof.
  intros (r & t & Hm) Hk. destruct r as [a|e].
  - destruct (Hk a) as (r2 & t2 & Hka).
    exists r2, (t ++ t2). intros s. unfold bind. now rewrite Hm, Hka.
  - exists (Raised e), t. intros s. unfold bind. now rewrite Hm.
Qed.

Lemma stateless_for_each {A} (xs : list A) (body : A -> M E S unit) :
  (forall x, stateless (body x)) -> stateless (for_each xs body).
Proof.
  intros Hbody. induction xs as [|x xs IH]; simpl.
  - apply stateless_ret.
  - apply stateless_bind; [apply Hbody | intros _; exact IH].
Qed.

Lemma stateless_with {A} (enter exit_ : E) (body : M E S A) :
  stateless body -> stateless (with_ enter exit_ body).
Proof.
  intros (r & t & Hm). exists r, (enter :: t ++ [exit_]).
  intros s. unfold with_. now rewrite Hm.
Qed.

(** A loop whose bodies all return. *)
Lemma for_each_returns {A} (xs : list A) (body : A -> M E S unit)
      (tr : A -> list E) :
  (forall x s, body x s = (Returned tt, s, tr x)) ->
  forall s, for_each xs body s = (Returned tt, s, flat_map tr xs).
Proof.
  intros Hbody s. induction xs as [|x xs IH]; [reflexivity|].
  simpl. exact (bind_run _ _ _ _ _ _ _ _ _ (Hbody x s) IH).
Qed.

Lemma for_each_map {A B} (f : A -> B) (xs : list A) (body : B -> M E S unit) s :
  for_each (map f xs) body s = for_each xs (fun x => body (f x)) s.
Proof.
  revert s. induction xs as [|x xs IH]; intros s; [reflexivity|].
  simpl. unfold bind. destruct (body (f x) s) as [[[u|e] s1] t1]; [|reflexivity].
  now rewrite IH.
Qed.

Lemma for_each_then {A} (xs ys : list A) (body : A -> M E S unit) s :
  bind (for_each xs body) (fun _ => for_each ys body) s =
  for_each (xs ++ ys) body s.
Proof.
  revert s. induction xs as [|x xs IH]; intros s.
  - simpl. unfold bind, ret. destruct (for_each ys body s) as [[r s1] t1].
    reflexivity.
  - simpl. unfold bind in *. destruct (body x s) as [[[u|e] s1] t1];
      [|reflexivity].
    rewrite <- IH. destruct (for_each xs body s1) as [[[u2|e2] s2] t2];
      [|reflexivity].
    destruct (for_each ys body s2) as [[r3 s3] t3]. now rewrite app_assoc.
Qed.

(** A loop over stateless bodies runs the bodies of a prefix of the list:
    all of it when it returns. *)
Lemma for_each_stateless_run {A} (xs : list A) (body : A -> M E S unit) s :
  (forall x, stateless (body x)) ->
  exists k,
    (k <= length xs)%nat
    /\ state_of (for_each xs body s) = s
    /\ trace_of (for_each xs body s) =
       flat_map (fun x => trace_of (body x s)) (firstn k xs)
    /\ (returned (result_of (for_each xs body s)) = true -> k = length xs)
    /\ (returned (result_of (for_each xs body s)) = false -> (1 <= k)%nat).
Proof.
  intros Hbody. induction xs as [|x xs (k & Hk & Hst & Htr & Hret & Hraise)].
  - exists 0%nat. simpl. repeat split; auto. discriminate.
  - destruct (Hbody x) as (r & t & Hx). simpl for_each. unfold bind.
    rewrite Hx. destruct r as [u|e].
    + destruct (for_each xs body s) as [[r2 s2] t2] eqn:Hxs.
      rewrite result_of_run, state_of_run, trace_of_run in *.
      exists (Datatypes.S k). simpl. rewrite Hx, trace_of_run. subst s2 t2.
      repeat split; auto; try lia.
    + exists 1%nat. cbn [firstn flat_map length].
      rewrite Hx, ?result_of_run, ?state_of_run, ?trace_of_run, app_nil_r.
      repeat split; auto; try lia. discriminate.
Qed.
End StatelessLaws.

(** ** chip on a shard with scenes *)

Section ChipTheory.
Context {Box Chip Labels ClassConfig : Type}.
Variable get_split_config :
  DatasetConfig Box Chip Labels ClassConfig -> Z -> Z ->
  DatasetConfig Box Chip Labels ClassConfig.
Variable config : RVPipelineConfig Box Chip Labels ClassConfig.
Variable tmp_dir : string.

Let fresh (rt : Runtime Box Chip Labels) : Backend Box Chip Labels :=
  {| backend_id := objects rt; backend_predict := model (backend config) |}.
Let bumped (rt : Runtime Box Chip Labels) : Runtime Box Chip Labels :=
  {| self_backend := self_backend rt; objects := S (objects rt) |}.

Lemma bind_ext {E S A B} (m m' : M E S A) (k k' : A -> M E S B) s :
  (forall s, m s = m' s) -> (forall a s, k a s = k' a s) ->
  bind m k s = bind m' k' s.
Proof.
  intros Hm Hk. unfold bind. rewrite Hm.
  destruct (m' s) as [[[a|e] s1] t1]; [now rewrite Hk | reflexivity].
Qed.

Section AnyHooks.
Variable self : Hooks Box Chip Labels.

Let job_body (job : Scene Box Chip Labels * split_name) :=
  chip_scene self (fst job) (snd job).
Let jobs := chip_jobs get_split_config config tmp_dir.

(** [chip] as one loop over its jobs, inside the sample writer. *)
Lemma chip_unfold (split_ind num_splits : Z) (rt : Runtime Box Chip Labels) :
  let inner := for_each (jobs split_ind num_splits) job_body (bumped rt) in
  chip get_split_config self config tmp_dir split_ind num_splits rt =
  match jobs split_ind num_splits with
  | [] => (Returned tt, bumped rt, [EvBuildBackend (fresh rt)])
  | _ :: _ =>
      (result_of inner, state_of inner,
       EvBuildBackend (fresh rt) :: EvGetSampleWriter (fresh rt) ::
       trace_of inner ++ [EvCloseSampleWriter (fresh rt)])
  end.
Proof.
  intros inner. unfold chip. unfold bind at 1.
  change (backend_build config rt)
    with (Returned (fresh rt), bumped rt, [EvBuildBackend (fresh rt)]).
  cbv beta iota.
  set (ds := get_split_config (dataset config) split_ind num_splits) in *.
  assert (Hloops : forall s,
    bind (for_each (train_scenes ds)
            (fun s0 => chip_scene self (build s0 (class_config ds) tmp_dir) TRAIN))
         (fun _ => for_each (validation_scenes ds)
            (fun s0 => chip_scene self (build s0 (class_config ds) tmp_dir)
                         VALIDATION)) s =
    for_each (jobs split_ind num_splits) job_body s).
  { intros s. unfold jobs, chip_jobs. fold ds. rewrite <- for_each_then.
    apply bind_ext; intros; now rewrite for_each_map. }
  assert (Hjobs : jobs split_ind num_splits = [] <->
                  negb (truthy (train_scenes ds))
                  && negb (truthy (validation_scenes ds)) = true).
  { unfold jobs, chip_jobs. fold ds.
    destruct (train_scenes ds), (validation_scenes ds); simpl;
      split; intros H; try reflexivity; discriminate. }
  destruct (negb (truthy (train_scenes ds))
            && negb (truthy (validation_scenes ds))) eqn:Hc.
  - rewrite (proj2 Hjobs eq_refl). reflexivity.
  - unfold with_. rewrite Hloops. fold inner.
    destruct (jobs split_ind num_splits) as [|job rest] eqn:Hj.
    + discriminate (proj1 Hjobs eq_refl).
    + destruct inner as [[r s1] t1]. reflexivity.
Qed.

Lemma bind_trace_Forall {E S A B} (P : E -> Prop) (m : M E S A)
      (k : A -> M E S B) :
  (forall s, Forall P (trace_of (m s))) ->
  (forall a s, Forall P (trace_of (k a s))) ->
  forall s, Forall P (trace_of (bind m k s)).
Proof.
  intros Hm Hk s. unfold bind. specialize (Hm s).
  destruct (m s) as [[[a|e] s1] t1]; [|exact Hm].
  specialize (Hk a s1). destruct (k a s1) as [[r s2] t2].
  rewrite trace_of_run in *. now apply Forall_app.
Qed.

Lemma for_each_trace_Forall {E S A} (P : E -> Prop) (xs : list A)
      (body : A -> M E S unit) :
  (forall x s, Forall P (trace_of (body x s))) ->
  forall s, Forall P (trace_of (for_each xs body s)).
Proof.
  intros Hbody. induction xs as [|x xs IH]; [constructor|].
  simpl. apply bind_trace_Forall; [apply Hbody | intros _; exact IH].
Qed.

Lemma with_trace {E S A} (enter exit_ : E) (body : M E S A) s :
  trace_of (with_ enter exit_ body s) = enter :: trace_of (body s) ++ [exit_].
Proof. unfold with_. destruct (body s) as [[r s1] t1]. reflexivity. Qed.

Lemma chip_scene_stateless scene split : stateless (chip_scene self scene split).
Proof.
  unfold chip_scene. apply stateless_with. apply stateless_bind.
  - apply stateless_lift_outcome.
  - intros windows. apply stateless_for_each. intros window.
    apply stateless_bind; [apply stateless_emit | intros _].
    apply stateless_bind; [apply stateless_lift_outcome | intros labels].
    apply stateless_emit.
Qed.

(** One scene: activation, then chip reads and sample writes only, then
    deactivation, whether the hooks return or raise. *)
Lemma chip_scene_shape scene split (rt : Runtime Box Chip Labels) :
  exists body,
    trace_of (chip_scene self scene split rt) =
      EvActivate scene :: body ++ [EvDeactivate scene]
    /\ Forall (fun e => is_chipping e = true /\ is_scope e = false) body.
Proof.
  unfold chip_scene. rewrite with_trace. eexists. split; [reflexivity|].
  revert rt. apply bind_trace_Forall.
  - intros s. constructor.
  - intros windows. apply for_each_trace_Forall. intros window.
    apply bind_trace_Forall; [intros s; repeat constructor | intros _].
    apply bind_trace_Forall; [intros s; constructor | intros labels s].
    repeat constructor.
Qed.

Lemma scopes_app (t1 t2 : list (event Box Chip Labels)) :
  scopes (t1 ++ t2) = scopes t1 ++ scopes t2.
Proof. apply filter_app. Qed.

Lemma samples_written_app (t1 t2 : list (event Box Chip Labels)) :
  samples_written (t1 ++ t2) = samples_written t1 ++ samples_written t2.
Proof. apply flat_map_app. Qed.

Lemma chip_scene_views scene split (rt : Runtime Box Chip Labels) :
  scopes (trace_of (chip_scene self scene split rt)) =
    [EvActivate scene; EvDeactivate scene]
  /\ forallb is_chipping (trace_of (chip_scene self scene split rt)) = true.
Proof.
  destruct (chip_scene_shape scene split rt) as (body & -> & Hbody).
  assert (H : scopes body = [] /\ forallb is_chipping body = true).
  { induction Hbody as [|e body [He1 He2] _ [IH1 IH2]]; [now split|].
    unfold scopes in *. simpl. now rewrite He1, He2, IH1, IH2. }
  destruct H as [H1 H2].
  change (EvActivate scene :: body ++ [EvDeactivate scene])
    with ([EvActivate scene] ++ body ++ [EvDeactivate scene]).
  rewrite !scopes_app, !forallb_app, H1, H2. split; reflexivity.
Qed.

Lemma jobs_views (js : list (Scene Box Chip Labels * split_name))
      (rt : Runtime Box Chip Labels) :
  let t := flat_map (fun job => trace_of (job_body job rt)) js in
  scopes t = flat_map (fun job => [EvActivate (fst job); EvDeactivate (fst job)]) js
  /\ forallb is_chipping t = true.
Proof.
  induction js as [|job js [IH1 IH2]]; [now split|].
  destruct (chip_scene_views (fst job) (snd job) rt) as [H1 H2].
  cbn [flat_map]. rewrite scopes_app, forallb_app.
  unfold job_body at 1 3. now rewrite H1, H2, IH1, IH2.
Qed.

Lemma chipping_views (t : list (event Box Chip Labels)) :
  forallb is_chipping t = true ->
  builds t = [] /\ loads t = [] /\ scene_calls t = []
  /\ filter is_setup t = [].
Proof.
  induction t as [|e t IH]; [now repeat split|].
  simpl. intros H. apply andb_prop in H. destruct H as [He Ht].
  destruct (IH Ht) as (H1 & H2 & H3 & H4).
  destruct e; try discriminate; simpl; now rewrite ?H1, ?H2, ?H3, ?H4.
Qed.

(** X3. [scene.activate()] and the sample writer are left on every path:
    when the shard has a scene, the writer is acquired right after the
    backend is built and closed last, whether [chip] returns or raises;
    in between, the scenes are taken in order, each one deactivated before
    the next is activated, the one whose chipping raised included; when
    [chip] returns that was every scene. *)
Theorem chip_scopes_released (split_ind num_splits : Z)
        (rt : Runtime Box Chip Labels) :
  let run := chip get_split_config self config tmp_dir split_ind num_splits rt in
  let js := chip_jobs get_split_config config tmp_dir split_ind num_splits in
  js <> [] ->
  exists inner k,
    trace_of run =
      EvBuildBackend (fresh rt) :: EvGetSampleWriter (fresh rt) ::
      inner ++ [EvCloseSampleWriter (fresh rt)]
    /\ forallb is_chipping inner = true
    /\ scopes inner =
       flat_map (fun job => [EvActivate (fst job); EvDeactivate (fst job)])
                (firstn k js)
    /\ (k <= length js)%nat
    /\ (returned (result_of run) = true -> k = length js)
    /\ (returned (result_of run) = false -> (1 <= k)%nat).
Proof.
  intros run js Hne. subst run. rewrite chip_unfold. fold (jobs split_ind num_splits).
  change (jobs split_ind num_splits) with js.
  destruct js as [|job rest] eqn:Hjs; [contradiction|]. rewrite <- Hjs.
  rewrite result_of_run, trace_of_run.
  destruct (for_each_stateless_run js job_body (bumped rt)
              (fun job => chip_scene_stateless (fst job) (snd job)))
    as (k & Hk & _ & Htr & Hret & Hraise).
  exists (trace_of (for_each js job_body (bumped rt))), k.
  destruct (jobs_views (firstn k js) (bumped rt)) as [Hs Hc].
  rewrite Htr. repeat split; auto.
Qed.

(** X4. [chip] never uses the backend cached in [self.backend] and never fills
    the cache: on every call, and whatever the hooks do, it builds one new
    backend object, loads no model and leaves [self.backend] as it was. *)
Theorem chip_builds_anew (split_ind num_splits : Z)
        (rt : Runtime Box Chip Labels) :
  let run := chip get_split_config self config tmp_dir split_ind num_splits rt in
  self_backend (state_of run) = self_backend rt
  /\ objects (state_of run) = S (objects rt)
  /\ builds (trace_of run) = [fresh rt]
  /\ loads (trace_of run) = []
  /\ backend_id (fresh rt) = objects rt.
Proof.
  intros run. subst run. rewrite chip_unfold.
  destruct (jobs split_ind num_splits) as [|job rest] eqn:Hjs;
    [repeat split; reflexivity|]. rewrite <- Hjs.
  rewrite state_of_run, trace_of_run.
  destruct (for_each_stateless_run (jobs split_ind num_splits) job_body (bumped rt)
              (fun job => chip_scene_stateless (fst job) (snd job)))
    as (k & _ & Hst & Htr & _).
  destruct (jobs_views (firstn k (jobs split_ind num_splits)) (bumped rt))
    as [_ Hc].
  cbv zeta in Hc. rewrite <- Htr in Hc.
  destruct (chipping_views _ Hc) as (H1 & H2 & _).
  rewrite Hst.
  change (EvBuildBackend (fresh rt) :: EvGetSampleWriter (fresh rt) :: ?t ++ ?u)
    with ([EvBuildBackend (fresh rt); EvGetSampleWriter (fresh rt)] ++ t ++ u).
  unfold builds, loads in *. rewrite !flat_map_app, H1, H2.
  repeat split; reflexivity.
Qed.

(** X2. When the hooks a task implements return, [chip] returns and has written,
    for every training scene of the shard and then every validation scene,
    in order, one sample per training window, in window order: the chip and
    the labels of that window, the scene's id and the split's flag, passed
    through [post_process_sample]. *)
Theorem chip_writes_samples (tw : Scene Box Chip Labels -> list Box)
        (tl : Box -> Scene Box Chip Labels -> Labels)
        (split_ind num_splits : Z) (rt : Runtime Box Chip Labels) :
  (forall scene, get_train_windows self scene = Returned (tw scene)) ->
  (forall window scene, get_train_labels self window scene =
                        Returned (tl window scene)) ->
  let run := chip get_split_config self config tmp_dir split_ind num_splits rt in
  let js := chip_jobs get_split_config config tmp_dir split_ind num_splits in
  result_of run = Returned tt
  /\ samples_written (trace_of run) =
     flat_map (fun job =>
                 map (fun w => sample_of self (fst job) (snd job) w
                                 (tl w (fst job)))
                     (tw (fst job))) js
  /\ chip_reads (trace_of run) = flat_map (fun job => tw (fst job)) js.
Proof.
  intros Htw Htl run js. subst run.
  assert (Hjob : forall job s,
    job_body job s =
    (Returned tt, s,
     EvActivate (fst job) ::
     flat_map (fun w => [EvGetChip w;
                         EvWriteSample (sample_of self (fst job) (snd job) w
                                          (tl w (fst job)))])
              (tw (fst job)) ++ [EvDeactivate (fst job)])).
  { intros [scene split] s. unfold job_body, chip_scene, with_. simpl fst. simpl snd.
    unfold bind at 1, lift_outcome at 1. rewrite Htw.
    erewrite for_each_returns; [reflexivity|].
    intros w s'. unfold bind, emit, lift_outcome. now rewrite Htl. }
  rewrite chip_unfold. fold (jobs split_ind num_splits).
  change (jobs split_ind num_splits) with js.
  rewrite (for_each_returns js job_body _ Hjob).
  assert (Hviews : forall l : list (Scene Box Chip Labels * split_name),
    samples_written
      (flat_map (fun job =>
         EvActivate (fst job) ::
         flat_map (fun w => [EvGetChip w;
                             EvWriteSample (sample_of self (fst job) (snd job) w
                                              (tl w (fst job)))])
                  (tw (fst job)) ++ [EvDeactivate (fst job)]) l) =
    flat_map (fun job =>
                map (fun w => sample_of self (fst job) (snd job) w (tl w (fst job)))
                    (tw (fst job))) l
    /\ chip_reads
         (flat_map (fun job =>
            EvActivate (fst job) ::
            flat_map (fun w => [EvGetChip w;
                                EvWriteSample (sample_of self (fst job) (snd job) w
                                                 (tl w (fst job)))])
                     (tw (fst job)) ++ [EvDeactivate (fst job)]) l) =
       flat_map (fun job => tw (fst job)) l).
  { induction l as [|job l [IH1 IH2]]; [now split|].
    cbn [flat_map]. rewrite samples_written_app, chip_reads_app, IH1, IH2.
    assert (Hw : forall ws,
      samples_written
        (flat_map (fun w => [EvGetChip w;
                             EvWriteSample (sample_of self (fst job) (snd job) w
                                              (tl w (fst job)))]) ws) =
      map (fun w => sample_of self (fst job) (snd job) w (tl w (fst job))) ws
      /\ chip_reads
           (flat_map (fun w => [EvGetChip w;
                                EvWriteSample (sample_of self (fst job) (snd job) w
                                                 (tl w (fst job)))]) ws) = ws).
    { induction ws as [|w ws [IHa IHb]]; [now split|].
      simpl in *. now rewrite IHa, IHb. }
    destruct (Hw (tw (fst job))) as [Ha Hb].
    change (EvActivate (fst job) :: ?t ++ ?u)
      with ([@EvActivate Box Chip Labels (fst job)] ++ t ++ u).
    rewrite !samples_written_app, !chip_reads_app, Ha, Hb. simpl.
    now rewrite !app_nil_r. }
  destruct (Hviews js) as [H1 H2]. clearbody js.
  destruct js as [|job rest]; [now repeat split|].
  rewrite !result_of_run, !trace_of_run.
  change (EvBuildBackend (fresh rt) :: EvGetSampleWriter (fresh rt) :: ?t ++ ?u)
    with ([EvBuildBackend (fresh rt); EvGetSampleWriter (fresh rt)] ++ t ++ u).
  rewrite !samples_written_app, !chip_reads_app, H1, H2. simpl.
  now rewrite !app_nil_r.
Qed.

End AnyHooks.

(** X1. With the methods as [RVPipeline] itself defines them, [chip] on a shard
    that has a scene raises [NotImplementedError] from [get_train_windows]
    for the first scene: nothing is read or written, and that scene and the
    sample writer are released before the error leaves [chip]. *)
Theorem chip_base_unimplemented (get_windows : Box -> Z -> Z -> list Box)
        (chip_sz : Z) (split_ind num_splits : Z) (rt : Runtime Box Chip Labels) :
  let self := base_hooks get_windows chip_sz in
  let run := chip get_split_config self config tmp_dir split_ind num_splits rt in
  let js := chip_jobs get_split_config config tmp_dir split_ind num_splits in
  js <> [] ->
  result_of run = Raised NotImplementedError
  /\ samples_written (trace_of run) = []
  /\ chip_reads (trace_of run) = []
  /\ exists job rest,
       js = job :: rest
       /\ trace_of run =
          [EvBuildBackend (fresh rt); EvGetSampleWriter (fresh rt);
           EvActivate (fst job); EvDeactivate (fst job);
           EvCloseSampleWriter (fresh rt)].
Proof.
  intros self run js Hne. subst run. rewrite chip_unfold.
  fold js. clearbody js. destruct js as [|job rest]; [contradiction|].
  change (for_each (job :: rest)
            (fun job0 => chip_scene self (fst job0) (snd job0)) (bumped rt))
    with (Raised NotImplementedError : outcome unit, bumped rt,
          [EvActivate (fst job); EvDeactivate (fst job)]).
  rewrite result_of_run, !trace_of_run.
  split; [reflexivity|]. split; [reflexivity|]. split; [reflexivity|].
  exists job, rest. split; reflexivity.
Qed.

End ChipTheory.

(** ** predict_scene at the ends of the range of batch sizes *)

Section PredictSceneMore.
Context {Box Chip Labels : Type}.
Variable labels_add : Labels -> Labels -> Labels.
Variable self : Hooks Box Chip Labels.
Variable scene : Scene Box Chip Labels.
Variable bk : Backend Box Chip Labels.

Let windows := get_predict_windows self (get_extent (raster_source scene)).
Let empty := empty_labels (prediction_label_store scene).
Let frame (acc : Labels) (buf : list Box) : Frame Box Chip Labels :=
  {| labels := acc; batch_chips := chips_of scene buf; batch_windows := buf |}.
Let call_of (ws : list Box) := (bk, chips_of scene ws, ws).

Lemma backend_calls_of_run (b : Z) (S : Type) (st : S) :
  exists bs r,
    backend_calls (trace_of (predict_scene labels_add self b scene bk st)) =
      map call_of (bs ++ flushed r)
    /\ result_of (predict_scene labels_add self b scene bk st) =
       Returned (post_process_predictions self
                   (fold_left (batch_step labels_add self scene bk)
                              (bs ++ flushed r) empty) scene)
    /\ chip_reads (trace_of (predict_scene labels_add self b scene bk st)) =
       windows
    /\ concat (bs ++ flushed r) = windows
    /\ Forall (fun blk => blk <> []) (bs ++ flushed r)
    /\ (1 <= b ->
        Forall (fun blk => Z.of_nat (length blk) = b) bs
        /\ Z.of_nat (length r) < b).
Proof.
  destruct (predict_scene_summary labels_add self b scene bk)
    as (bs & r & t_loop & t_flush & Hrun & Hcat & Hne & [Hr1 Hr2] & [Hc1 Hc2]
        & _ & Hsz).
  exists bs, r. rewrite (Hrun S st), result_of_run, trace_of_run.
  change (EvPredictScene scene bk :: t_loop ++ EvPrint newline :: t_flush ++ ?x)
    with ([EvPredictScene scene bk] ++ t_loop ++
          [@EvPrint Box Chip Labels newline] ++ t_flush ++ x).
  rewrite !backend_calls_app, !chip_reads_app, Hc1, Hc2, Hr1, Hr2. simpl.
  rewrite !app_nil_r, map_app.
  split; [reflexivity|]. split; [reflexivity|]. split; [reflexivity|].
  split; [exact Hcat|]. split; [exact Hne | exact Hsz].
Qed.

(** X5. Whatever the batch size, zero and negative sizes included, every
    window's chip is read exactly once, in window order, the batches the
    backend is given are consecutive blocks of the window sequence, each
    with the chips of its own windows, and the backend is never given an
    empty batch. *)
Theorem predict_scene_no_empty_batch (b : Z) (S : Type) (st : S) :
  let t := trace_of (predict_scene labels_add self b scene bk st) in
  chip_reads t = windows
  /\ concat (map call_windows (backend_calls t)) = windows
  /\ Forall (fun c => call_windows c <> []
                      /\ c = (bk, chips_of scene (call_windows c), call_windows c))
            (backend_calls t).
Proof.
  intros t. subst t.
  destruct (backend_calls_of_run b S st)
    as (bs & r & Hcalls & _ & Hreads & Hcat & Hne & _).
  rewrite Hcalls, Hreads, map_map.
  split; [reflexivity|]. split; [now rewrite map_id|].
  apply Forall_forall. intros c Hin. apply in_map_iff in Hin.
  destruct Hin as (ws & <- & Hin). split; [|reflexivity].
  exact (proj1 (Forall_forall _ _) Hne ws Hin).
Qed.

(** X6. With a batch size of at least the number of windows, and at least one
    window, the backend is called exactly once, on all windows, and
    [predict_scene] returns the single-batch labels, for any backend, merge
    and hooks. *)
Theorem predict_scene_one_batch (b : Z) (S : Type) (st : S) :
  windows <> [] ->
  Z.of_nat (length windows) <= b ->
  backend_calls (trace_of (predict_scene labels_add self b scene bk st)) =
    [(bk, chips_of scene windows, windows)]
  /\ result_of (predict_scene labels_add self b scene bk st) =
     Returned (single_batch_labels labels_add self scene bk).
Proof.
  intros Hne Hlen.
  destruct (backend_calls_of_run b S st)
    as (bs & r & Hcalls & Hres & _ & Hcat & Hnonempty & Hsz).
  assert (Hb : 1 <= b).
  { destruct windows; [contradiction | simpl in Hlen; lia]. }
  destruct (Hsz Hb) as [Hall Hr].
  assert (Hone : bs ++ flushed r = [windows]).
  { destruct bs as [|blk bs].
    - destruct r; simpl in Hcat |- *; [now elim Hne | now rewrite <- Hcat, app_nil_r].
    - inversion Hall as [|? ? Hblk Hrest]; subst.
      assert (Hn : Z.of_nat (length windows) =
                   Z.of_nat (length blk) + Z.of_nat (length bs) * Z.of_nat (length blk)
                   + Z.of_nat (length r)).
      { rewrite <- Hcat, concat_app. cbn [concat]. rewrite !length_app, !Nat2Z.inj_add.
        rewrite (concat_length_uniform _ bs Hrest).
        destruct r; simpl; rewrite ?app_nil_r; lia. }
      assert (Hbs : bs = []).
      { destruct bs; [reflexivity|]. simpl length in Hn. nia. }
      subst bs. simpl in Hn.
      assert (Hr0 : r = []) by (destruct r; [reflexivity | simpl in Hn; lia]).
      subst r. simpl in Hcat |- *. now rewrite <- Hcat, !app_nil_r. }
  rewrite Hcalls, Hres, Hone. split; reflexivity.
Qed.

Lemma small_batch_loop (b : Z) (ws : list Box) : forall acc,
  b <= 1 ->
  for_each ws (predict_window labels_add self b scene bk) (frame acc []) =
  for_each ws (predict_window labels_add self 1 scene bk) (frame acc []).
Proof.
  induction ws as [|w ws IH]; intros acc Hb; [reflexivity|].
  assert (Hw : forall b', b' <= 1 ->
    predict_window labels_add self b' scene bk w (frame acc []) =
    (Returned tt, frame (batch_step labels_add self scene bk acc [w]) [],
     EvGetChip w :: batch_events self scene bk acc [w])).
  { intros b' Hb'.
    pose proof (predict_window_run labels_add self b' scene bk w acc []) as H.
    simpl app in H. simpl length in H.
    destruct (Z.geb_spec (Z.of_nat 1) b') as [_|Hlt]; [exact H | simpl in Hlt; lia]. }
  simpl for_each. unfold bind. rewrite (Hw b Hb), (Hw 1 ltac:(lia)).
  now rewrite (IH _ Hb).
Qed.

(** X7. A batch size below one behaves as batch size one: [predict_scene] does
    exactly the same, calling the backend once per window. *)
Theorem predict_scene_small_batch (b : Z) (S : Type) (st : S) :
  b <= 1 ->
  predict_scene labels_add self b scene bk st =
    predict_scene labels_add self 1 scene bk st
  /\ backend_calls (trace_of (predict_scene labels_add self b scene bk st)) =
     map (fun w => (bk, [get_chip (raster_source scene) w], [w])) windows.
Proof.
  intros Hb.
  assert (Heq : predict_scene labels_add self b scene bk st =
                predict_scene labels_add self 1 scene bk st).
  { unfold predict_scene, call, predict_scene_body.
    unfold bind at 1. unfold bind at 7. unfold emit at 1. unfold emit at 4.
    cbv beta iota. unfold bind at 1. unfold bind at 6.
    change {| labels := empty_labels (prediction_label_store scene);
              batch_chips := []; batch_windows := [] |}
      with (frame empty []).
    now rewrite (small_batch_loop b _ empty Hb). }
  split; [exact Heq|]. rewrite Heq.
  destruct (backend_calls_of_run 1 S st)
    as (bs & r & Hcalls & _ & _ & Hcat & _ & Hsz).
  destruct Hsz as [Hall Hr]; [lia|].
  assert (Hr0 : r = []) by (destruct r; [reflexivity | simpl in Hr; lia]).
  subst r. simpl in Hcat, Hcalls. rewrite app_nil_r in Hcat, Hcalls.
  rewrite Hcalls. fold windows. rewrite <- Hcat. clear Hcat Hcalls.
  induction Hall as [|blk bs Hblk _ IH]; [reflexivity|].
  destruct blk as [|w [|w' blk]]; simpl in Hblk; try lia.
  simpl. now rewrite IH.
Qed.

Lemma prints_app (t1 t2 : list (event Box Chip Labels)) :
  prints (t1 ++ t2) = prints t1 ++ prints t2.
Proof. apply flat_map_app. Qed.

Lemma prints_without_chip_reads (t : list (event Box Chip Labels)) :
  prints (without_chip_reads t) = prints t.
Proof.
  induction t as [|e t IH]; [reflexivity|].
  destruct e; simpl; rewrite ?IH; reflexivity.
Qed.

Lemma prints_batches acc (bs : list (list Box)) :
  prints (batches_trace labels_add self scene bk acc bs) =
  map (fun blk => dots (length blk)) bs.
Proof.
  revert acc. induction bs as [|blk bs IH]; intros acc; [reflexivity|].
  simpl. unfold chips_of. now rewrite length_map, IH.
Qed.

Lemma dots_add (n m : nat) : dots (n + m) = (dots n ++ dots m)%string.
Proof. induction n as [|n IH]; simpl; [reflexivity | now rewrite IH]. Qed.

Lemma fold_append_app (xs ys : list string) :
  fold_right String.append EmptyString (xs ++ ys) =
  (fold_right String.append EmptyString xs ++
   fold_right String.append EmptyString ys)%string.
Proof.
  induction xs as [|x xs IH]; simpl; [reflexivity|].
  now rewrite IH, append_assoc.
Qed.

Lemma dots_batches (bs : list (list Box)) :
  fold_right String.append EmptyString (map (fun blk => dots (length blk)) bs) =
  dots (length (concat bs)).
Proof.
  induction bs as [|blk bs IH]; [reflexivity|].
  simpl. now rewrite IH, length_app, dots_add.
Qed.

(** X8. The progress output for batch size [b >= 1] and [n] windows: one dot
    per window predicted inside the loop, then the line break, and only
    then the dots of the [n mod b] windows of the last, partial batch. *)
Theorem predict_scene_printed (b : Z) (S : Type) (st : S) :
  1 <= b ->
  let n := Z.of_nat (length windows) in
  printed (trace_of (predict_scene labels_add self b scene bk st)) =
  (dots (Z.to_nat (b * (n / b))) ++ newline ++ dots (Z.to_nat (n mod b)))%string.
Proof.
  intros Hb n.
  destruct (predict_scene_run labels_add self b scene bk)
    as (bs & r & t_loop & Hrun & Hcat & _ & _ & Hview & Hsz).
  destruct (Hsz Hb) as [Hall Hr]. fold windows in Hcat.
  rewrite (Hrun S st), trace_of_run. unfold printed.
  match goal with
  | |- fold_right _ _ (prints ?t) = _ =>
      assert (Hp : prints t =
                   map (fun blk => dots (length blk)) bs ++ [newline] ++
                   match r with [] => [] | _ :: _ => [dots (length r)] end)
  end.
  { change (EvPredictScene scene bk :: t_loop ++ EvPrint newline :: ?x)
      with ([EvPredictScene scene bk] ++ t_loop ++
            [@EvPrint Box Chip Labels newline] ++ x).
    rewrite !prints_app, <- (prints_without_chip_reads t_loop), Hview,
      prints_batches.
    destruct r as [|w r]; simpl; unfold chips_of; rewrite ?length_map;
      reflexivity. }
  rewrite Hp, !fold_append_app, dots_batches.
  assert (Hlast : fold_right String.append EmptyString
                    match r with [] => [] | _ :: _ => [dots (length r)] end =
                  dots (length r)).
  { destruct r; [reflexivity|]. cbn [fold_right]. apply append_nil_r. }
  rewrite Hlast. cbn [fold_right]. rewrite append_nil_r.
  assert (Hn : n = Z.of_nat (length (concat bs)) + Z.of_nat (length r)).
  { subst n. rewrite <- Hcat, length_app. lia. }
  pose proof (concat_length_uniform b bs Hall) as Hlen.
  assert (Hdiv : n / b = Z.of_nat (length bs)).
  { symmetry. apply Z.div_unique_pos with (r := Z.of_nat (length r)); lia. }
  assert (Hmod : n mod b = Z.of_nat (length r)).
  { symmetry. apply Z.mod_unique_pos with (q := Z.of_nat (length bs)); lia. }
  rewrite Hdiv, Hmod, Nat2Z.id.
  replace (b * Z.of_nat (length bs)) with (Z.of_nat (length (concat bs))) by lia.
  rewrite Nat2Z.id. reflexivity.
Qed.

End PredictSceneMore.

(** ** bundle, call by call *)

Section BundleScriptTheory.
Context {Box Chip Labels ClassConfig FS : Type}.
Variable download_if_needed : string -> string -> FS -> outcome string * FS.
Variable shutil_copy : string -> string -> FS -> outcome unit * FS.
Variable make_dir : string -> FS -> outcome unit * FS.
Variable zipdir : string -> string -> FS -> outcome unit * FS.
Variable upload_or_copy : string -> string -> FS -> outcome unit * FS.
Variable get_local_path : string -> string -> string.
Variable mkdtemp : string -> string.
Variable config : RVPipelineConfig Box Chip Labels ClassConfig.
Variable self_tmp_dir : string.

Let fetch_ := fetch download_if_needed shutil_copy.
Let tmp := mkdtemp self_tmp_dir.
Let bundle_dir := join tmp "bundle".
Let zip_path := get_local_path (get_model_bundle_uri config) self_tmp_dir.

(** [m] makes the calls of a prefix of [script], all of it when it
    returns. *)
Let follows {A} (m : M fs_event FS A) (script : list fs_event) : Prop :=
  forall fs, exists k,
    (k <= length script)%nat
    /\ map forget_path (trace_of (m fs)) = firstn k script
    /\ (returned (result_of (m fs)) = true -> k = length script).

Lemma follows_bind {A B} (m : M fs_event FS A) (k : A -> M fs_event FS B) s1 s2 :
  follows m s1 -> (forall a, follows (k a) s2) -> follows (bind m k) (s1 ++ s2).
Proof.
  intros Hm Hk fs. destruct (Hm fs) as (k1 & Hk1 & Ht1 & Hr1). unfold bind.
  destruct (m fs) as [[[a|e] fs1] t1];
    rewrite ?result_of_run, ?trace_of_run in *.
  - destruct (Hk a fs1) as (k2 & Hk2 & Ht2 & Hr2).
    destruct (k a fs1) as [[r fs2] t2].
    rewrite ?result_of_run, ?trace_of_run in *.
    specialize (Hr1 eq_refl). subst k1.
    exists (length s1 + k2)%nat. rewrite length_app, map_app, Ht1, Ht2.
    split; [lia|]. split.
    + rewrite firstn_all, firstn_app_2. reflexivity.
    + intros Hr. now rewrite (Hr2 Hr).
  - exists k1. rewrite length_app. split; [lia|]. split; [|discriminate].
    rewrite Ht1, firstn_app.
    replace (k1 - length s1)%nat with 0%nat by lia.
    now rewrite firstn_O, app_nil_r.
Qed.

Lemma follows_for_each {A} (xs : list A) (body : A -> M fs_event FS unit)
      (script : A -> list fs_event) :
  (forall x, follows (body x) (script x)) ->
  follows (for_each xs body) (flat_map script xs).
Proof.
  intros Hbody. induction xs as [|x xs IH].
  - intros fs. exists 0%nat. simpl. repeat split; auto.
  - simpl. apply follows_bind; [apply Hbody | intros _; exact IH].
Qed.

Lemma follows_syscall {A} (ev : fs_event) (op : FS -> outcome A * FS) :
  forget_path ev = ev -> follows (syscall ev op) [ev].
Proof.
  intros Hev fs. exists 1%nat. unfold syscall. destruct (op fs) as [r fs1].
  rewrite trace_of_run. simpl. rewrite Hev. repeat split; auto.
Qed.

Lemma follows_fetch uri tmp_dir dst :
  follows (fetch_ uri tmp_dir dst) (fetch_script uri tmp_dir dst).
Proof.
  intros fs. unfold fetch_, fetch, bind, syscall, fetch_script.
  destruct (download_if_needed uri tmp_dir fs) as [[path|e] fs1].
  - destruct (shutil_copy path dst fs1) as [r fs2].
    exists 2%nat. repeat split; auto.
  - exists 1%nat. simpl. repeat split; auto. discriminate.
Qed.

(** The body of the [with tempfile.TemporaryDirectory(...)] statement. *)
Let bundle_body : M fs_event FS unit :=
  syscall (FsMakeDir bundle_dir) (make_dir bundle_dir) ;;
  for_each (get_bundle_filenames (backend config)) (fun fn =>
    fetch_ (join (train_uri config) fn) tmp (join bundle_dir fn)) ;;
  for_each (analyzers config) (fun a =>
    for_each (analyzer_bundle_filenames a) (fun fn =>
      fetch_ (join (analyze_uri config) fn) tmp (join bundle_dir fn))) ;;
  fetch_ (get_config_uri config) tmp (join bundle_dir "pipeline-config.json") ;;
  syscall (FsZipdir bundle_dir zip_path) (zipdir bundle_dir zip_path) ;;
  syscall (FsUpload zip_path (get_model_bundle_uri config))
          (upload_or_copy zip_path (get_model_bundle_uri config)).

Lemma bundle_as_body fs :
  bundle download_if_needed shutil_copy make_dir zipdir upload_or_copy
         get_local_path mkdtemp config self_tmp_dir fs =
  (result_of (bundle_body fs), state_of (bundle_body fs),
   FsTemporaryDirectory tmp :: trace_of (bundle_body fs) ++ [FsCleanup tmp]).
Proof.
  unfold bundle, with_. fold tmp bundle_dir zip_path fetch_.
  change (match bundle_body fs with (r, s1, t1) =>
            (r, s1, FsTemporaryDirectory tmp :: t1 ++ [FsCleanup tmp]) end =
          (result_of (bundle_body fs), state_of (bundle_body fs),
           FsTemporaryDirectory tmp :: trace_of (bundle_body fs) ++ [FsCleanup tmp])).
  destruct (bundle_body fs) as [[r s1] t1]. reflexivity.
Qed.

Lemma bundle_body_follows :
  follows bundle_body (bundle_script get_local_path mkdtemp config self_tmp_dir).
Proof.
  unfold bundle_script, bundle_body. fold tmp bundle_dir zip_path.
  apply follows_bind; [now apply follows_syscall | intros _].
  apply follows_bind;
    [apply follows_for_each; intros fn; apply follows_fetch | intros _].
  apply follows_bind;
    [apply follows_for_each; intros a; apply follows_for_each; intros fn;
     apply follows_fetch | intros _].
  apply follows_bind; [apply follows_fetch | intros _].
  apply follows_bind; [now apply follows_syscall | intros _].
  now apply follows_syscall.
Qed.

Lemma returns_bind {A B} (m : M fs_event FS A) (k : A -> M fs_event FS B) :
  (forall fs, returned (result_of (m fs)) = true) ->
  (forall a fs, returned (result_of (k a fs)) = true) ->
  forall fs, returned (result_of (bind m k fs)) = true.
Proof.
  intros Hm Hk fs. specialize (Hm fs). unfold bind.
  destruct (m fs) as [[[a|e] fs1] t1]; [|discriminate].
  specialize (Hk a fs1). now destruct (k a fs1) as [[r fs2] t2].
Qed.

Lemma returns_for_each {A} (xs : list A) (body : A -> M fs_event FS unit) :
  (forall x fs, returned (result_of (body x fs)) = true) ->
  forall fs, returned (result_of (for_each xs body fs)) = true.
Proof.
  intros Hbody. induction xs as [|x xs IH]; [reflexivity|].
  simpl. apply returns_bind; [apply Hbody | intros _; exact IH].
Qed.

Lemma returns_syscall {A} (ev : fs_event) (op : FS -> outcome A * FS) :
  (forall fs, returned (fst (op fs)) = true) ->
  forall fs, returned (result_of (syscall ev op fs)) = true.
Proof.
  intros Hop fs. specialize (Hop fs). unfold syscall.
  now destruct (op fs) as [r fs1].
Qed.

(** X11. Every run of [bundle] makes its steps in order -- the staging
    directory made, every declared file and then the configuration
    downloaded and copied, one [zipdir], one upload -- between taking the
    temporary directory and cleaning it up, which it does on every path.
    Either every step returns, each on the stores the one before left, and
    [bundle] returns; or some step raises after all those before it
    returned (a download that raises, or a copy that raises after its
    download returned), no later step is tried, and [bundle] raises that
    exception.  So the calls it makes, the paths of the downloads aside,
    are a prefix of its script, all of it when it returns, and it returns
    when every collaborator does. *)
Theorem bundle_follows_script (fs : FS) :
  let run := bundle download_if_needed shutil_copy make_dir zipdir
                    upload_or_copy get_local_path mkdtemp config self_tmp_dir fs in
  let script := bundle_script get_local_path mkdtemp config self_tmp_dir in
  let calls := bundle_calls get_local_path mkdtemp config self_tmp_dir in
  (exists k,
     (k <= length script)%nat
     /\ map forget_path (trace_of run) =
        FsTemporaryDirectory (mkdtemp self_tmp_dir) :: firstn k script ++
        [FsCleanup (mkdtemp self_tmp_dir)]
     /\ (returned (result_of run) = true -> k = length script))
  /\ ((forall uri dir s, returned (fst (download_if_needed uri dir s)) = true) ->
      (forall src dst s, returned (fst (shutil_copy src dst s)) = true) ->
      (forall dir s, returned (fst (make_dir dir s)) = true) ->
      (forall dir zip s, returned (fst (zipdir dir zip s)) = true) ->
      (forall src dst s, returned (fst (upload_or_copy src dst s)) = true) ->
      returned (result_of run) = true)
  /\ ((exists fs1 t,
         calls_return download_if_needed shutil_copy make_dir zipdir
                      upload_or_copy calls fs fs1 t
         /\ run = (Returned tt, fs1,
                   FsTemporaryDirectory (mkdtemp self_tmp_dir) :: t ++
                   [FsCleanup (mkdtemp self_tmp_dir)]))
      \/ (exists done c rest fs1 t1 e fs2 t2,
            calls = done ++ c :: rest
            /\ calls_return download_if_needed shutil_copy make_dir zipdir
                            upload_or_copy done fs fs1 t1
            /\ call_raises download_if_needed shutil_copy make_dir zipdir
                           upload_or_copy c fs1 e fs2 t2
            /\ run = (Raised e, fs2,
                      FsTemporaryDirectory (mkdtemp self_tmp_dir) ::
                      (t1 ++ t2) ++ [FsCleanup (mkdtemp self_tmp_dir)]))).
Proof.
  intros run script calls. subst run calls.
  split; [|split;
    [|exact (bundle_run_cases download_if_needed shutil_copy make_dir zipdir
               upload_or_copy get_local_path mkdtemp config self_tmp_dir fs)]];
    rewrite bundle_as_body; rewrite result_of_run, ?trace_of_run.
  - destruct (bundle_body_follows fs) as (k & Hk & Ht & Hr).
    exists k. split; [exact Hk|]. split; [|exact Hr].
    change (FsTemporaryDirectory tmp :: trace_of (bundle_body fs) ++ [FsCleanup tmp])
      with ([FsTemporaryDirectory tmp] ++ trace_of (bundle_body fs) ++ [FsCleanup tmp]).
    rewrite !map_app, Ht. reflexivity.
  - intros Hdl Hcp Hmk Hzip Hup.
    assert (Hfetch : forall uri d dst s,
              returned (result_of (fetch_ uri d dst s)) = true).
    { intros uri d dst. unfold fetch_, fetch.
      apply returns_bind; [apply returns_syscall, Hdl|].
      intros path. apply returns_syscall, Hcp. }
    revert fs. unfold bundle_body.
    apply returns_bind; [apply returns_syscall, Hmk | intros _].
    apply returns_bind; [apply returns_for_each; intros fn; apply Hfetch | intros _].
    apply returns_bind;
      [apply returns_for_each; intros a; apply returns_for_each; intros fn;
       apply Hfetch | intros _].
    apply returns_bind; [apply Hfetch | intros _].
    apply returns_bind; [apply returns_syscall, Hzip | intros _].
    apply returns_syscall, Hup.
Qed.

(** X12. Failures after the declared files.  Let [P] be a property of the
    stores that holds when [bundle] starts and that making a directory,
    downloading and copying do not undo.  If, while [P] holds, the
    configuration cannot be retrieved -- its download raises, or the copy
    of what was downloaded does -- [bundle] raises without having called
    [zipdir] or uploaded; if, while [P] holds, [zipdir] of the staging
    directory raises, [bundle] raises and nothing is uploaded. *)
Theorem bundle_fails_late (fs : FS) (P : FS -> Prop) :
  let run := bundle download_if_needed shutil_copy make_dir zipdir
                    upload_or_copy get_local_path mkdtemp config self_tmp_dir fs in
  let tmp_dir := mkdtemp self_tmp_dir in
  let bundle_dir := join tmp_dir "bundle" in
  P fs ->
  kept_by_staging download_if_needed shutil_copy make_dir P ->
  (unretrievable download_if_needed shutil_copy P (get_config_uri config)
                 tmp_dir (join bundle_dir "pipeline-config.json") ->
   returned (result_of run) = false /\ archive_events (trace_of run) = [])
  /\ ((forall s, P s ->
         returned (fst (zipdir bundle_dir
                          (get_local_path (get_model_bundle_uri config)
                                          self_tmp_dir) s)) = false) ->
      returned (result_of run) = false /\ filter is_upload (trace_of run) = []).
Proof.
  intros run tmp_dir bundle_dir0 Hfs Hkept. subst run tmp_dir bundle_dir0. split.
  - intros Hcfg.
    apply (staging_step_fails download_if_needed shutil_copy make_dir zipdir
             upload_or_copy get_local_path mkdtemp config self_tmp_dir P
             (CallFetch (get_config_uri config) tmp
                        (join bundle_dir "pipeline-config.json")) fs Hfs Hkept).
    + unfold staging_calls. fold tmp bundle_dir.
      apply in_or_app. right. apply in_or_app. right. apply in_or_app. right.
      now left.
    + now apply unretrievable_fails.
  - intros Hzip.
    exact (zipdir_fails download_if_needed shutil_copy make_dir zipdir
             upload_or_copy get_local_path mkdtemp config self_tmp_dir P fs
             Hfs Hkept Hzip).
Qed.

Lemma copy_destinations_forget (t : list fs_event) :
  copy_destinations (map forget_path t) = copy_destinations t.
Proof.
  induction t as [|e t IH]; [reflexivity|].
  destruct e; simpl; now rewrite IH.
Qed.

Lemma download_sources_forget (t : list fs_event) :
  download_sources (map forget_path t) = download_sources t.
Proof.
  induction t as [|e t IH]; [reflexivity|].
  destruct e; simpl; now rewrite IH.
Qed.

Lemma fetch_script_views {A} (src dst : A -> string) (xs : list A) :
  copy_destinations (flat_map (fun x => fetch_script (src x) tmp (dst x)) xs) =
    map dst xs
  /\ download_sources (flat_map (fun x => fetch_script (src x) tmp (dst x)) xs) =
     map src xs.
Proof.
  induction xs as [|x xs [IH1 IH2]]; [now split|].
  simpl. now rewrite IH1, IH2.
Qed.

Lemma bundle_script_views :
  let script := bundle_script get_local_path mkdtemp config self_tmp_dir in
  copy_destinations script =
    map (join bundle_dir) (declared_filenames config)
    ++ [join bundle_dir "pipeline-config.json"]
  /\ download_sources script =
     map (join (train_uri config)) (get_bundle_filenames (backend config))
     ++ flat_map (fun a => map (join (analyze_uri config))
                               (analyzer_bundle_filenames a))
                 (analyzers config)
     ++ [get_config_uri config].
Proof.
  unfold bundle_script, declared_filenames. fold tmp bundle_dir zip_path.
  unfold copy_destinations, download_sources.
  rewrite !flat_map_app.
  fold (copy_destinations
          (flat_map (fun fn => fetch_script (join (train_uri config) fn) tmp
                                            (join bundle_dir fn))
                    (get_bundle_filenames (backend config)))).
  fold (download_sources
          (flat_map (fun fn => fetch_script (join (train_uri config) fn) tmp
                                            (join bundle_dir fn))
                    (get_bundle_filenames (backend config)))).
  destruct (fetch_script_views (join (train_uri config)) (join bundle_dir)
              (get_bundle_filenames (backend config))) as [H1 H2].
  rewrite H1, H2.
  assert (Ha : forall l : list AnalyzerConfig,
    flat_map (fun e => match e with FsCopy _ dst => [dst] | _ => [] end)
      (flat_map (fun a =>
         flat_map (fun fn => fetch_script (join (analyze_uri config) fn) tmp
                                          (join bundle_dir fn))
                  (analyzer_bundle_filenames a)) l) =
    map (join bundle_dir) (flat_map analyzer_bundle_filenames l)
    /\ flat_map (fun e => match e with FsDownload uri _ => [uri] | _ => [] end)
         (flat_map (fun a =>
            flat_map (fun fn => fetch_script (join (analyze_uri config) fn) tmp
                                             (join bundle_dir fn))
                     (analyzer_bundle_filenames a)) l) =
       flat_map (fun a => map (join (analyze_uri config))
                              (analyzer_bundle_filenames a)) l).
  { induction l as [|a l [IH1 IH2]]; [now split|].
    destruct (fetch_script_views (join (analyze_uri config)) (join bundle_dir)
                (analyzer_bundle_filenames a)) as [G1 G2].
    unfold copy_destinations, download_sources in G1, G2.
    cbn [flat_map]. rewrite !flat_map_app, map_app, G1, G2, IH1, IH2.
    now split. }
  destruct (Ha (analyzers config)) as [Ha1 Ha2]. rewrite Ha1, Ha2. simpl.
  rewrite map_app, <- !app_assoc. now split.
Qed.

Lemma bundle_dir_join (fn : string) :
  startswith_sep fn = false ->
  join bundle_dir fn = (bundle_dir ++ "/" ++ fn)%string.
Proof. apply join_staging. Qed.

(** X13. Where a run of [bundle] that returns has put the files: a declared name
    that starts with a slash replaces the directory it is joined to, so that
    file is fetched from the name itself and copied onto it, outside the
    staging directory; when no declared name starts with a slash, every
    file is copied to a path below the staging directory. *)
Theorem bundle_staging_paths (fs : FS) :
  let run := bundle download_if_needed shutil_copy make_dir zipdir
                    upload_or_copy get_local_path mkdtemp config self_tmp_dir fs in
  let staging := join (mkdtemp self_tmp_dir) "bundle" in
  returned (result_of run) = true ->
  (forall fn, In fn (get_bundle_filenames (backend config)) ->
              startswith_sep fn = true ->
              In fn (download_sources (trace_of run))
              /\ In fn (copy_destinations (trace_of run)))
  /\ ((forall fn, In fn (declared_filenames config) ->
                  startswith_sep fn = false) ->
      Forall (fun dst => String.prefix (staging ++ "/") dst = true)
             (copy_destinations (trace_of run))).
Proof.
  intros run staging Hret. subst run. rewrite bundle_as_body in *.
  rewrite result_of_run, trace_of_run in *.
  destruct (bundle_body_follows fs) as (k & _ & Ht & Hk).
  rewrite (Hk Hret), firstn_all in Ht.
  destruct bundle_script_views as [Hcopy Hdown].
  assert (Hc : copy_destinations
                 (FsTemporaryDirectory tmp :: trace_of (bundle_body fs) ++
                  [FsCleanup tmp]) =
               map (join bundle_dir) (declared_filenames config)
               ++ [join bundle_dir "pipeline-config.json"]).
  { change (FsTemporaryDirectory tmp :: ?t ++ ?u)
      with ([FsTemporaryDirectory tmp] ++ t ++ u).
    unfold copy_destinations. rewrite !flat_map_app. simpl.
    fold (copy_destinations (trace_of (bundle_body fs))).
    now rewrite app_nil_r, <- copy_destinations_forget, Ht, Hcopy. }
  assert (Hd : download_sources
                 (FsTemporaryDirectory tmp :: trace_of (bundle_body fs) ++
                  [FsCleanup tmp]) =
               map (join (train_uri config)) (get_bundle_filenames (backend config))
               ++ flat_map (fun a => map (join (analyze_uri config))
                                         (analyzer_bundle_filenames a))
                           (analyzers config)
               ++ [get_config_uri config]).
  { change (FsTemporaryDirectory tmp :: ?t ++ ?u)
      with ([FsTemporaryDirectory tmp] ++ t ++ u).
    unfold download_sources. rewrite !flat_map_app. simpl.
    fold (download_sources (trace_of (bundle_body fs))).
    now rewrite app_nil_r, <- download_sources_forget, Ht, Hdown. }
  rewrite Hc, Hd. split.
  - intros fn Hin Habs. split.
    + apply in_or_app. left. apply in_map_iff. exists fn.
      split; [now apply join_absolute | exact Hin].
    + apply in_or_app. left. apply in_map_iff. exists fn.
      split; [now apply join_absolute|].
      unfold declared_filenames. apply in_or_app. now left.
  - intros Hrel. apply Forall_app. split.
    + apply Forall_forall. intros dst Hin. apply in_map_iff in Hin.
      destruct Hin as (fn & <- & Hin).
      rewrite (bundle_dir_join fn (Hrel fn Hin)).
      rewrite <- append_assoc. apply prefix_append.
    + constructor; [|constructor].
      rewrite (bundle_dir_join "pipeline-config.json" eq_refl).
      rewrite <- append_assoc. apply prefix_append.
Qed.

End BundleScriptTheory.

(** ** predict on a shard without scenes *)

Section PredictMore.
Context {Box Chip Labels ClassConfig : Type}.
Variable labels_add : Labels -> Labels -> Labels.
Variable get_split_config :
  DatasetConfig Box Chip Labels ClassConfig -> Z -> Z ->
  DatasetConfig Box Chip Labels ClassConfig.
Variable self : Hooks Box Chip Labels.
Variable config : RVPipelineConfig Box Chip Labels ClassConfig.
Variable tmp_dir : string.

(** X9. [predict] has no early return: on a shard with neither validation nor
    test scenes it still builds the backend and loads the model when none
    is cached, and then does nothing; with a cached backend it does nothing
    at all. *)
Theorem predict_empty_shard (split_ind num_splits : Z)
        (rt : Runtime Box Chip Labels) :
  let ds := get_split_config (dataset config) split_ind num_splits in
  let run := predict labels_add get_split_config self config tmp_dir
                     split_ind num_splits rt in
  validation_scenes ds = [] ->
  test_scenes ds = [] ->
  result_of run = Returned tt
  /\ match self_backend rt with
     | Some _ => trace_of run = [] /\ state_of run = rt
     | None =>
         exists b,
           trace_of run = [EvBuildBackend b; EvLoadModel b]
           /\ self_backend (state_of run) = Some b
           /\ backend_id b = objects rt
     end.
Proof.
  intros ds run Hval Htest. subst run.
  rewrite (predict_run labels_add get_split_config self config tmp_dir
             split_ind num_splits rt).
  fold ds. rewrite Hval, Htest.
  destruct (self_backend rt) as [bk|]; (split; [reflexivity|]).
  - split; reflexivity.
  - eexists. repeat split.
Qed.

End PredictMore.

(** ** The command line, from the arguments *)

Section EatAllTheory.
Variable int : string -> outcome Z.
Variable get_tmp_dir : string.

Lemma split_append (sep : ascii) (a b : string) :
  Cli.split sep (a ++ String sep b) = Cli.split sep a ++ Cli.split sep b.
Proof.
  induction a as [|c a IH]; simpl.
  - now rewrite Ascii.eqb_refl.
  - rewrite IH. destruct (Ascii.eqb c sep); [reflexivity|].
    destruct (Cli.split sep a) as [|tok rest] eqn:Ha;
      [now elim (split_not_nil sep a) | reflexivity].
Qed.

Lemma split_eat (value : string) (rargs : list string) :
  Cli.split " " (OptionEatAll.eat value rargs) =
  flat_map (Cli.split " ") (value :: rargs).
Proof.
  revert value. induction rargs as [|arg rest IH]; intros value.
  - simpl. now rewrite app_nil_r.
  - simpl OptionEatAll.eat. rewrite IH.
    change (value ++ " " ++ arg)%string with (value ++ String " " arg)%string.
    cbn [flat_map]. now rewrite split_append, <- app_assoc.
Qed.

Lemma split_without_sep (sep : ascii) (s : string) :
  Cli.contains sep s = false -> Cli.split sep s = [s].
Proof.
  induction s as [|c s IH]; [reflexivity|]. simpl. intros H.
  apply orb_false_elim in H. destruct H as [Hc Hs].
  rewrite Hc, (IH Hs). reflexivity.
Qed.

(** X14. [parser_process] hands the option's original [process] the value and all
    remaining arguments joined by single spaces, and a state with no
    argument left: whatever followed the option on the command line,
    further options and positional arguments included, is part of the
    value.  Cutting the joined text at single spaces gives the pieces of the
    value and of each argument, in order; arguments without a space come
    back as they were. *)
Theorem parser_process_eats_all {R X} (previous : string -> OptionEatAll.ParsingState R -> X)
        (value : string) (state : OptionEatAll.ParsingState R) :
  let joined := OptionEatAll.eat value (OptionEatAll.rargs state) in
  OptionEatAll.parser_process previous value state =
    previous joined {| OptionEatAll.rargs := [];
                       OptionEatAll.others := OptionEatAll.others state |}
  /\ Cli.split " " joined =
     flat_map (Cli.split " ") (value :: OptionEatAll.rargs state)
  /\ (Forall (fun arg => Cli.contains " " arg = false)
             (value :: OptionEatAll.rargs state) ->
      Cli.split " " joined = value :: OptionEatAll.rargs state).
Proof.
  intros joined. split; [reflexivity|]. split; [apply split_eat|].
  intros Hall. subst joined. rewrite split_eat.
  induction Hall as [|arg args Harg _ IH]; [reflexivity|].
  cbn [flat_map]. now rewrite (split_without_sep " " arg Harg), IH.
Qed.

(** X15. From the command line to the predictor: with [--channel-order value
    arg ...], the predictor is constructed with the integers [int] reads from
    the pieces of the value and of every following argument; if [int]
    rejects one of them, as it does a file name or another option that
    follows, the command raises before anything is done. *)
Theorem cli_predict_eaten_arguments (model_bundle image_uri output_uri : string)
        (value : string) (rargs : list string) :
  let tokens := flat_map (Cli.split " ") (value :: rargs) in
  let run := Cli.predict int get_tmp_dir model_bundle image_uri output_uri
                         (Some (OptionEatAll.eat value rargs)) tt in
  (forall ints,
     Forall2 (fun tok z => int tok = Returned z) tokens ints ->
     run = (Returned tt, tt,
            [Cli.GetTmpDir get_tmp_dir;
             Cli.NewPredictor model_bundle get_tmp_dir (Some ints);
             Cli.PredictorPredict [image_uri] output_uri;
             Cli.CleanupTmpDir get_tmp_dir]))
  /\ (forall tok,
        In tok tokens -> returned (int tok) = false ->
        returned (result_of run) = false /\ trace_of run = []).
Proof.
  intros tokens run. subst run tokens. rewrite <- split_eat.
  set (text := OptionEatAll.eat value rargs). split.
  - intros ints Hall. unfold Cli.predict.
    unfold bind at 1. unfold bind at 1. unfold lift_outcome.
    now rewrite (comprehension_all int _ _ Hall).
  - intros tok Hin Htok. unfold Cli.predict.
    unfold bind at 1. unfold bind at 1. unfold lift_outcome.
    pose proof (comprehension_raises int _ _ Hin Htok) as Hraise.
    destruct (Cli.comprehension int (Cli.split " " text)); [discriminate|].
    split; reflexivity.
Qed.

(** X16. A channel order that is empty, starts or ends with a space, or holds two
    spaces in a row has an empty piece; [int] rejects the empty string, so
    the command raises before anything is done. *)
Theorem cli_predict_empty_token (model_bundle image_uri output_uri text : string) :
  returned (int "") = false ->
  text = ""%string
  \/ (exists b, text = (" " ++ b)%string)
  \/ (exists a, text = (a ++ " ")%string)
  \/ (exists a b, text = (a ++ "  " ++ b)%string) ->
  let run := Cli.predict int get_tmp_dir model_bundle image_uri output_uri
                         (Some text) tt in
  In ""%string (Cli.split " " text)
  /\ returned (result_of run) = false
  /\ trace_of run = [].
Proof.
  intros Hint Hshape run.
  assert (Hin : In ""%string (Cli.split " " text)).
  { destruct Hshape as [->|[(b & ->)|[(a & ->)|(a & b & ->)]]].
    - simpl. auto.
    - simpl. auto.
    - change (a ++ " ")%string with (a ++ String " " "")%string.
      rewrite split_append. apply in_or_app. right. simpl. auto.
    - change (a ++ "  " ++ b)%string with (a ++ String " " (String " " b))%string.
      rewrite split_append. apply in_or_app. right. simpl. auto. }
  split; [exact Hin|]. subst run. unfold Cli.predict.
  unfold bind at 1. unfold bind at 1. unfold lift_outcome.
  pose proof (comprehension_raises int _ _ Hin Hint) as Hraise.
  destruct (Cli.comprehension int (Cli.split " " text)); [discriminate|].
  split; reflexivity.
Qed.

End EatAllTheory.

(** ** The further properties at concrete inputs *)

Lemma chip_base_unimplemented_witness :
  chip_jobs Demo.get_split_config Demo.the_config "/tmp" 0 1 <> []
  /\ result_of (chip Demo.get_split_config Demo.hooks Demo.the_config "/tmp"
                     0 1 (init 0)) = Raised NotImplementedError
  /\ samples_written
       (trace_of (chip Demo.get_split_config Demo.hooks Demo.the_config "/tmp"
                       0 1 (init 0))) = [].
Proof.
  assert (Hne : chip_jobs Demo.get_split_config Demo.the_config "/tmp" 0 1 <> [])
    by (vm_compute; discriminate).
  destruct (chip_base_unimplemented Demo.get_split_config Demo.the_config "/tmp"
              Demo.get_windows 256 0 1 (init 0) Hne) as (Hr & Hs & _).
  split; [exact Hne|]. split; [exact Hr | exact Hs].
Defined.

Lemma chip_writes_samples_witness :
  (forall scene, get_train_windows DemoTask.hooks scene =
                 Returned (Demo.get_windows (get_extent (raster_source scene)) 0 0))
  /\ (forall window scene, get_train_labels DemoTask.hooks window scene =
                           Returned [window])
  /\ map (fun s => (sample_scene_id s, sample_window s, is_train s))
         (samples_written
            (trace_of (chip Demo.get_split_config DemoTask.hooks Demo.the_config
                            "/tmp" 0 2 (init 0))))
     = [("t0"%string, 0, true); ("t0"%string, 1, true); ("t0"%string, 2, true);
        ("v0"%string, 0, false); ("v0"%string, 1, false); ("v0"%string, 2, false);
        ("v0"%string, 3, false); ("v0"%string, 4, false)].
Proof.
  split; [reflexivity|]. split; [reflexivity|].
  destruct (chip_writes_samples Demo.get_split_config Demo.the_config "/tmp"
              DemoTask.hooks
              (fun scene => Demo.get_windows (get_extent (raster_source scene)) 0 0)
              (fun window _ => [window]) 0 2 (init 0)
              (fun _ => eq_refl) (fun _ _ => eq_refl)) as (_ & Hs & _).
  rewrite Hs. reflexivity.
Defined.

Lemma chip_scopes_released_witness :
  chip_jobs Demo.get_split_config Demo.the_config "/tmp" 0 1 <> []
  /\ exists inner k,
       trace_of (chip Demo.get_split_config Demo.hooks Demo.the_config "/tmp"
                      0 1 (init 0)) =
         EvBuildBackend {| backend_id := 0; backend_predict := Demo.detector |}
         :: EvGetSampleWriter {| backend_id := 0; backend_predict := Demo.detector |}
         :: inner ++
         [EvCloseSampleWriter {| backend_id := 0; backend_predict := Demo.detector |}]
       /\ scopes inner =
          flat_map (fun job => [EvActivate (fst job); EvDeactivate (fst job)])
                   (firstn k (chip_jobs Demo.get_split_config Demo.the_config
                                        "/tmp" 0 1))
       /\ (1 <= k)%nat.
Proof.
  assert (Hne : chip_jobs Demo.get_split_config Demo.the_config "/tmp" 0 1 <> [])
    by (vm_compute; discriminate).
  split; [exact Hne|].
  destruct (chip_scopes_released Demo.get_split_config Demo.the_config "/tmp"
              Demo.hooks 0 1 (init 0) Hne)
    as (inner & k & Ht & _ & Hs & _ & _ & Hraise).
  exists inner, k. split; [exact Ht|]. split; [exact Hs|].
  apply Hraise. reflexivity.
Defined.

Lemma predict_scene_one_batch_witness :
  get_predict_windows Demo.hooks
    (get_extent (raster_source (Demo.scene_of "v" 5))) <> []
  /\ Z.of_nat (length (get_predict_windows Demo.hooks
                         (get_extent (raster_source (Demo.scene_of "v" 5))))) <= 8
  /\ map call_windows
         (backend_calls
            (trace_of (predict_scene (@app Z) Demo.hooks 8 (Demo.scene_of "v" 5)
                         Demo.the_backend tt)))
     = [[0; 1; 2; 3; 4]].
Proof.
  assert (Hne : get_predict_windows Demo.hooks
                  (get_extent (raster_source (Demo.scene_of "v" 5))) <> [])
    by (vm_compute; discriminate).
  assert (Hle : Z.of_nat (length (get_predict_windows Demo.hooks
                  (get_extent (raster_source (Demo.scene_of "v" 5))))) <= 8)
    by (vm_compute; discriminate).
  split; [exact Hne|]. split; [exact Hle|].
  rewrite (proj1 (predict_scene_one_batch (@app Z) Demo.hooks (Demo.scene_of "v" 5)
                    Demo.the_backend 8 unit tt Hne Hle)).
  reflexivity.
Defined.

Lemma predict_scene_small_batch_witness :
  0 <= 1
  /\ map call_windows
         (backend_calls
            (trace_of (predict_scene (@app Z) Demo.hooks 0 (Demo.scene_of "v" 3)
                         Demo.the_backend tt)))
     = [[0]; [1]; [2]].
Proof.
  assert (Hb : 0 <= 1) by lia.
  split; [exact Hb|].
  rewrite (proj2 (predict_scene_small_batch (@app Z) Demo.hooks
                    (Demo.scene_of "v" 3) Demo.the_backend 0 unit tt Hb)).
  reflexivity.
Defined.

Lemma predict_scene_printed_witness :
  1 <= 2
  /\ printed (trace_of (predict_scene (@app Z) Demo.hooks 2 (Demo.scene_of "v" 5)
                          Demo.the_backend tt))
     = ("...." ++ newline ++ ".")%string.
Proof.
  assert (Hb : 1 <= 2) by lia.
  split; [exact Hb|].
  rewrite (predict_scene_printed (@app Z) Demo.hooks (Demo.scene_of "v" 5)
             Demo.the_backend 2 unit tt Hb).
  reflexivity.
Defined.

Lemma predict_empty_shard_witness :
  validation_scenes (Demo.get_split_config (dataset Demo.the_config) 3 4) = []
  /\ test_scenes (Demo.get_split_config (dataset Demo.the_config) 3 4) = []
  /\ exists b,
       trace_of (predict (@app Z) Demo.get_split_config Demo.hooks
                         Demo.the_config "/tmp" 3 4 (init 0)) =
       [EvBuildBackend b; EvLoadModel b].
Proof.
  split; [reflexivity|]. split; [reflexivity|].
  destruct (predict_empty_shard (@app Z) Demo.get_split_config Demo.hooks
              Demo.the_config "/tmp" 3 4 (init 0) eq_refl eq_refl)
    as (_ & b & Ht & _).
  exists b. exact Ht.
Defined.

Lemma bundle_follows_script_witness :
  let run := DemoTask.run_bundle_with DemoTask.open_download
               (fun _ dst => Demo.store_write dst) Demo.the_config in
  returned (result_of run) = true
  /\ exists k,
       map forget_path (trace_of run) =
         FsTemporaryDirectory "/tmp/tmp0"
         :: firstn k (bundle_script (fun uri dir => join dir "model-bundle.zip")
                                    (fun dir => join dir "tmp0")
                                    Demo.the_config "/tmp")
         ++ [FsCleanup "/tmp/tmp0"]
       /\ k = 11%nat.
Proof.
  intros run.
  destruct (bundle_follows_script DemoTask.open_download Demo.store_copy
              Demo.store_write (fun _ dst => Demo.store_write dst)
              (fun _ dst => Demo.store_write dst)
              (fun uri dir => join dir "model-bundle.zip")
              (fun dir => join dir "tmp0") Demo.the_config "/tmp" [])
    as [(k & _ & Ht & Hk) [Hreturns _]].
  assert (Hret : returned (result_of run) = true).
  { apply Hreturns; intros; reflexivity. }
  split; [exact Hret|].
  exists k. split; [exact Ht|]. exact (Hk Hret).
Defined.

Lemma bundle_fails_late_witness :
  let config_missing (fs : DemoStore.t) :=
    DemoStore.holds (DemoStore.remote fs) "s3://out/pipeline-config.json"
    = false in
  let archive_locked (fs : DemoStore.t) :=
    DemoStore.holds (DemoStore.read_only fs) "/tmp/model-bundle.zip" = true in
  let no_config := DemoStore.run_bundle Demo.the_config DemoStore.without_config in
  let no_zip := DemoStore.run_bundle Demo.the_config DemoStore.locked_archive in
  (config_missing DemoStore.without_config
   /\ returned (result_of no_config) = false
   /\ archive_events (trace_of no_config) = [])
  /\ (archive_locked DemoStore.locked_archive
      /\ returned (result_of no_zip) = false
      /\ filter is_upload (trace_of no_zip) = []).
Proof.
  intros config_missing archive_locked no_config no_zip.
  assert (Hmissing : config_missing DemoStore.without_config) by reflexivity.
  assert (Hlocked : archive_locked DemoStore.locked_archive) by reflexivity.
  split; (split; [assumption|]).
  - apply (proj1 (bundle_fails_late
                    DemoStore.download_if_needed DemoStore.shutil_copy
                    DemoStore.make_dir DemoStore.zipdir DemoStore.upload_or_copy
                    DemoStore.get_local_path DemoStore.mkdtemp
                    Demo.the_config "/tmp" DemoStore.without_config
                    config_missing Hmissing
                    (conj (fun _ _ H => H)
                       (conj (fun _ _ _ H => H) (fun _ _ _ H => H))))).
    intros fs Hfs path fs1 Hd. unfold config_missing in Hfs.
    unfold DemoStore.download_if_needed in Hd. simpl in Hd.
    rewrite Hfs in Hd. discriminate.
  - apply (proj2 (bundle_fails_late
                    DemoStore.download_if_needed DemoStore.shutil_copy
                    DemoStore.make_dir DemoStore.zipdir DemoStore.upload_or_copy
                    DemoStore.get_local_path DemoStore.mkdtemp
                    Demo.the_config "/tmp" DemoStore.locked_archive
                    archive_locked Hlocked
                    (conj (fun _ _ H => H)
                       (conj (fun _ _ _ H => H) (fun _ _ _ H => H))))).
    intros s Hs. unfold archive_locked in Hs.
    unfold DemoStore.zipdir. simpl.
    change (DemoStore.get_local_path "s3://out/bundle/model-bundle.zip" "/tmp")
      with "/tmp/model-bundle.zip"%string.
    rewrite Hs. now rewrite Bool.andb_false_r.
Defined.

Lemma bundle_staging_paths_witness :
  let relative := DemoTask.run_bundle_with DemoTask.open_download
                    (fun _ dst => Demo.store_write dst) Demo.the_config in
  let absolute := DemoTask.run_bundle_with DemoTask.open_download
                    (fun _ dst => Demo.store_write dst)
                    DemoTask.absolute_config in
  returned (result_of relative) = true
  /\ Forall (fun dst => String.prefix "/tmp/tmp0/bundle/" dst = true)
            (copy_destinations (trace_of relative))
  /\ returned (result_of absolute) = true
  /\ In "/etc/model.pth"%string (download_sources (trace_of absolute))
  /\ In "/etc/model.pth"%string (copy_destinations (trace_of absolute)).
Proof.
  intros relative absolute.
  assert (Hrel : returned (result_of relative) = true) by reflexivity.
  assert (Habs : returned (result_of absolute) = true) by reflexivity.
  split; [exact Hrel|]. split.
  - apply (proj2 (bundle_staging_paths DemoTask.open_download Demo.store_copy
                    Demo.store_write (fun _ dst => Demo.store_write dst)
                    (fun _ dst => Demo.store_write dst)
                    (fun uri dir => join dir "model-bundle.zip")
                    (fun dir => join dir "tmp0") Demo.the_config "/tmp" [] Hrel)).
    intros fn Hin. simpl in Hin.
    destruct Hin as [<-|[<-|[<-|[]]]]; reflexivity.
  - split; [exact Habs|].
    apply (proj1 (bundle_staging_paths DemoTask.open_download Demo.store_copy
                    Demo.store_write (fun _ dst => Demo.store_write dst)
                    (fun _ dst => Demo.store_write dst)
                    (fun uri dir => join dir "model-bundle.zip")
                    (fun dir => join dir "tmp0") DemoTask.absolute_config "/tmp"
                    [] Habs)).
    + simpl. auto.
    + reflexivity.
Defined.

Lemma parser_process_eats_all_witness :
  Forall (fun arg => Cli.contains " " arg = false) ["2"; "1"; "0"]%string
  /\ Cli.split " " (OptionEatAll.eat "2" ["1"; "0"]%string) = ["2"; "1"; "0"]%string.
Proof.
  assert (Hall : Forall (fun arg => Cli.contains " " arg = false)
                        ["2"; "1"; "0"]%string) by (repeat constructor).
  split; [exact Hall|].
  exact (proj2 (proj2 (parser_process_eats_all
                         (fun value (state : OptionEatAll.ParsingState unit) => value)
                         "2" {| OptionEatAll.rargs := ["1"; "0"]%string;
                                OptionEatAll.others := tt |})) Hall).
Defined.

Lemma cli_predict_eaten_arguments_witness :
  Forall2 (fun tok z => Cli.int_ascii tok = Returned z)
          (flat_map (Cli.split " ") ["2"; "1"; "0"]%string) [2; 1; 0]
  /\ Cli.predict Cli.int_ascii "/tmp/x" "bundle.zip" "image.tif" "out"
                 (Some (OptionEatAll.eat "2" ["1"; "0"]%string)) tt =
     (Returned tt, tt,
      [Cli.GetTmpDir "/tmp/x";
       Cli.NewPredictor "bundle.zip" "/tmp/x" (Some [2; 1; 0]);
       Cli.PredictorPredict ["image.tif"%string] "out";
       Cli.CleanupTmpDir "/tmp/x"])
  /\ In "--help"%string (flat_map (Cli.split " ") ["2"; "1"; "--help"]%string)
  /\ returned (Cli.int_ascii "--help") = false
  /\ returned (result_of
       (Cli.predict Cli.int_ascii "/tmp/x" "bundle.zip" "image.tif" "out"
                    (Some (OptionEatAll.eat "2" ["1"; "--help"]%string)) tt))
     = false.
Proof.
  assert (Hall : Forall2 (fun tok z => Cli.int_ascii tok = Returned z)
                   (flat_map (Cli.split " ") ["2"; "1"; "0"]%string) [2; 1; 0])
    by (repeat constructor).
  assert (Hin : In "--help"%string
                   (flat_map (Cli.split " ") ["2"; "1"; "--help"]%string))
    by (simpl; auto).
  split; [exact Hall|]. split.
  - exact (proj1 (cli_predict_eaten_arguments Cli.int_ascii "/tmp/x" "bundle.zip"
                    "image.tif" "out" "2" ["1"; "0"]%string) _ Hall).
  - split; [exact Hin|]. split; [reflexivity|].
    exact (proj1 (proj2 (cli_predict_eaten_arguments Cli.int_ascii "/tmp/x"
                           "bundle.zip" "image.tif" "out" "2"
                           ["1"; "--help"]%string) _ Hin eq_refl)).
Defined.

Lemma cli_predict_empty_token_witness :
  returned (Cli.int_ascii "") = false
  /\ In ""%string (Cli.split " " "2  1")
  /\ returned (result_of
       (Cli.predict Cli.int_ascii "/tmp/x" "bundle.zip" "image.tif" "out"
                    (Some "2  1"%string) tt)) = false.
Proof.
  assert (Hint : returned (Cli.int_ascii "") = false) by reflexivity.
  destruct (cli_predict_empty_token Cli.int_ascii "/tmp/x" "bundle.zip"
              "image.tif" "out" "2  1" Hint
              (or_intror (or_intror (or_intror
                 (ex_intro _ "2"%string (ex_intro _ "1"%string eq_refl))))))
    as (Hin & Hr & _).
  split; [exact Hint|]. split; [exact Hin | exact Hr].
Defined.
